(** * create-aether-cms: version-targeted bootstrap and reconciliation

    A shallow embedding of the installer's core
    ([bin/create-aether-cms.js], [bin/helpers.js]) and the properties its
    specification states about it.

    - JavaScript strings are sequences of UTF-16 code units: [list N].
    - The console, the working copy, the file system and the commands that
      were run form an explicit [world]; code that may throw lives in a
      state-and-exception monad whose state survives a throw, as in
      JavaScript.
    - [git] is an external program: its commands are a datatype, their
      effect on the working copy is given by [git_run], and an environment
      predicate may refuse any mutating command (old git, locked refs,
      read-only configuration).
    - Text that the user types and the code pastes into a command line is
      an argument of the command when it is a single word; otherwise what
      runs is up to the shell of the machine. *)

From stdpp Require Import gmap strings list fin_maps sorting.
From Stdlib Require Import NArith Ascii DecimalString.

Local Open Scope N_scope.

(** ** JavaScript strings *)

Module JsString.

(** A string literal of the source, as code units. *)
Definition lit (s : string) : list N :=
  N_of_ascii <$> String.list_ascii_of_string s.

Definition eqb (s t : list N) : bool := bool_decide (s = t).

(** [t] is a prefix of [s] ([s.startsWith(t)]). *)
Fixpoint starts_with (t s : list N) : bool :=
  match t, s with
  | [], _ => true
  | _ :: _, [] => false
  | a :: t', b :: s' => (a =? b) && starts_with t' s'
  end.

(** [s.includes(t)]: [t] occurs somewhere in [s]. *)
Fixpoint includes (s t : list N) : bool :=
  starts_with t s
  || match s with
     | [] => false
     | _ :: s' => includes s' t
     end.

(** What remains of [s] after the prefix [t], when [s] starts with it. *)
Fixpoint strip_prefix (t s : list N) : option (list N) :=
  match t, s with
  | [], _ => Some s
  | _ :: _, [] => None
  | a :: t', b :: s' => if a =? b then strip_prefix t' s' else None
  end.

(** [s.split("\n")]. *)
Fixpoint split_on (sep : N) (s : list N) : list (list N) :=
  match s with
  | [] => [[]]
  | c :: s' =>
      if c =? sep then [] :: split_on sep s'
      else match split_on sep s' with
           | [] => [[c]]
           | l :: ls => (c :: l) :: ls
           end
  end.

(** ECMAScript WhiteSpace and LineTerminator code units, the ones
    [String.prototype.trim] removes. *)
Definition is_ws (c : N) : bool :=
  ((9 <=? c) && (c <=? 13)) || (c =? 32) || (c =? 160) || (c =? 5760)
  || ((8192 <=? c) && (c <=? 8202)) || (c =? 8232) || (c =? 8233)
  || (c =? 8239) || (c =? 8287) || (c =? 12288) || (c =? 65279).

(** LineTerminator code units: the ones the regular-expression atom [.]
    does not match. *)
Definition is_line_terminator (c : N) : bool :=
  (c =? 10) || (c =? 13) || (c =? 8232) || (c =? 8233).

Fixpoint trimStart (s : list N) : list N :=
  match s with
  | [] => []
  | c :: s' => if is_ws c then trimStart s' else s
  end.

Definition trimEnd (s : list N) : list N :=
  reverse (trimStart (reverse s)).

Definition trim (s : list N) : list N := trimEnd (trimStart s).

(** [s.substring(0, n)]. *)
Definition substring0 (n : nat) (s : list N) : list N := take n s.

(** The order of [<] on strings, which the default [Array.prototype.sort]
    uses: lexicographic on code units. *)
Fixpoint leb (s t : list N) : bool :=
  match s, t with
  | [], _ => true
  | _ :: _, [] => false
  | a :: s', b :: t' => (a <? b) || ((a =? b) && leb s' t')
  end.

Definition le (s t : list N) : Prop := leb s t = true.

#[global] Instance le_dec s t : Decision (le s t).
Proof. unfold le. apply _. Defined.

(** [no_ws s]: no code unit of [s] is white space; true of object ids. *)
Definition no_ws (s : list N) : bool := forallb (fun c => negb (is_ws c)) s.

End JsString.

Import JsString.

Notation "'js:' s" := (lit s) (at level 1, s at level 0, format "'js:' s").

Arguments lit : simpl never.
Arguments includes : simpl never.
Arguments trim : simpl never.

(** ** Values of the option fields

    [parseArguments] initialises [version] to ["latest"] and [tag], [hash]
    to [null]; a flag stores [args[++i]], which is a string or, when the
    flag is the last argument, [undefined]. *)

Inductive jsval :=
| Undefined
| Null
| Str (s : list N).

#[global] Instance jsval_eq_dec : EqDecision jsval.
Proof. solve_decision. Defined.

(** JavaScript truthiness of such a value. *)
Definition truthy (v : jsval) : bool :=
  match v with
  | Str (_ :: _) => true
  | _ => false
  end.

(** [v === "s"] for a string literal. *)
Definition is_str (v : jsval) (s : list N) : bool := bool_decide (v = Str s).

(** The text a template literal [`${v}`] produces. *)
Definition to_string (v : jsval) : list N :=
  match v with
  | Undefined => js:"undefined"
  | Null => js:"null"
  | Str s => s
  end.

Record options := {
  projectName : jsval;
  version : jsval;
  tag : jsval;
  hash : jsval;
  help : bool
}.

(** ** Target Resolver: [determineTarget] *)

Record targetInfo := {
  targetType : list N;
  target : jsval
}.

Definition determineTarget (o : options) : targetInfo :=
  if truthy (hash o) then
    {| targetType := js:"hash"; target := hash o |}
  else if truthy (tag o) then
    {| targetType := js:"tag"; target := tag o |}
  else if truthy (version o) && negb (is_str (version o) js:"latest") then
    {| targetType := js:"version"; target := version o |}
  else
    {| targetType := js:"latest"; target := Str js:"latest" |}.

(** The resolver as the specification words it: the fields in priority
    order, the first non-empty one wins, a version spelled ["latest"] does
    not count, and nothing set means latest. *)
Definition selector_fields (o : options) : list (list N * jsval) :=
  [ (js:"hash", hash o); (js:"tag", tag o); (js:"version", version o) ].

Definition field_is_set (f : list N * jsval) : bool :=
  match f with
  | (kind, Str (c :: s)) =>
      negb (bool_decide (kind = js:"version" ∧ c :: s = js:"latest"))
  | _ => false
  end.

Definition highest_priority_target (o : options) : targetInfo :=
  match List.find field_is_set (selector_fields o) with
  | Some (kind, value) => {| targetType := kind; target := value |}
  | None => {| targetType := js:"latest"; target := Str js:"latest" |}
  end.

(** ** The working copy and git

    [HEAD] is symbolic (on a branch, which may be unborn) or detached at a
    revision; [heads] are the local branches, [tags] the tags, [remotes]
    the configured remotes (name to URL), [config] the repository-level
    settings; [staged] says whether the index holds changes that are not
    committed yet. *)

Inductive head :=
| Attached (b : list N)
| Detached (c : list N).

#[global] Instance head_eq_dec : EqDecision head.
Proof. solve_decision. Defined.

Record repo := {
  HEAD : head;
  heads : gmap (list N) (list N);
  tags : gmap (list N) (list N);
  remotes : gmap (list N) (list N);
  config : gmap (list N) (list N);
  staged : bool
}.

Definition head_rev (r : repo) : option (list N) :=
  match HEAD r with
  | Attached b => heads r !! b
  | Detached c => Some c
  end.

Definition current_branch (r : repo) : option (list N) :=
  match HEAD r with
  | Attached b => Some b
  | Detached _ => None
  end.

Definition set_HEAD (x : head) (r : repo) : repo :=
  {| HEAD := x; heads := heads r; tags := tags r; remotes := remotes r;
     config := config r; staged := staged r |}.
Definition set_heads (x : gmap (list N) (list N)) (r : repo) : repo :=
  {| HEAD := HEAD r; heads := x; tags := tags r; remotes := remotes r;
     config := config r; staged := staged r |}.
Definition set_remotes (x : gmap (list N) (list N)) (r : repo) : repo :=
  {| HEAD := HEAD r; heads := heads r; tags := tags r; remotes := x;
     config := config r; staged := staged r |}.
Definition set_config (x : gmap (list N) (list N)) (r : repo) : repo :=
  {| HEAD := HEAD r; heads := heads r; tags := tags r; remotes := remotes r;
     config := x; staged := staged r |}.
Definition set_staged (x : bool) (r : repo) : repo :=
  {| HEAD := HEAD r; heads := heads r; tags := tags r; remotes := remotes r;
     config := config r; staged := x |}.

(** The name [git symbolic-ref --short] prints for the branch [b]: the
    bare name, unless a tag of the same name makes it ambiguous, and then
    [heads/b]. (The working copy of a clone has no other reference that
    could share the name.) *)
Definition short_name (r : repo) (b : list N) : list N :=
  if bool_decide (is_Some (tags r !! b)) then js:"heads/" ++ b else b.

(** The command lines the installer passes to [execSync]. *)
Inductive cmd :=
| LsRemoteTags (url : list N)           (* git ls-remote --tags <url> *)
| SymbolicRefShortHEAD                  (* git symbolic-ref --short HEAD 2>/dev/null || echo "" *)
| SwitchCreate (b : list N)             (* git switch -c <b> *)
| CheckoutCreate (b : list N)           (* git checkout -b <b> *)
| RevParseHEAD                          (* git rev-parse HEAD *)
| Branch (b c : list N)                 (* git branch <b> <c> *)
| BranchForce (b c : list N)            (* git branch -f <b> <c> *)
| CheckoutBranch (b : list N)           (* git checkout <b> *)
| RemoteRename (a b : list N)           (* git remote rename <a> <b> *)
| RemoteRemove (a : list N)             (* git remote remove <a> *)
| RemoteAdd (a url : list N)            (* git remote add <a> <url> *)
| ConfigSet (k v : list N)              (* git config <k> <v> *)
| PushSetUpstream (remote b : list N)   (* git push -u <remote> <b> *)
| AddAll                                (* git add . *)
| Commit (msg : list N).                (* git commit -m <msg> *)

#[global] Instance cmd_eq_dec : EqDecision cmd.
Proof. solve_decision. Defined.

(** Commands that only read: they answer from the working copy (or, for
    [LsRemoteTags], from the remote) and the environment never refuses
    them. *)
Definition reads_only (c : cmd) : bool :=
  match c with
  | LsRemoteTags _ | SymbolicRefShortHEAD | RevParseHEAD => true
  | _ => false
  end.

Definition nl : list N := [10].

Inductive node :=
| File (content : list N)
| Directory.

Inductive prompt := ConnectOwnRepo | EnterRepoUrl | PushNow.

(** What the machine the installer runs on contributes. [run_line] is
    what the shell makes of a command line into which text typed by the
    user was pasted, when that text is not a single word: it may run
    anything, on the working copy and on the files. *)
Record host := {
  can_run : cmd → repo → bool;      (* the environment lets the command run *)
  remote_tags : option (list N);    (* output of ls-remote; None: it fails *)
  commit_id : repo → list N;        (* id given to a new commit *)
  clock : list N;                   (* new Date().toISOString() *)
  answer : prompt → list N;         (* what the user types *)
  stages : repo → bool;             (* git add . finds something to stage *)
  run_line : cmd → repo → gmap (list N) node →
             option (list N * repo * gmap (list N) node)
}.

(** Effect of a command on the working copy and its standard output;
    [None] when git exits with an error. A commit-ish argument is taken as
    the object id it spells. [git commit] fails when nothing is staged, and
    [git push] refuses a name that a branch and a tag share. *)
Definition git_run (h : host) (c : cmd) (r : repo) : option (list N * repo) :=
  match c with
  | LsRemoteTags _ =>
      match remote_tags h with
      | Some out => Some (out, r)
      | None => None
      end
  | SymbolicRefShortHEAD =>
      match HEAD r with
      | Attached b => Some (short_name r b ++ nl, r)
      | Detached _ => Some (nl, r)
      end
  | SwitchCreate b | CheckoutCreate b =>
      match heads r !! b with
      | Some _ => None
      | None =>
          Some ([], set_HEAD (Attached b)
                     match head_rev r with
                     | Some c => set_heads (<[b:=c]> (heads r)) r
                     | None => r
                     end)
      end
  | RevParseHEAD =>
      match head_rev r with
      | Some c => Some (c ++ nl, r)
      | None => None
      end
  | Branch b c =>
      match heads r !! b with
      | Some _ => None
      | None => Some ([], set_heads (<[b:=c]> (heads r)) r)
      end
  | BranchForce b c =>
      if bool_decide (HEAD r = Attached b) then None
      else Some ([], set_heads (<[b:=c]> (heads r)) r)
  | CheckoutBranch b =>
      match heads r !! b with
      | Some _ => Some ([], set_HEAD (Attached b) r)
      | None => None
      end
  | RemoteRename a b =>
      match remotes r !! a, remotes r !! b with
      | Some url, None =>
          Some ([], set_remotes (<[b:=url]> (delete a (remotes r))) r)
      | _, _ => None
      end
  | RemoteRemove a =>
      match remotes r !! a with
      | Some _ => Some ([], set_remotes (delete a (remotes r)) r)
      | None => None
      end
  | RemoteAdd a url =>
      match remotes r !! a with
      | Some _ => None
      | None => Some ([], set_remotes (<[a:=url]> (remotes r)) r)
      end
  | ConfigSet k v => Some ([], set_config (<[k:=v]> (config r)) r)
  | PushSetUpstream remote b =>
      match remotes r !! remote, heads r !! b, tags r !! b with
      | Some _, Some _, None =>
          Some ([], set_config
                      (<[js:"branch." ++ b ++ js:".merge" := js:"refs/heads/" ++ b]>
                         (<[js:"branch." ++ b ++ js:".remote" := remote]> (config r))) r)
      | _, _, _ => None
      end
  | AddAll => Some ([], set_staged (staged r || stages h r) r)
  | Commit _ =>
      if staged r then
        match HEAD r with
        | Attached b =>
            Some ([], set_staged false (set_heads (<[b:=commit_id h r]> (heads r)) r))
        | Detached _ =>
            Some ([], set_staged false (set_HEAD (Detached (commit_id h r)) r))
        end
      else None
  end.

(** ** The world and the monad of the installer

    [exn] are the values JavaScript code can catch; [process.exit] ends the
    process and no handler sees it. *)

Inductive exn :=
| CommandFailed (c : cmd)       (* execSync: non-zero exit status *)
| SyntaxError                   (* JSON.parse on malformed text *)
| TypeError                     (* property access on null, write on a primitive *)
| FsError (path : list N).      (* readFileSync on something unreadable *)

Inductive message :=
(* validateTarget *)
| NotFound (target : list N)            (* Version/tag '<target>' not found *)
| AvailableVersions                     (* Available versions: *)
| VersionLine (v : list N)              (* two spaces and a tag name *)
| AndMore (n : nat)                     (* ... and <n> more *)
| CouldNotValidate (e : exn)            (* Could not validate target: <message> *)
(* ensureMainBranchFromCurrentState *)
| CreatingMainFromCurrentState (target : list N)
| CreatingMainFrom (targetType target : list N)
| MainBranchSetupComplete
| BranchSetupWarning (e : exn)
| ContinuingWithCurrentState
(* setupGitRepository *)
| SettingUpGit
| ConfiguredUpstream
| SetUpUpstream
| CouldNotSetUpUpstream (e : exn)
| AddedOrigin
| Pushed
| PushFailed (e : exn)
| PushLater
| CouldNotAddOrigin (e : exn)
| GitConfigured
| GitSetupFailed (e : exn)
(* updatePackageJson *)
| CouldNotDetermineVersion
| UpdatedPackageJson (installedVersion : list N).

Inductive level := Log | Warn | Error.

Record world := {
  w_repo : repo;
  w_fs : gmap (list N) node;
  w_console : list (level * message);
  w_trace : list cmd
}.

Inductive outcome (A : Type) :=
| Ret (a : A)
| Throw (e : exn)
| Exit (code : nat).
Arguments Ret {A} a.
Arguments Throw {A} e.
Arguments Exit {A} code.

Definition M (A : Type) : Type := world → outcome A * world.

Definition ret {A} (a : A) : M A := fun w => (Ret a, w).
Definition throw {A} (e : exn) : M A := fun w => (Throw e, w).
Definition process_exit {A} (code : nat) : M A := fun w => (Exit code, w).

Definition bind {A B} (m : M A) (k : A → M B) : M B :=
  fun w =>
    match m w with
    | (Ret a, w') => k a w'
    | (Throw e, w') => (Throw e, w')
    | (Exit n, w') => (Exit n, w')
    end.

(** [try { m } catch (e) { h e }]. *)
Definition try_catch {A} (m : M A) (h : exn → M A) : M A :=
  fun w =>
    match m w with
    | (Throw e, w') => h e w'
    | r => r
    end.

Notation "'let*' x ':=' m 'in' k" := (bind m (fun x => k))
  (at level 10, x name, m at level 100, k at level 200).
Notation "m ';;' k" := (bind m (fun _ => k))
  (at level 100, k at level 200, right associativity).

Definition set_repo (r : repo) (w : world) : world :=
  {| w_repo := r; w_fs := w_fs w; w_console := w_console w; w_trace := w_trace w |}.
Definition set_fs (f : gmap (list N) node) (w : world) : world :=
  {| w_repo := w_repo w; w_fs := f; w_console := w_console w; w_trace := w_trace w |}.
Definition printed (l : level) (m : message) (w : world) : world :=
  {| w_repo := w_repo w; w_fs := w_fs w;
     w_console := w_console w ++ [(l, m)]; w_trace := w_trace w |}.
Definition traced (c : cmd) (w : world) : world :=
  {| w_repo := w_repo w; w_fs := w_fs w;
     w_console := w_console w; w_trace := w_trace w ++ [c] |}.

Definition console (l : level) (m : message) : M unit :=
  fun w => (Ret tt, printed l m w).

(** A command succeeds when the environment lets it run and git accepts
    it. *)
Definition attempt (h : host) (c : cmd) (r : repo) : option (list N * repo) :=
  if reads_only c || can_run h c r then git_run h c r else None.

(** [execSync]: the command is recorded and attempted; a non-zero exit
    status throws. *)
Definition execSync (h : host) (c : cmd) : M (list N) :=
  fun w =>
    match attempt h c (w_repo w) with
    | Some (out, r') => (Ret out, set_repo r' (traced c w))
    | None => (Throw (CommandFailed c), traced c w)
    end.

(** Text that a POSIX shell reads as one word, and git as an argument
    rather than an option: letters, digits and [-_./:@+], not starting
    with a hyphen. *)
Definition word_char (c : N) : bool :=
  ((97 <=? c) && (c <=? 122)) || ((65 <=? c) && (c <=? 90))
  || ((48 <=? c) && (c <=? 57)) || (c =? 45) || (c =? 95) || (c =? 46)
  || (c =? 47) || (c =? 58) || (c =? 64) || (c =? 43).

Definition shell_word (s : list N) : bool :=
  match s with
  | [] => false
  | c :: _ => negb (c =? 45) && forallb word_char s
  end.

(** [execSync] of a command line into which [typed] was pasted. When
    [typed] is one word the line is the command [c]; otherwise what runs
    is up to the shell. *)
Definition execSync_typed (h : host) (c : cmd) (typed : list N) : M (list N) :=
  if shell_word typed then execSync h c
  else
    fun w =>
      match run_line h c (w_repo w) (w_fs w) with
      | Some (out, r', fs') => (Ret out, set_fs fs' (set_repo r' (traced c w)))
      | None => (Throw (CommandFailed c), traced c w)
      end.

(** [xs.forEach(f)]. *)
Fixpoint forEach {A} (xs : list A) (f : A → M unit) : M unit :=
  match xs with
  | [] => ret tt
  | x :: xs' => f x ;; forEach xs' f
  end.

Definition when (b : bool) (m : M unit) : M unit := if b then m else ret tt.

(** ** Remote Existence Checker: [validateTarget] *)

Definition repoUrl : list N := js:"https://github.com/LebCit/aether-cms.git".

(** [line.match(/refs\/tags\/(.+)$/)?.[1]]: the leftmost place where
    ["refs/tags/"] is followed, up to the end of the string, by one or more
    code units that are not line terminators. *)
Fixpoint match_tag (line : list N) : option (list N) :=
  match
    match strip_prefix js:"refs/tags/" line with
    | Some (c :: rest) =>
        if forallb (fun x => negb (is_line_terminator x)) (c :: rest)
        then Some (c :: rest) else None
    | _ => None
    end
  with
  | Some t => Some t
  | None =>
      match line with
      | [] => None
      | _ :: line' => match_tag line'
      end
  end.

(** The [available] array of [validateTarget]. *)
Definition available_tags (tags : list N) : list (list N) :=
  reverse
    (merge_sort le
       (List.filter (fun t => negb (includes t js:"^{}"))
          (omap match_tag
             (List.filter (fun line => includes line js:"refs/tags/")
                (split_on 10 tags))))).

Definition validateTarget (h : host) (target : jsval) (type : list N) : M bool :=
  if eqb type js:"hash" || is_str target js:"latest" then ret true
  else
    try_catch
      (let* tags := execSync h (LsRemoteTags repoUrl) in
       let targetExists := includes tags (js:"refs/tags/" ++ to_string target) in
       if negb targetExists then
         console Error (NotFound (to_string target)) ;;
         let available := available_tags tags in
         when (0 <? length available)%nat
           (console Log AvailableVersions ;;
            forEach (take 10 available) (fun v => console Log (VersionLine v)) ;;
            when (10 <? length available)%nat
              (console Log (AndMore (length available - 10)))) ;;
         ret false
       else ret true)
      (fun error =>
         console Warn (CouldNotValidate error) ;;
         ret true).

(** [main], from the resolver to the call of [installProject]: a target
    other than ["latest"] is validated and a negative answer ends the
    process with status 1. *)
Definition main_target_gate (h : host) (o : options) : M targetInfo :=
  let targetInfo := determineTarget o in
  when (negb (is_str (target targetInfo) js:"latest"))
    (let* isValid := validateTarget h (target targetInfo) (targetType targetInfo) in
     if negb isValid then process_exit 1 else ret tt) ;;
  ret targetInfo.

(** The existence check as the specification words it: the lines of the
    listing are [<object id> TAB <reference>]; a tag exists when some
    reference is [refs/tags/<name>], with or without the dereference marker
    [^{}] that the line of an annotated tag's target carries. *)
Definition ref_of_line (line : list N) : list N :=
  match split_on 9 line with
  | [_; ref] => ref
  | _ => []
  end.

Definition listed_refs (tags : list N) : list (list N) :=
  List.filter (fun ref => negb (eqb ref [])) (ref_of_line <$> split_on 10 tags).

Definition names_tag (name ref : list N) : bool :=
  eqb ref (js:"refs/tags/" ++ name) || eqb ref (js:"refs/tags/" ++ name ++ js:"^{}").

Definition tag_exists_exactly (tags name : list N) : bool :=
  existsb (names_tag name) (listed_refs tags).

(** The tag names of a listing, without the dereference entries. *)
Definition listed_tag_names (tags : list N) : list (list N) :=
  List.filter (fun t => negb (includes t js:"^{}"))
    (omap (strip_prefix js:"refs/tags/") (listed_refs tags)).

(** ** Branch Normalizer *)

Definition main_branch : list N := js:"main".

(** [a || b] on option fields. *)
Definition js_or (a b : jsval) : jsval := if truthy a then a else b.

(** The loop of [createMainBranchFromCurrent]: a strategy that returns ends
    the loop; one that throws is skipped, except the last, whose error is
    thrown again. *)
Fixpoint run_strategies (strategies : list (M unit)) : M unit :=
  match strategies with
  | [] => ret tt
  | strategy :: rest =>
      match rest with
      | [] => strategy
      | _ :: _ => try_catch strategy (fun _ => run_strategies rest)
      end
  end.

Definition strategy_switch (h : host) : M unit :=
  execSync h (SwitchCreate main_branch) ;; ret tt.

Definition strategy_checkout (h : host) : M unit :=
  execSync h (CheckoutCreate main_branch) ;; ret tt.

Definition strategy_manual (h : host) : M unit :=
  let* out := execSync h RevParseHEAD in
  let currentCommit := trim out in
  execSync h (Branch main_branch currentCommit) ;;
  execSync h (CheckoutBranch main_branch) ;;
  ret tt.

Definition createMainBranchFromCurrent (h : host) : M unit :=
  run_strategies [strategy_switch h; strategy_checkout h; strategy_manual h].

(** The body of the [try] block of [ensureMainBranchFromCurrentState]. *)
Definition ensureMainBranch_body (h : host) (target : jsval) (targetType : list N) : M unit :=
  let* out := execSync h SymbolicRefShortHEAD in
  let currentBranch := trim out in
  (if eqb currentBranch [] then
     console Log (CreatingMainFromCurrentState (to_string (js_or target (Str js:"latest")))) ;;
     createMainBranchFromCurrent h
   else if negb (eqb currentBranch main_branch) then
     console Log (CreatingMainFrom targetType (to_string (js_or target (Str js:"latest")))) ;;
     try_catch
       (execSync h (CheckoutCreate main_branch) ;; ret tt)
       (fun _ =>
          let* out := execSync h RevParseHEAD in
          let currentCommit := trim out in
          execSync h (BranchForce main_branch currentCommit) ;;
          execSync h (CheckoutBranch main_branch) ;;
          ret tt)
   else ret tt) ;;
  console Log MainBranchSetupComplete.

Definition ensureMainBranchFromCurrentState (h : host) (target : jsval) (targetType : list N) : M unit :=
  try_catch
    (ensureMainBranch_body h target targetType)
    (fun branchError =>
       console Warn (BranchSetupWarning branchError) ;;
       console Log ContinuingWithCurrentState).

(** [target] and [targetType] as [cloneRepository] computes them. *)
Definition clone_target (o : options) : jsval :=
  js_or (js_or (hash o) (tag o)) (version o).

Definition clone_targetType (o : options) : list N :=
  if truthy (hash o) then js:"commit"
  else if truthy (tag o) then js:"tag" else js:"version".

(** The end of [cloneRepository], once the clone and the checkout of the
    target have succeeded: the branch is normalised and the function
    reports success. *)
Definition cloneRepository_normalise (h : host) (o : options) : M bool :=
  ensureMainBranchFromCurrentState h (clone_target o) (clone_targetType o) ;;
  ret true.

(** ** Remote Topology Configurator: [setupGitRepository] *)

Definition origin : list N := js:"origin".
Definition upstream : list N := js:"upstream".

(** [s.toLowerCase() === "y"]. *)
Definition lower_is_y (s : list N) : bool := eqb s js:"y" || eqb s js:"Y".

(** The remote that the clone left pointing at the template is renamed;
    when that fails it is removed and added again under the new name.
    ([process.chdir] into the clone, which opens [setupGitRepository], is
    left out: the directory exists once the clone has succeeded.) *)
Definition configure_upstream (h : host) : M unit :=
  try_catch
    (execSync h (RemoteRename origin upstream) ;;
     console Log ConfiguredUpstream)
    (fun _ =>
       try_catch
         (execSync h (RemoteRemove origin) ;;
          execSync h (RemoteAdd upstream repoUrl) ;;
          console Log SetUpUpstream)
         (fun error2 => console Log (CouldNotSetUpUpstream error2))).

(** The optional remote of the user and the optional first push. The text
    typed is pasted into the command line. *)
Definition connect_own_repository (h : host) : M unit :=
  when (lower_is_y (answer h ConnectOwnRepo))
    (let userUrl := answer h EnterRepoUrl in
     when (negb (eqb (trim userUrl) []))
       (try_catch
          (execSync_typed h (RemoteAdd origin (trim userUrl)) (trim userUrl) ;;
           console Log AddedOrigin ;;
           when (lower_is_y (answer h PushNow))
             (try_catch
                (execSync h (PushSetUpstream origin main_branch) ;;
                 console Log Pushed)
                (fun pushError =>
                   console Log (PushFailed pushError) ;;
                   console Log PushLater)))
          (fun error => console Log (CouldNotAddOrigin error)))).

Definition setupGitRepository (h : host) : M unit :=
  try_catch
    (console Log SettingUpGit ;;
     configure_upstream h ;;
     execSync h (ConfigSet js:"merge.ours.driver" js:"true") ;;
     execSync h (ConfigSet js:"pull.rebase" js:"false") ;;
     connect_own_repository h ;;
     execSync h AddAll ;;
     execSync h (Commit js:"Initialize Aether CMS project") ;;
     console Log GitConfigured)
    (fun error => console Log (GitSetupFailed error)).

(** The git steps of [installProject] after acquisition, in the order they
    run: the normaliser closes [cloneRepository], [setupGitRepository]
    closes [installProject]; the file scaffolding and the dependency
    installation between them run no command that changes the repository. *)
Definition afterAcquisition (h : host) (o : options) : M unit :=
  cloneRepository_normalise h o ;;
  setupGitRepository h.

(** ** Update-Metadata Stamper: [updatePackageJson] *)

#[local] Set Warnings "-register-all".
Inductive json :=
| JUndefined
| JNull
| JBool (b : bool)
| JNum (z : Z)
| JStr (s : list N)
| JArr (elems : list json) (named : list (list N * json))
| JObj (props : list (list N * json)).

Definition json_of (v : jsval) : json :=
  match v with
  | Undefined => JUndefined
  | Null => JNull
  | Str s => JStr s
  end.

Definition js_truthy (v : json) : bool :=
  match v with
  | JUndefined | JNull => false
  | JBool b => b
  | JNum z => negb (z =? 0)%Z
  | JStr s => negb (eqb s [])
  | JArr _ _ | JObj _ => true
  end.

Fixpoint props_get (k : list N) (ps : list (list N * json)) : json :=
  match ps with
  | [] => JUndefined
  | (k', v) :: ps' => if eqb k k' then v else props_get k ps'
  end.

(** Assignment keeps the place of a key that exists and appends a new one. *)
Fixpoint props_set (k : list N) (v : json) (ps : list (list N * json)) : list (list N * json) :=
  match ps with
  | [] => [(k, v)]
  | (k', v') :: ps' =>
      if eqb k k' then (k, v) :: ps' else (k', v') :: props_set k v ps'
  end.

(** [o.k]: throws on [null] and [undefined]; the keys read here are not
    defined on primitives or array prototypes. *)
Definition get_prop (o : json) (k : list N) : M json :=
  match o with
  | JObj ps => ret (props_get k ps)
  | JArr _ named => ret (props_get k named)
  | JUndefined | JNull => throw TypeError
  | JBool _ | JNum _ | JStr _ => ret JUndefined
  end.

(** [o.k = v] in strict mode (an ES module): throws on anything that is
    not an object. *)
Definition set_prop (o : json) (k : list N) (v : json) : M json :=
  match o with
  | JObj ps => ret (JObj (props_set k v ps))
  | JArr elems named => ret (JArr elems (props_set k v named))
  | _ => throw TypeError
  end.

Record json_codec := {
  JSON_parse : list N → option json;       (* None: SyntaxError *)
  JSON_stringify : json → list N           (* JSON.stringify(v, null, 2) *)
}.

(** [path.join(dir, name)] for a plain directory and file name. *)
Definition path_join (dir name : list N) : list N := dir ++ js:"/" ++ name.

Definition existsSync (p : list N) : M bool :=
  fun w => (Ret (bool_decide (is_Some (w_fs w !! p))), w).

Definition readFileSync (p : list N) : M (list N) :=
  fun w =>
    match w_fs w !! p with
    | Some (File content) => (Ret content, w)
    | _ => (Throw (FsError p), w)
    end.

Definition writeFileSync (p content : list N) : M unit :=
  fun w =>
    match w_fs w !! p with
    | Some Directory => (Throw (FsError p), w)
    | _ => (Ret tt, set_fs (<[p := File content]> (w_fs w)) w)
    end.

Definition parse (J : json_codec) (text : list N) : M json :=
  match JSON_parse J text with
  | Some v => ret v
  | None => throw SyntaxError
  end.

(** The [installedVersion] of [updatePackageJson]: it starts as
    ["unknown"] and keeps that value when the revision query throws. *)
Definition installedVersion_of (h : host) (o : options) : M jsval :=
  try_catch
    (if truthy (hash o) then ret (hash o)
     else if truthy (tag o) then ret (tag o)
     else if truthy (version o) && negb (is_str (version o) js:"latest") then
       ret (version o)
     else
       let* out := execSync h RevParseHEAD in
       ret (Str (substring0 7 (trim out))))
    (fun _ =>
       console Warn CouldNotDetermineVersion ;;
       ret (Str js:"unknown")).

Definition installOptions_of (o : options) : json :=
  JObj [ (js:"version", json_of (version o));
         (js:"tag", json_of (tag o));
         (js:"hash", json_of (hash o)) ].

Definition or_default (v d : json) : json := if js_truthy v then v else d.

Definition updatePackageJson (J : json_codec) (h : host)
    (targetPath projectName : list N) (o : options) : M unit :=
  let packageJsonPath := path_join targetPath js:"package.json" in
  let* present := existsSync packageJsonPath in
  when present
    (let* text := readFileSync packageJsonPath in
     let* packageJson := parse J text in
     let* installedVersion := installedVersion_of h o in
     let* templateName := get_prop packageJson js:"name" in
     let* templateVersion := get_prop packageJson js:"version" in
     let* templateRepository := get_prop packageJson js:"repository" in
     let originalTemplate :=
       JObj [ (js:"templateName", templateName);
              (js:"templateVersion", templateVersion);
              (js:"templateRepository", templateRepository);
              (js:"installedVersion", json_of installedVersion);
              (js:"installedAt", JStr (clock h));
              (js:"installedFrom", JStr js:"create-aether-cms");
              (js:"installOptions", installOptions_of o) ] in
     let* packageJson := set_prop packageJson js:"name" (JStr projectName) in
     let* packageJson := set_prop packageJson js:"version" (JStr js:"0.1.0") in
     let* packageJson := set_prop packageJson js:"private" (JBool true) in
     let* packageJson := set_prop packageJson js:"aetherCMS" originalTemplate in
     let* scripts := get_prop packageJson js:"scripts" in
     let* packageJson := set_prop packageJson js:"scripts" (or_default scripts (JObj [])) in
     let* scripts := get_prop packageJson js:"scripts" in
     let* start := get_prop scripts js:"start" in
     let* scripts := set_prop scripts js:"start" (or_default start (JStr js:"node index.js")) in
     let* build := get_prop scripts js:"build" in
     let* scripts := set_prop scripts js:"build"
                       (or_default build (JStr js:"node assets/js/generate-static.js --")) in
     let* scripts := set_prop scripts js:"check-updates" (JStr js:"node assets/js/check-updates.js") in
     let* scripts := set_prop scripts js:"update-aether" (JStr js:"node assets/js/update-aether.js") in
     let* packageJson := set_prop packageJson js:"scripts" scripts in
     writeFileSync packageJsonPath (JSON_stringify J packageJson) ;;
     console Log (UpdatedPackageJson (to_string installedVersion))).

(** ** What a run adds to the console and to the command trace *)

Definition emitted {A} (m : M A) (w : world) : list (level * message) :=
  drop (length (w_console w)) (w_console (snd (m w))).

Definition commands {A} (m : M A) (w : world) : list cmd :=
  drop (length (w_trace w)) (w_trace (snd (m w))).

(** Putting the pieces of a split back together. *)
Fixpoint join (sep : N) (pieces : list (list N)) : list N :=
  match pieces with
  | [] => []
  | piece :: rest =>
      match rest with
      | [] => piece
      | _ :: _ => piece ++ sep :: join sep rest
      end
  end.

(** The suggestion block of [validateTarget], as console lines. *)
Definition suggestion_lines (available : list (list N)) : list (level * message) :=
  match available with
  | [] => []
  | _ :: _ =>
      (Log, AvailableVersions)
      :: ((fun v => (Log, VersionLine v)) <$> take 10 available)
      ++ (if (10 <? length available)%nat
          then [(Log, AndMore (length available - 10))] else [])
  end.

(** What the normaliser holds in [currentBranch]: the line that
    [git symbolic-ref --short HEAD] prints, trimmed. *)
Definition reported_branch (r : repo) : list N :=
  trim (match HEAD r with
        | Attached b => short_name r b ++ nl
        | Detached _ => nl
        end).

(** The user declines a remote of their own, types no URL, or types one
    that is a single word of the command line. *)
Definition typed_url_is_word (h : host) : bool :=
  negb (lower_is_y (answer h ConnectOwnRepo))
  || eqb (trim (answer h EnterRepoUrl)) []
  || shell_word (trim (answer h EnterRepoUrl)).

(** Every run of [m] relates the working copy before to the one after. *)
Definition preserves {A} (Q : repo → repo → Prop) (m : M A) : Prop :=
  ∀ w, Q (w_repo w) (w_repo (snd (m w))).

(** [f] has the same value before and after. *)
Definition same {B} (f : repo → B) : repo → repo → Prop :=
  fun r r' => f r' = f r.

(** Commands that leave HEAD on the branch it is on (or detached). *)
Definition branch_stable (c : cmd) : bool :=
  match c with
  | SwitchCreate _ | CheckoutCreate _ | CheckoutBranch _ => false
  | _ => true
  end.

(** Commands that leave the configured remotes alone. *)
Definition remotes_stable (c : cmd) : bool :=
  match c with
  | RemoteRename _ _ | RemoteRemove _ | RemoteAdd _ _ => false
  | _ => true
  end.

(** What [setupGitRepository] does after the template remote: merge
    settings, the user's own remote, the initial commit. *)
Definition setup_rest (h : host) : M unit :=
  execSync h (ConfigSet js:"merge.ours.driver" js:"true") ;;
  execSync h (ConfigSet js:"pull.rebase" js:"false") ;;
  connect_own_repository h ;;
  execSync h AddAll ;;
  execSync h (Commit js:"Initialize Aether CMS project") ;;
  console Log GitConfigured.

(** After [setup_rest], [upstream] is as before and [origin] is as before
    or is the remote the user asked for. *)
Definition own_remote_only (h : host) : repo → repo → Prop :=
  fun r r' =>
    remotes r' !! upstream = remotes r !! upstream
    ∧ (remotes r' !! origin = remotes r !! origin
       ∨ (lower_is_y (answer h ConnectOwnRepo) = true
          ∧ remotes r' !! origin = Some (trim (answer h EnterRepoUrl)))).

(** The rename of the template remote, or its fallback, succeeds in [r]. *)
Definition upstream_configured (h : host) (r : repo) : Prop :=
  is_Some (attempt h (RemoteRename origin upstream) r)
  ∨ ∃ out r', attempt h (RemoteRemove origin) r = Some (out, r')
              ∧ is_Some (attempt h (RemoteAdd upstream repoUrl) r').

(** The manifest's [scripts] member is absent, falsy, or an object. *)
Definition scripts_ok (pkg : list (list N * json)) : bool :=
  match props_get js:"scripts" pkg with
  | JObj _ | JArr _ _ => true
  | v => negb (js_truthy v)
  end.

(** The DETACHED state as the specification words it: the three
    strategies in strict order, the first that succeeds ends the ladder,
    and when none does the failure of the last one is reported. *)
Inductive ladder_result :=
| ByAtomicSwitch (r : repo)         (* (a) git switch -c main *)
| ByLegacyCheckout (r : repo)       (* (b) git checkout -b main *)
| ByManualBranch (r : repo)         (* (c) git branch main <id>; git checkout main *)
| Exhausted (e : exn) (r : repo).   (* all three failed *)

Definition ladder (h : host) (c : list N) (r : repo) : ladder_result :=
  match attempt h (SwitchCreate main_branch) r with
  | Some (_, r1) => ByAtomicSwitch r1
  | None =>
      match attempt h (CheckoutCreate main_branch) r with
      | Some (_, r2) => ByLegacyCheckout r2
      | None =>
          match attempt h (Branch main_branch c) r with
          | Some (_, r3) =>
              match attempt h (CheckoutBranch main_branch) r3 with
              | Some (_, r4) => ByManualBranch r4
              | None => Exhausted (CommandFailed (CheckoutBranch main_branch)) r3
              end
          | None => Exhausted (CommandFailed (Branch main_branch c)) r
          end
      end
  end.

(** The commands a ladder that ended this way has run, in order. *)
Definition ladder_commands (c : list N) (res : ladder_result) : list cmd :=
  match res with
  | ByAtomicSwitch _ => [SwitchCreate main_branch]
  | ByLegacyCheckout _ => [SwitchCreate main_branch; CheckoutCreate main_branch]
  | ByManualBranch _ | Exhausted (CommandFailed (CheckoutBranch _)) _ =>
      [SwitchCreate main_branch; CheckoutCreate main_branch; RevParseHEAD;
       Branch main_branch c; CheckoutBranch main_branch]
  | Exhausted _ _ =>
      [SwitchCreate main_branch; CheckoutCreate main_branch; RevParseHEAD;
       Branch main_branch c]
  end.

Definition ladder_repo (res : ladder_result) : repo :=
  match res with
  | ByAtomicSwitch r | ByLegacyCheckout r | ByManualBranch r | Exhausted _ r => r
  end.

(** What the ladder prints after the announcement: the completion line, or
    the warning and the notice that the run continues. *)
Definition ladder_lines (res : ladder_result) : list (level * message) :=
  match res with
  | Exhausted e _ => [(Warn, BranchSetupWarning e); (Log, ContinuingWithCurrentState)]
  | _ => [(Log, MainBranchSetupComplete)]
  end.

Definition ladder_succeeded (res : ladder_result) : bool :=
  match res with
  | Exhausted _ _ => false
  | _ => true
  end.

(** ** Concrete inputs used below *)

Module Sample.

(** A machine on which every command may run, with no remote reachable
    and a user who declines the optional remote. *)
Definition plain_host : host :=
  {| can_run := fun _ _ => true;
     remote_tags := None;
     commit_id := fun _ => js:"5e1f00d5e1f00d5e1f00d5e1f00d5e1f00d5e1f0";
     clock := js:"2025-06-01T12:00:00.000Z";
     answer := fun _ => js:"n";
     stages := fun _ => true;
     run_line := fun _ _ _ => None |}.

Definition with_remote_tags (out : option (list N)) (h : host) : host :=
  {| can_run := can_run h; remote_tags := out; commit_id := commit_id h;
     clock := clock h; answer := answer h; stages := stages h;
     run_line := run_line h |}.

Definition line (oid ref : string) : list N := js:oid ++ [9] ++ js:ref ++ nl.

(** [git ls-remote --tags] of a repository with the single tag v1.0.0. *)
Definition one_tag : list N :=
  line "9f2c3d4e5f60718293a4b5c6d7e8f90a1b2c3d4e" "refs/tags/v1.0.0".

(** The same with tags v1.0.0 and v1.2.0, the second annotated. *)
Definition two_tags : list N :=
  line "9f2c3d4e5f60718293a4b5c6d7e8f90a1b2c3d4e" "refs/tags/v1.0.0"
  ++ line "0a1b2c3d4e5f60718293a4b5c6d7e8f90a1b2c3d" "refs/tags/v1.2.0"
  ++ line "77aa2c3d4e5f60718293a4b5c6d7e8f90a1b2c3d" "refs/tags/v1.2.0^{}".

Definition host_one_tag : host := with_remote_tags (Some one_tag) plain_host.
Definition host_two_tags : host := with_remote_tags (Some two_tags) plain_host.

Definition tag_rev : list N := js:"0a1b2c3d4e5f60718293a4b5c6d7e8f90a1b2c3d".

(** The tags of the template, which every clone has. *)
Definition template_tags : gmap (list N) (list N) :=
  {[ js:"v1.0.0" := js:"9f2c3d4e5f60718293a4b5c6d7e8f90a1b2c3d4e";
     js:"v1.2.0" := tag_rev ]}.

Definition fresh_clone : repo :=
  {| HEAD := Attached js:"main";
     heads := {[ js:"main" := js:"77aa2c3d4e5f60718293a4b5c6d7e8f90a1b2c3d" ]};
     tags := template_tags;
     remotes := {[ origin := repoUrl ]};
     config := ∅; staged := false |}.

(** A working copy whose refs and configuration cannot be written. *)
Definition readonly_host : host :=
  {| can_run := fun _ _ => false;
     remote_tags := Some two_tags;
     commit_id := commit_id plain_host;
     clock := clock plain_host;
     answer := answer plain_host;
     stages := stages plain_host;
     run_line := run_line plain_host |}.

(** A user who connects a repository of their own and does not push. *)
Definition connecting_host : host :=
  {| can_run := fun _ _ => true;
     remote_tags := Some two_tags;
     commit_id := commit_id plain_host;
     clock := clock plain_host;
     answer := fun p =>
       match p with
       | ConnectOwnRepo => js:"Y"
       | EnterRepoUrl => js:" git@example.org:me/my-blog.git "
       | PushNow => js:"n"
       end;
     stages := stages plain_host;
     run_line := run_line plain_host |}.

(** A git without [switch]. *)
Definition old_git_host : host :=
  {| can_run := fun c _ => match c with SwitchCreate _ => false | _ => true end;
     remote_tags := Some two_tags;
     commit_id := commit_id plain_host;
     clock := clock plain_host;
     answer := answer plain_host;
     stages := stages plain_host;
     run_line := run_line plain_host |}.

(** After [git checkout v1.2.0] in a fresh clone: detached, the local
    [main] of the clone still there. *)
Definition detached_at_tag : repo :=
  {| HEAD := Detached tag_rev;
     heads := heads fresh_clone;
     tags := template_tags;
     remotes := remotes fresh_clone;
     config := ∅; staged := false |}.

(** Detached, in a clone whose default branch is [trunk]. *)
Definition detached_no_main : repo :=
  {| HEAD := Detached tag_rev;
     heads := {[ js:"trunk" := js:"77aa2c3d4e5f60718293a4b5c6d7e8f90a1b2c3d" ]};
     tags := template_tags;
     remotes := {[ origin := repoUrl ]};
     config := ∅; staged := false |}.

(** On the default branch [trunk], with a stale local [main]. *)
Definition on_trunk : repo :=
  {| HEAD := Attached js:"trunk";
     heads := {[ js:"trunk" := tag_rev;
                 js:"main" := js:"77aa2c3d4e5f60718293a4b5c6d7e8f90a1b2c3d" ]};
     tags := template_tags;
     remotes := {[ origin := repoUrl ]};
     config := ∅; staged := false |}.

(** A fresh clone of a template that also carries a tag named [main]. *)
Definition main_with_tag_main : repo :=
  {| HEAD := Attached js:"main";
     heads := heads fresh_clone;
     tags := <[js:"main" := tag_rev]> template_tags;
     remotes := remotes fresh_clone;
     config := ∅; staged := false |}.

(** A working copy on main from which the remote was removed. *)
Definition without_remote : repo :=
  {| HEAD := Attached js:"main";
     heads := heads fresh_clone;
     tags := template_tags;
     remotes := ∅;
     config := ∅; staged := false |}.

(** A branch name that git accepts: [main] followed by a no-break space
    (U+00A0). *)
Definition main_nbsp : list N := js:"main" ++ [160].

(** A fresh clone of a template whose default branch has that name. *)
Definition on_main_nbsp : repo :=
  {| HEAD := Attached main_nbsp;
     heads := {[ main_nbsp := js:"77aa2c3d4e5f60718293a4b5c6d7e8f90a1b2c3d" ]};
     tags := template_tags;
     remotes := {[ origin := repoUrl ]};
     config := ∅; staged := false |}.

(** A machine without network: the push fails. The user asks for a remote
    of their own and for the first push. *)
Definition offline_host : host :=
  {| can_run := fun c _ => match c with PushSetUpstream _ _ => false | _ => true end;
     remote_tags := None;
     commit_id := commit_id plain_host;
     clock := clock plain_host;
     answer := fun p =>
       match p with
       | ConnectOwnRepo => js:"y"
       | EnterRepoUrl => js:"https://example.org/me/my-blog.git"
       | PushNow => js:"y"
       end;
     stages := stages plain_host;
     run_line := run_line plain_host |}.

Definition world_of (r : repo) : world :=
  {| w_repo := r; w_fs := ∅; w_console := []; w_trace := [] |}.

(** A manifest as the template ships it, and a codec that reads it. *)
Definition project_dir : list N := js:"/home/me/my-blog".

(** A user who types [x; touch INJECTED] at the URL prompt: the shell
    adds the remote [x], then creates the file. *)
Definition pasting_host : host :=
  {| can_run := fun _ _ => true;
     remote_tags := None;
     commit_id := commit_id plain_host;
     clock := clock plain_host;
     answer := fun p =>
       match p with
       | ConnectOwnRepo => js:"y"
       | EnterRepoUrl => js:"x; touch INJECTED"
       | PushNow => js:"n"
       end;
     stages := stages plain_host;
     run_line := fun _ r fs =>
       Some ([],
             match git_run plain_host (RemoteAdd origin js:"x") r with
             | Some (_, r') => r'
             | None => r
             end,
             <[path_join project_dir js:"INJECTED" := File []]> fs) |}.

Definition manifest_text : list N :=
  js:"{ name: aether-cms, version: 1.0.0, scripts: { start: node index.js } }".

Definition manifest_object : list (list N * json) :=
  [ (js:"name", JStr js:"aether-cms");
    (js:"version", JStr js:"1.0.0");
    (js:"scripts", JObj [ (js:"start", JStr js:"node index.js") ]) ].

(** The notation of [manifest_text]: every member with its value, in
    order, no quotes; as in [JSON.stringify], a member that is [undefined]
    is left out and an element that is [undefined] reads [null]. *)
Fixpoint commas (pieces : list (list N)) : list N :=
  match pieces with
  | [] => []
  | [piece] => piece
  | piece :: rest => piece ++ js:", " ++ commas rest
  end.

Fixpoint render (v : json) : list N :=
  match v with
  | JUndefined | JNull => js:"null"
  | JBool b => if b then js:"true" else js:"false"
  | JNum z => lit (NilZero.string_of_int (Z.to_int z))
  | JStr s => s
  | JArr elems _ =>
      js:"[ "
      ++ commas ((fix go (l : list json) : list (list N) :=
                    match l with
                    | [] => []
                    | x :: l' => render x :: go l'
                    end) elems)
      ++ js:" ]"
  | JObj props =>
      js:"{ "
      ++ commas ((fix go (l : list (list N * json)) : list (list N) :=
                    match l with
                    | [] => []
                    | (_, JUndefined) :: l' => go l'
                    | (k, x) :: l' => (k ++ js:": " ++ render x) :: go l'
                    end) props)
      ++ js:" }"
  end.

Definition codec : json_codec :=
  {| JSON_parse := fun text =>
       if eqb text manifest_text then Some (JObj manifest_object) else None;
     JSON_stringify := render |}.

Definition world_with_manifest (r : repo) : world :=
  {| w_repo := r;
     w_fs := {[ path_join project_dir js:"package.json" := File manifest_text ]};
     w_console := []; w_trace := [] |}.

Definition no_selector : options :=
  {| projectName := Str js:"my-blog"; version := Str js:"latest";
     tag := Null; hash := Null; help := false |}.

Definition with_tag (t : string) : options :=
  {| projectName := Str js:"my-blog"; version := Str js:"latest";
     tag := Str js:t; hash := Null; help := false |}.

End Sample.

(** * Further functions of the installer *)

(** ** Argument parsing: [parseArguments] *)

Definition default_options : options :=
  {| projectName := Null; version := Str js:"latest"; tag := Null; hash := Null;
     help := false |}.

Definition set_projectName (v : jsval) (o : options) : options :=
  {| projectName := v; version := version o; tag := tag o; hash := hash o;
     help := help o |}.
Definition set_version (v : jsval) (o : options) : options :=
  {| projectName := projectName o; version := v; tag := tag o; hash := hash o;
     help := help o |}.
Definition set_tag (v : jsval) (o : options) : options :=
  {| projectName := projectName o; version := version o; tag := v; hash := hash o;
     help := help o |}.
Definition set_hash (v : jsval) (o : options) : options :=
  {| projectName := projectName o; version := version o; tag := tag o; hash := v;
     help := help o |}.
Definition set_help (b : bool) (o : options) : options :=
  {| projectName := projectName o; version := version o; tag := tag o; hash := hash o;
     help := b |}.

(** [args[i]]: a string, or [undefined] past the end. *)
Definition arg_at (args : list (list N)) (i : nat) : jsval :=
  match args !! i with
  | Some s => Str s
  | None => Undefined
  end.

Definition is_help_flag (arg : list N) : bool :=
  eqb arg js:"--help" || eqb arg js:"-h".
Definition is_version_flag (arg : list N) : bool :=
  eqb arg js:"--version" || eqb arg js:"-v".
Definition is_tag_flag (arg : list N) : bool :=
  eqb arg js:"--tag" || eqb arg js:"-t".
Definition is_hash_flag (arg : list N) : bool :=
  eqb arg js:"--hash" || eqb arg js:"--commit".

(** The [for] loop of [parseArguments], from index [i]: a flag that takes a
    value reads [args[++i]], and the loop's own [i++] follows. [fuel] bounds
    the number of iterations. *)
Fixpoint parse_from (fuel : nat) (args : list (list N)) (i : nat) (o : options)
    : options :=
  match fuel with
  | O => o
  | S fuel' =>
      match args !! i with
      | None => o
      | Some arg =>
          if is_help_flag arg then
            parse_from fuel' args (S i) (set_help true o)
          else if is_version_flag arg then
            parse_from fuel' args (S (S i)) (set_version (arg_at args (S i)) o)
          else if is_tag_flag arg then
            parse_from fuel' args (S (S i)) (set_tag (arg_at args (S i)) o)
          else if is_hash_flag arg then
            parse_from fuel' args (S (S i)) (set_hash (arg_at args (S i)) o)
          else if negb (truthy (projectName o)) then
            parse_from fuel' args (S i) (set_projectName (Str arg) o)
          else
            parse_from fuel' args (S i) o
      end
  end.

(** [parseArguments], on [process.argv.slice(2)]. Every iteration advances
    [i], so [args.length] iterations are enough. *)
Definition parseArguments (args : list (list N)) : options :=
  parse_from (length args) args 0 default_options.

(** The command line read from left to right, an argument or a flag and
    its value at a time. *)
Fixpoint scan (args : list (list N)) (o : options) : options :=
  match args with
  | [] => o
  | arg :: rest =>
      if is_help_flag arg then scan rest (set_help true o)
      else if is_version_flag arg then
        match rest with
        | [] => set_version Undefined o
        | v :: rest' => scan rest' (set_version (Str v) o)
        end
      else if is_tag_flag arg then
        match rest with
        | [] => set_tag Undefined o
        | v :: rest' => scan rest' (set_tag (Str v) o)
        end
      else if is_hash_flag arg then
        match rest with
        | [] => set_hash Undefined o
        | v :: rest' => scan rest' (set_hash (Str v) o)
        end
      else if negb (truthy (projectName o)) then scan rest (set_projectName (Str arg) o)
      else scan rest o
  end.

Definition takes_value (arg : list N) : bool :=
  is_version_flag arg || is_tag_flag arg || is_hash_flag arg.

(** No flag of [args] is still waiting for its value at the end. *)
Fixpoint complete (args : list (list N)) : bool :=
  match args with
  | [] => true
  | arg :: rest =>
      if is_help_flag arg then complete rest
      else if takes_value arg then
        match rest with
        | [] => false
        | _ :: rest' => complete rest'
        end
      else complete rest
  end.

(** ** Project names: [validateProjectName]

    [/^[a-z0-9-_]+$/i]: one or more ASCII letters of either case, digits,
    hyphens and underscores, and nothing else. *)
Definition name_char (c : N) : bool :=
  ((97 <=? c) && (c <=? 122)) || ((65 <=? c) && (c <=? 90))
  || ((48 <=? c) && (c <=? 57)) || (c =? 45) || (c =? 95).

Definition validateProjectName (projectName : list N) : bool :=
  match projectName with
  | [] => false
  | _ :: _ => forallb name_char projectName
  end.

(** ** Frames: what a run leaves as it was *)

(** No run of [m] changes a file. *)
Definition keeps_files {A} (m : M A) : Prop :=
  ∀ w, w_fs (snd (m w)) = w_fs w.

(** The commands of the Branch Normalizer: queries, and commands that
    create, move or check out the branch main. *)
Definition touches_main_only (c : cmd) : bool :=
  match c with
  | SymbolicRefShortHEAD | RevParseHEAD => true
  | SwitchCreate b | CheckoutCreate b | CheckoutBranch b
  | Branch b _ | BranchForce b _ => eqb b main_branch
  | _ => false
  end.

(** Remotes, settings and every branch other than main are as before. *)
Definition only_main_moves : repo → repo → Prop :=
  fun r r' =>
    remotes r' = remotes r ∧ config r' = config r
    ∧ ∀ b, b ≠ main_branch → heads r' !! b = heads r !! b.

(** The commands of [setupGitRepository]. *)
Definition setup_cmd (c : cmd) : bool :=
  match c with
  | RemoteRename _ _ | RemoteRemove _ | RemoteAdd _ _ | ConfigSet _ _
  | PushSetUpstream _ _ | AddAll | Commit _ => true
  | _ => false
  end.

(** HEAD is where it was, and so is every branch that is not checked
    out. *)
Definition only_current_branch_moves : repo → repo → Prop :=
  fun r r' =>
    current_branch r' = current_branch r
    ∧ ∀ b, current_branch r ≠ Some b → heads r' !! b = heads r !! b.

(** The commands of [setupGitRepository] that work on the working copy
    alone: they need no remote and no answer from the user. *)
Definition setup_local (c : cmd) : bool :=
  match c with
  | ConfigSet _ _ | AddAll | Commit _ => true
  | _ => false
  end.

(** The two merge settings [setupGitRepository] stores. *)
Definition merge_settings (r : repo) : option (list N) * option (list N) :=
  (config r !! js:"merge.ours.driver", config r !! js:"pull.rebase").

(** ** The manifest after [updatePackageJson] *)

(** The named members of a value that has some. *)
Definition members (v : json) : list (list N * json) :=
  match v with
  | JObj ps => ps
  | JArr _ named => named
  | _ => []
  end.

Definition with_members (v : json) (ps : list (list N * json)) : json :=
  match v with
  | JArr elems _ => JArr elems ps
  | _ => JObj ps
  end.

(** The four assignments to [packageJson.scripts]. *)
Definition stamped_scripts (ps : list (list N * json)) : list (list N * json) :=
  let ps := props_set js:"start"
              (or_default (props_get js:"start" ps) (JStr js:"node index.js")) ps in
  let ps := props_set js:"build"
              (or_default (props_get js:"build" ps)
                 (JStr js:"node assets/js/generate-static.js --")) ps in
  let ps := props_set js:"check-updates" (JStr js:"node assets/js/check-updates.js") ps in
  props_set js:"update-aether" (JStr js:"node assets/js/update-aether.js") ps.

(** The [originalTemplate] object. *)
Definition originalTemplate_of (h : host) (o : options)
    (pkg : list (list N * json)) (installedVersion : jsval) : json :=
  JObj [ (js:"templateName", props_get js:"name" pkg);
         (js:"templateVersion", props_get js:"version" pkg);
         (js:"templateRepository", props_get js:"repository" pkg);
         (js:"installedVersion", json_of installedVersion);
         (js:"installedAt", JStr (clock h));
         (js:"installedFrom", JStr js:"create-aether-cms");
         (js:"installOptions", installOptions_of o) ].

(** All the assignments to [packageJson], in the order of the source. *)
Definition stamped_manifest (projectName : list N) (originalTemplate : json)
    (pkg : list (list N * json)) : list (list N * json) :=
  let pkg := props_set js:"name" (JStr projectName) pkg in
  let pkg := props_set js:"version" (JStr js:"0.1.0") pkg in
  let pkg := props_set js:"private" (JBool true) pkg in
  let pkg := props_set js:"aetherCMS" originalTemplate pkg in
  let scripts := or_default (props_get js:"scripts" pkg) (JObj []) in
  let pkg := props_set js:"scripts" scripts pkg in
  props_set js:"scripts" (with_members scripts (stamped_scripts (members scripts))) pkg.

(** A step that reads: it does not end the process and leaves the working
    copy and the files as they are. *)
Definition quiet {A} (m : M A) : Prop :=
  ∀ w, (∀ n, fst (m w) ≠ Exit n)
       ∧ w_repo (snd (m w)) = w_repo w
       ∧ w_fs (snd (m w)) = w_fs w.

(** A run that writes at most the file [p], and writes nothing when it
    does not return. *)
Definition writes_only_on_success {A} (p : list N) (m : M A) : Prop :=
  ∀ w, (∀ n, fst (m w) ≠ Exit n)
       ∧ w_repo (snd (m w)) = w_repo w
       ∧ (∀ k, k ≠ p → w_fs (snd (m w)) !! k = w_fs w !! k)
       ∧ ((∀ a, fst (m w) ≠ Ret a) → w_fs (snd (m w)) = w_fs w).

(** ** The target as [cloneRepository] sees it

    The checkout of the target runs under [target && target !== "latest"]. *)
Definition clone_checks_out (o : options) : bool :=
  truthy (clone_target o) && negb (is_str (clone_target o) js:"latest").

(** ** The Node.js version check: [checkNodeVersion]

    [parseInt(s, 10)]: leading white space is skipped, one sign is taken,
    then the longest run of decimal digits is read; [None] stands for NaN,
    the result when no digit is there. The value is kept exact: the
    rounding of a long numeral to a double does not change how it compares
    with 18. *)
Definition is_digit (c : N) : bool := (48 <=? c) && (c <=? 57).

Fixpoint digits_value (acc : Z) (s : list N) : Z :=
  match s with
  | [] => acc
  | c :: s' =>
      if is_digit c then digits_value (10 * acc + Z.of_N (c - 48))%Z s' else acc
  end.

Definition parseInt10 (s : list N) : option Z :=
  let s := trimStart s in
  let sign : Z := match s with
                  | c :: _ => if c =? 45 then (-1)%Z else 1%Z
                  | [] => 1%Z
                  end in
  let s := match s with
           | c :: r => if (c =? 45) || (c =? 43) then r else s
           | [] => []
           end in
  match s with
  | c :: _ => if is_digit c then Some (sign * digits_value 0 s)%Z else None
  | [] => None
  end.

(** [Some code]: the process ends with that status; [None]: the function
    returns. A comparison with NaN is false. *)
Definition checkNodeVersion (currentVersion : list N) : option nat :=
  match parseInt10 (hd [] (split_on 46 currentVersion)) with
  | Some majorVersion => if (majorVersion <? 18)%Z then Some 1%nat else None
  | None => None
  end.

(** The number a decimal numeral denotes. *)
Definition decimal_value (s : list N) : Z :=
  fold_left (fun acc c => (10 * acc + (Z.of_N c - 48))%Z) s 0%Z.


(** * The installation as a whole

    [main], [installProject], [cloneRepository] and the scaffolding
    functions run three more command lines and print lines of their own.
    Their state adds, to the world of the functions above, the lines
    printed here and the command lines run here. *)

Inductive shell :=
| GitClone (url path : list N)      (* git clone <url> <path> *)
| GitCheckout (target : list N)     (* git -c advice.detachedHead=false checkout <target> *)
| NpmInstall.                       (* npm install *)

(** What a [catch] of these functions can receive. *)
Inductive failure :=
| Caught (e : exn)                  (* thrown by one of the functions above *)
| ShellFailed (c : shell).          (* execSync: non-zero exit status *)

Inductive notice :=
(* main *)
| HelpText                                   (* the text of showHelp *)
| SpecifyProjectName                         (* Please specify the project name *)
| UsageLine                                  (* Usage: npx create-aether-cms my-cms-site *)
| InvalidProjectName                         (* Invalid project name. Use only ... *)
| InstallationCompleted                      (* Installation completed successfully! *)
| InstallationFailed (e : failure)           (* Installation failed: <message> *)
(* installProject *)
| DirectoryExists (projectName : list N)     (* The directory <name> already exists. *)
| CreatingProject (projectName : list N)     (* Creating a new Aether CMS project in <name>... *)
| TargetLine (targetType target : list N)    (* Target: <type> = <target> *)
| SuccessMessage (projectName targetPath : list N)   (* getSuccessMessage *)
(* cloneRepository *)
| CloningRepository                          (* Cloning Aether CMS repository... *)
| SwitchingTo (targetType target : list N)   (* Switching to <type> <target>... *)
| FailedToClone (e : failure)                (* Failed to clone repository: <message> *)
(* the scaffolding *)
| CreatedEnvFile
| UpdatedPackageLock
| CouldNotUpdatePackageLock (e : failure)
| WillBeRegenerated
| CreatedGitAttributes
| CreatedContentStructure
| CreatingUpdateScripts
| ScriptsMayHaveIssues
| ScriptsValidated
| FailedToCreateScripts (e : failure)
| CreateManuallyLater
| InstallingDependencies.

Record session := {
  s_world : world;
  s_notes : list (level * notice);
  s_shell : list shell
}.

Inductive result (A : Type) :=
| Done (a : A)
| Failed (e : failure)
| Ended (code : nat).
Arguments Done {A} a.
Arguments Failed {A} e.
Arguments Ended {A} code.

Definition Task (A : Type) : Type := session → result A * session.

Definition sret {A} (a : A) : Task A := fun s => (Done a, s).
Definition sexit {A} (code : nat) : Task A := fun s => (Ended code, s).

Definition sbind {A B} (m : Task A) (k : A → Task B) : Task B :=
  fun s =>
    match m s with
    | (Done a, s') => k a s'
    | (Failed e, s') => (Failed e, s')
    | (Ended n, s') => (Ended n, s')
    end.

Definition stry {A} (m : Task A) (h : failure → Task A) : Task A :=
  fun s =>
    match m s with
    | (Failed e, s') => h e s'
    | r => r
    end.

Notation "'let+' x ':=' m 'in' k" := (sbind m (fun x => k))
  (at level 10, x name, m at level 100, k at level 200).
Notation "m ';;+' k" := (sbind m (fun _ => k))
  (at level 100, k at level 200, right associativity).

Definition swhen (b : bool) (m : Task unit) : Task unit := if b then m else sret tt.

Definition with_world (w : world) (s : session) : session :=
  {| s_world := w; s_notes := s_notes s; s_shell := s_shell s |}.
Definition noted (l : level) (n : notice) (s : session) : session :=
  {| s_world := s_world s; s_notes := s_notes s ++ [(l, n)]; s_shell := s_shell s |}.
Definition shelled (c : shell) (s : session) : session :=
  {| s_world := s_world s; s_notes := s_notes s; s_shell := s_shell s ++ [c] |}.

Definition note (l : level) (n : notice) : Task unit :=
  fun s => (Done tt, noted l n s).

(** A function of the first part, run on the world of the session. *)
Definition lift {A} (m : M A) : Task A :=
  fun s =>
    match m (s_world s) with
    | (Ret a, w) => (Done a, with_world w s)
    | (Throw e, w) => (Failed (Caught e), with_world w s)
    | (Exit n, w) => (Ended n, with_world w s)
    end.

(** What the machine contributes here: the user and git as above, the
    current directory, and the effect of the three command lines, which
    reach the network and the package registry. *)
Record machine := {
  m_host : host;
  resolve : list N → list N;                  (* path.resolve(process.cwd(), name) *)
  run_shell : shell → world → option world;   (* None: non-zero exit status *)
  created_at : list N                         (* new Date().toISOString() in createDefaultContent *)
}.

Definition shellSync (E : machine) (c : shell) : Task unit :=
  fun s =>
    match run_shell E c (s_world s) with
    | Some w => (Done tt, with_world w (shelled c s))
    | None => (Failed (ShellFailed c), shelled c s)
    end.

(** The two functions imported from [./update-scripts.js], which is not
    among the sources at hand: any two functions of this type. *)
Record update_scripts := {
  createUpdateScripts : list N → Task unit;
  validateGeneratedScripts : list N → Task bool
}.

(** ** [cloneRepository]

    ([process.chdir] into the clone is left out, as in
    [setupGitRepository].) *)
Definition cloneRepository (E : machine) (targetPath : list N) (o : options) : Task bool :=
  stry
    (note Log CloningRepository ;;+
     shellSync E (GitClone repoUrl targetPath) ;;+
     let target := clone_target o in
     let targetType := clone_targetType o in
     swhen (clone_checks_out o)
       (note Log (SwitchingTo targetType (to_string target)) ;;+
        shellSync E (GitCheckout (to_string target))) ;;+
     lift (ensureMainBranchFromCurrentState (m_host E) target targetType) ;;+
     sret true)
    (fun error =>
       note Error (FailedToClone error) ;;+
       sret false).

(** ** The scaffolding *)

Definition envContent : list N := js:"PORT=8080" ++ nl ++ js:"NODE_ENV=development".

Definition createEnvFile (targetPath : list N) : Task unit :=
  lift (writeFileSync (path_join targetPath js:".env") envContent) ;;+
  note Log CreatedEnvFile.

(** The statements of the [try] block of [updatePackageLockJson], up to
    the write. The root package object is changed in place, so it is put
    back where it was read. *)
Definition updatePackageLock_body (J : json_codec) (packageLockPath projectName : list N)
    : M unit :=
  let* text := readFileSync packageLockPath in
  let* packageLock := parse J text in
  let* packageLock := set_prop packageLock js:"name" (JStr projectName) in
  let* packageLock := set_prop packageLock js:"version" (JStr js:"0.1.0") in
  let* packages := get_prop packageLock js:"packages" in
  let* packageLock :=
    if js_truthy packages then
      let* root := get_prop packages [] in
      if js_truthy root then
        let* root := set_prop root js:"name" (JStr projectName) in
        let* root := set_prop root js:"version" (JStr js:"0.1.0") in
        let* packages := set_prop packages [] root in
        set_prop packageLock js:"packages" packages
      else ret packageLock
    else ret packageLock in
  writeFileSync packageLockPath (JSON_stringify J packageLock).

Definition updatePackageLockJson (J : json_codec) (targetPath projectName : list N)
    : Task unit :=
  let packageLockPath := path_join targetPath js:"package-lock.json" in
  let+ present := lift (existsSync packageLockPath) in
  swhen present
    (stry
       (lift (updatePackageLock_body J packageLockPath projectName) ;;+
        note Log UpdatedPackageLock)
       (fun error =>
          note Warn (CouldNotUpdatePackageLock error) ;;+
          note Log WillBeRegenerated)).

Definition gitAttributesContent : list N :=
  join 10
    [ js:"# Aether CMS - Prevent merge conflicts on user-specific files";
      js:"package.json merge=ours";
      js:"package-lock.json merge=ours";
      js:".env merge=ours";
      js:"content/data/settings.json merge=ours";
      js:".gitignore merge=ours";
      [];
      js:"# Handle binary files";
      js:"*.png binary";
      js:"*.jpg binary";
      js:"*.jpeg binary";
      js:"*.gif binary";
      js:"*.ico binary";
      js:"*.pdf binary";
      js:"*.zip binary";
      [] ].

Definition createGitAttributes (targetPath : list N) : Task unit :=
  lift (writeFileSync (path_join targetPath js:".gitattributes") gitAttributesContent) ;;+
  note Log CreatedGitAttributes.

(** The directories from [base] down to [base/rel], the nearest first. *)
Fixpoint leading_parts {A} (l : list A) : list (list A) :=
  match l with
  | [] => []
  | x :: l' => [x] :: (cons x <$> leading_parts l')
  end.

Definition dirs_down (base rel : list N) : list (list N) :=
  (fun parts => path_join base (join 47 parts)) <$> leading_parts (split_on 47 rel).

(** [fs.mkdirSync(path.join(base, rel), { recursive: true })]: the missing
    directories on the way down are created; a file on the way makes it
    throw. *)
Definition mkdirSync_recursive (base rel : list N) : M unit :=
  fun w =>
    let dirs := dirs_down base rel in
    if existsb (fun d => match w_fs w !! d with Some (File _) => true | _ => false end) dirs
    then (Throw (FsError (path_join base rel)), w)
    else (Ret tt,
          set_fs (foldr (fun d fs => match fs !! d with
                                     | None => <[d := Directory]> fs
                                     | Some _ => fs
                                     end) (w_fs w) dirs) w).

Definition contentDirs : list (list N) :=
  [ js:"content/data"; js:"content/themes"; js:"content/uploads/images";
    js:"content/uploads/documents"; js:"content/cache/marketplace" ].

Definition settingsContent (createdAt : list N) : json :=
  JObj [ (js:"siteTitle", JStr js:"My Aether Site");
         (js:"siteDescription", JStr js:"A site built with Aether CMS");
         (js:"postsPerPage", JNum 10);
         (js:"activeTheme", JStr js:"default");
         (js:"footerCode", JStr js:"Content in Motion. Powered by Aether.");
         (js:"updateSettings",
          JObj [ (js:"autoCheck", JBool true);
                 (js:"checkInterval", JNum 14400000);
                 (js:"notifyAdmin", JBool true);
                 (js:"updateChannel", JStr js:"stable");
                 (js:"lastChecked", JNull);
                 (js:"conflictResolution", JStr js:"preserve-user-settings") ]);
         (js:"userCustomizations",
          JObj [ (js:"createdAt", JStr createdAt);
                 (js:"preserveOnUpdate", JBool true) ]) ].

Definition createDefaultContent (J : json_codec) (E : machine) (targetPath : list N)
    : Task unit :=
  lift (forEach contentDirs
          (fun dir =>
             let dirPath := path_join targetPath dir in
             let* present := existsSync dirPath in
             when (negb present) (mkdirSync_recursive targetPath dir))) ;;+
  let settingsFile := path_join targetPath js:"content/data/settings.json" in
  let+ present := lift (existsSync settingsFile) in
  swhen (negb present)
    (lift (writeFileSync settingsFile
             (JSON_stringify J (settingsContent (created_at E))))) ;;+
  note Log CreatedContentStructure.

Definition createProjectFiles (J : json_codec) (E : machine) (U : update_scripts)
    (targetPath : list N) (o : options) : Task unit :=
  createEnvFile targetPath ;;+
  lift (updatePackageJson J (m_host E) targetPath (to_string (projectName o)) o) ;;+
  updatePackageLockJson J targetPath (to_string (projectName o)) ;;+
  createGitAttributes targetPath ;;+
  createDefaultContent J E targetPath ;;+
  stry
    (note Log CreatingUpdateScripts ;;+
     createUpdateScripts U targetPath ;;+
     let+ valid := validateGeneratedScripts U targetPath in
     if negb valid then note Warn ScriptsMayHaveIssues
     else note Log ScriptsValidated)
    (fun scriptError =>
       note Error (FailedToCreateScripts scriptError) ;;+
       note Log CreateManuallyLater).

Definition installDependencies (E : machine) (targetPath : list N) : Task unit :=
  note Log InstallingDependencies ;;+
  shellSync E NpmInstall.

(** ** [installProject]

    The options it receives are those of the command line together with
    the resolved target. *)
Definition installProject (J : json_codec) (E : machine) (U : update_scripts)
    (o : options) (info : targetInfo) : Task unit :=
  let projectName := to_string (projectName o) in
  let targetPath := resolve E projectName in
  let+ present := lift (existsSync targetPath) in
  swhen present
    (note Error (DirectoryExists projectName) ;;+
     sexit 1) ;;+
  note Log (CreatingProject projectName) ;;+
  swhen (negb (is_str (target info) js:"latest"))
    (note Log (TargetLine (targetType info) (to_string (target info)))) ;;+
  let+ cloneSuccess := cloneRepository E targetPath o in
  swhen (negb cloneSuccess) (sexit 1) ;;+
  createProjectFiles J E U targetPath o ;;+
  installDependencies E targetPath ;;+
  lift (setupGitRepository (m_host E)) ;;+
  note Log (SuccessMessage projectName targetPath).

(** ** [main]

    ([rl.close()] in the [finally] block is left out: it touches nothing
    that is modelled, and [process.exit] does not run it.) *)
Definition main (J : json_codec) (E : machine) (U : update_scripts)
    (args : list (list N)) : Task unit :=
  stry
    (let options := parseArguments args in
     swhen (help options)
       (note Log HelpText ;;+
        sexit 0) ;;+
     swhen (negb (truthy (projectName options)))
       (note Error SpecifyProjectName ;;+
        note Log UsageLine ;;+
        sexit 1) ;;+
     swhen (negb (validateProjectName (to_string (projectName options))))
       (note Error InvalidProjectName ;;+
        sexit 1) ;;+
     let+ targetInfo := lift (main_target_gate (m_host E) options) in
     installProject J E U options targetInfo ;;+
     note Log InstallationCompleted)
    (fun error =>
       note Error (InstallationFailed error) ;;+
       sexit 1).

(** ** Further concrete inputs *)

Module Inputs.

(** A clone of a repository without commits: HEAD is on main, and main
    does not exist yet. *)
Definition unborn : repo :=
  {| HEAD := Attached js:"main"; heads := ∅; tags := ∅;
     remotes := {[ origin := repoUrl ]}; config := ∅; staged := false |}.

Definition unborn_with_manifest : world :=
  {| w_repo := unborn;
     w_fs := {[ path_join Sample.project_dir js:"package.json"
                  := File Sample.manifest_text ]};
     w_console := []; w_trace := [] |}.

(** What [git clone] leaves at [path]: the directory, the manifest of the
    template, and a working copy on main. *)
Definition cloned_at (path : list N) (w : world) : world :=
  {| w_repo := Sample.fresh_clone;
     w_fs := <[path := Directory]>
               (<[path_join path js:"package.json" := File Sample.manifest_text]>
                  (w_fs w));
     w_console := w_console w; w_trace := w_trace w |}.

(** A machine in [/home/me], where the template has the single tag
    v1.2.0 and the registry answers. *)
Definition laptop : machine :=
  {| m_host := Sample.plain_host;
     resolve := fun name => js:"/home/me/" ++ name;
     run_shell := fun c w =>
       match c with
       | GitClone _ path => Some (cloned_at path w)
       | GitCheckout t =>
           if eqb t js:"v1.2.0" then Some (set_repo Sample.detached_at_tag w) else None
       | NpmInstall => Some w
       end;
     created_at := js:"2025-06-01T12:00:01.000Z" |}.

(** Update scripts that are written and found valid. *)
Definition scripts : update_scripts :=
  {| createUpdateScripts := fun _ => sret tt;
     validateGeneratedScripts := fun _ => sret true |}.

Definition start : session :=
  {| s_world := Sample.world_of unborn; s_notes := []; s_shell := [] |}.

(** A lock file with a root package, and a codec that reads it. *)
Definition lock_text : list N := js:"{ name: aether-cms, packages: { : { name: aether-cms } } }".

Definition lock_root : list (list N * json) := [ (js:"name", JStr js:"aether-cms") ].
Definition lock_packages : list (list N * json) := [ ([], JObj lock_root) ].
Definition lock_object : list (list N * json) :=
  [ (js:"name", JStr js:"aether-cms"); (js:"packages", JObj lock_packages) ].

Definition lock_codec : json_codec :=
  {| JSON_parse := fun text =>
       if eqb text lock_text then Some (JObj lock_object) else None;
     JSON_stringify := JSON_stringify Sample.codec |}.

Definition with_lock : session :=
  {| s_world :=
       {| w_repo := Sample.fresh_clone;
          w_fs := {[ path_join Sample.project_dir js:"package-lock.json"
                       := File lock_text ]};
          w_console := []; w_trace := [] |};
     s_notes := []; s_shell := [] |}.

(** A clone whose manifest is not JSON. *)
Definition with_broken_manifest : session :=
  {| s_world :=
       {| w_repo := Sample.fresh_clone;
          w_fs := {[ path_join Sample.project_dir js:"package.json"
                       := File js:"<<<<<<< HEAD" ]};
          w_console := []; w_trace := [] |};
     s_notes := []; s_shell := [] |}.

(** A machine like [laptop], where the template's manifest was left with
    a conflict marker in it. *)
Definition broken_template : machine :=
  {| m_host := Sample.plain_host;
     resolve := resolve laptop;
     run_shell := fun c w =>
       match c with
       | GitClone _ path =>
           Some {| w_repo := Sample.fresh_clone;
                   w_fs := <[path := Directory]>
                             (<[path_join path js:"package.json"
                                  := File js:"<<<<<<< HEAD"]> (w_fs w));
                   w_console := w_console w; w_trace := w_trace w |}
       | _ => run_shell laptop c w
       end;
     created_at := created_at laptop |}.

End Inputs.

(** * Properties *)

(** ** Strings *)

Lemma starts_with_prefix t s : starts_with t s = true ↔ ∃ k, s = t ++ k.
Proof.
  revert s. induction t as [|a t IH]; intros s; simpl.
  - split; eauto.
  - destruct s as [|b s]; simpl.
    + split; [discriminate | intros [k Hk]; discriminate].
    + rewrite andb_true_iff, N.eqb_eq, IH. split.
      * intros [-> [k ->]]. eauto.
      * intros [k Hk]. injection Hk as -> ->. eauto.
Qed.

(** [includes s t] holds exactly when [t] occurs in [s]. *)
Lemma includes_occurs s t : includes s t = true ↔ ∃ pre post, s = pre ++ t ++ post.
Proof.
  induction s as [|c s IH];
    change (includes ?a ?b) with
      (starts_with b a || match a with [] => false | _ :: a' => includes a' b end);
    cbv beta iota.
  - rewrite orb_false_r, starts_with_prefix. split.
    + intros [k Hk]. exists [], k. done.
    + intros [pre [post H]]. destruct pre; [eauto|discriminate].
  - rewrite orb_true_iff, starts_with_prefix, IH. split.
    + intros [[k Hk] | [pre [post H]]].
      * exists [], k. done.
      * exists (c :: pre), post. by rewrite H.
    + intros [pre [post H]]. destruct pre as [|c' pre]; simpl in H.
      * left. eauto.
      * right. injection H as -> ->. eauto.
Qed.

Lemma strip_prefix_Some t s k : strip_prefix t s = Some k ↔ s = t ++ k.
Proof.
  revert s. induction t as [|a t IH]; intros s; simpl.
  - split; congruence.
  - destruct s as [|b s]; [split; discriminate|].
    destruct (N.eqb_spec a b) as [->|Hne].
    + rewrite IH. split; congruence.
    + split; [discriminate | congruence].
Qed.

Lemma eqb_true s t : eqb s t = true ↔ s = t.
Proof. unfold eqb. apply bool_decide_eq_true. Qed.

Lemma eqb_false s t : eqb s t = false ↔ s ≠ t.
Proof. unfold eqb. apply bool_decide_eq_false. Qed.

Lemma trimStart_no_ws s k : no_ws s = true → s ≠ [] → trimStart (s ++ k) = s ++ k.
Proof.
  destruct s as [|c s]; [done|]. simpl. intros H _.
  apply andb_true_iff in H as [Hc _]. by destruct (is_ws c).
Qed.

Lemma no_ws_reverse s : no_ws (reverse s) = no_ws s.
Proof.
  unfold no_ws. induction s as [|c s IH]; [done|].
  rewrite reverse_cons, forallb_app, IH. simpl. rewrite andb_true_r. apply andb_comm.
Qed.

(** Trimming the line git prints gives back the name it printed. *)
Lemma trim_line s : no_ws s = true → trim (s ++ nl) = s.
Proof.
  intros H. unfold trim, trimEnd, nl.
  destruct s as [|c s].
  - reflexivity.
  - rewrite trimStart_no_ws by done.
    rewrite reverse_app. simpl.
    change (reverse [10]) with [10]. simpl.
    change (is_ws 10) with true. simpl.
    assert (Hr : no_ws (reverse (c :: s)) = true) by by rewrite no_ws_reverse.
    assert (Hne : reverse (c :: s) ≠ []).
    { intros E. apply (f_equal reverse) in E. by rewrite reverse_involutive in E. }
    pose proof (trimStart_no_ws (reverse (c :: s)) [] Hr Hne) as E.
    rewrite app_nil_r in E. rewrite E. apply reverse_involutive.
Qed.

(** The order of [sort()] is a total order. *)
#[global] Instance le_total : Total le.
Proof.
  intros s. unfold le. induction s as [|a s IH]; intros [|b t]; simpl; auto.
  destruct (N.ltb_spec a b); simpl; [auto|].
  destruct (N.ltb_spec b a); simpl; [auto|].
  assert (a = b) as -> by lia. rewrite N.eqb_refl. simpl. apply IH.
Qed.

#[global] Instance le_trans : Transitive le.
Proof.
  intros s. unfold le. induction s as [|a s IH]; intros [|b t] [|c u]; simpl; try done.
  rewrite !orb_true_iff, !andb_true_iff, !N.ltb_lt, !N.eqb_eq.
  intros [?|[-> ?]] [?|[-> ?]]; [left; lia | by left | by left | right; eauto].
Qed.

#[global] Instance le_antisymm : AntiSymm (=) le.
Proof.
  intros s. unfold le. induction s as [|a s IH]; intros [|b t]; simpl; try done.
  rewrite !orb_true_iff, !andb_true_iff, !N.ltb_lt, !N.eqb_eq.
  intros [?|[-> ?]] [?|[? ?]]; try lia. f_equal. by apply IH.
Qed.

(** Whatever algorithm [sort()] runs, its result is this one: a sorted
    arrangement of the same strings is unique. *)
Lemma sort_is_determined (l l' : list (list N)) :
  l' ≡ₚ l → Sorted le l' → l' = merge_sort le l.
Proof.
  intros Hp Hs. apply (Sorted_unique le); [exact Hs| |].
  - apply Sorted_merge_sort; apply _.
  - by rewrite merge_sort_Permutation.
Qed.

Lemma split_on_nonempty sep s : split_on sep s ≠ [].
Proof.
  destruct s as [|c s]; cbn [split_on]; [done|].
  destruct (c =? sep); [done|]. by destruct (split_on sep s).
Qed.

Lemma join_split sep s : join sep (split_on sep s) = s.
Proof.
  induction s as [|c s IH]; cbn [split_on]; [done|].
  destruct (N.eqb_spec c sep) as [->|Hne].
  - cbn [join]. pose proof (split_on_nonempty sep s).
    destruct (split_on sep s) as [|l ls] eqn:E; [done|]. by rewrite IH.
  - destruct (split_on sep s) as [|l ls] eqn:E.
    + by destruct (split_on_nonempty sep s).
    + cbn [join] in *. destruct ls; by rewrite <- IH.
Qed.

Lemma join_occurs sep pieces l :
  In l pieces → ∃ pre post, join sep pieces = pre ++ l ++ post.
Proof.
  induction pieces as [|p ps IH]; [done|]. intros [->|Hin]; cbn [join].
  - destruct ps; [exists [], []; by rewrite app_nil_r|].
    by exists [], (sep :: join sep (l0 :: ps)).
  - destruct ps as [|q ps]; [done|].
    destruct (IH Hin) as (pre & post & E). rewrite E.
    exists (p ++ sep :: pre), post. by rewrite <- app_assoc.
Qed.

(** ** Target Resolver *)

Lemma truthy_Str v : truthy v = true → ∃ c s, v = Str (c :: s).
Proof. destruct v as [| |[|c s]]; try discriminate. eauto. Qed.

(** C1. [determineTarget] is a total function of the selector alone; it
    returns the highest-priority non-empty field, hash before tag before a
    version other than "latest", and latest when there is none. *)
Theorem determineTarget_priority (o : options) :
  determineTarget o = highest_priority_target o
  ∧ (truthy (hash o) = true →
     determineTarget o = {| targetType := js:"hash"; target := hash o |})
  ∧ (truthy (hash o) = false → truthy (tag o) = true →
     determineTarget o = {| targetType := js:"tag"; target := tag o |})
  ∧ (truthy (hash o) = false → truthy (tag o) = false →
     truthy (version o) = true → version o ≠ Str js:"latest" →
     determineTarget o = {| targetType := js:"version"; target := version o |})
  ∧ (truthy (hash o) = false → truthy (tag o) = false →
     truthy (version o) = false ∨ version o = Str js:"latest" →
     determineTarget o = {| targetType := js:"latest"; target := Str js:"latest" |}).
Proof.
  unfold determineTarget, highest_priority_target, selector_fields, is_str.
  destruct o as [pn v t hs hp]; simpl.
  repeat split.
  - destruct hs as [| |[|c s]], t as [| |[|c' s']], v as [| |[|c'' s'']];
      simpl; try reflexivity;
      repeat case_bool_decide; simpl; try reflexivity;
      exfalso;
      repeat match goal with
             | H : _ ∧ _ |- _ => destruct H
             | H : ¬ (_ ∧ _) |- _ => apply H; split
             end; congruence.
  - by intros ->.
  - by intros -> ->.
  - intros -> -> -> Hv. by case_bool_decide.
  - intros -> -> [-> | ->]; [done|]. by case_bool_decide.
Qed.

(** ** Remote Existence Checker *)

(** Stepping through monadic code: unfold the combinators, reduce the
    record projections, and leave everything else folded. *)
Ltac munfold :=
  unfold when; unfold bind, try_catch, ret, throw, process_exit, console, execSync.
Ltac mred :=
  cbn [w_repo w_fs w_console w_trace set_repo set_fs traced printed fst snd
       negb andb orb].
Ltac mrun := munfold; mred.

Lemma attempt_ls_remote h url r :
  attempt h (LsRemoteTags url) r =
    match remote_tags h with Some out => Some (out, r) | None => None end.
Proof. reflexivity. Qed.

Lemma forEach_console {A} (f : A → message) l xs w :
  forEach xs (fun v w => (Ret tt, printed l (f v) w)) w =
    (Ret tt, {| w_repo := w_repo w; w_fs := w_fs w;
                w_console := w_console w ++ ((fun v => (l, f v)) <$> xs);
                w_trace := w_trace w |}).
Proof.
  revert w. induction xs as [|x xs IH]; intros w; cbn [forEach fmap list_fmap].
  - unfold ret. rewrite app_nil_r. by destruct w.
  - unfold bind at 1. rewrite IH. mred.
    by rewrite <- app_assoc.
Qed.

Lemma validateTarget_unchecked h target type w :
  eqb type js:"hash" || is_str target js:"latest" = true →
  validateTarget h target type w = (Ret true, w).
Proof. unfold validateTarget. by intros ->. Qed.

Lemma validateTarget_query_fails h target type w :
  eqb type js:"hash" || is_str target js:"latest" = false →
  remote_tags h = None →
  validateTarget h target type w =
    (Ret true,
     printed Warn (CouldNotValidate (CommandFailed (LsRemoteTags repoUrl)))
       (traced (LsRemoteTags repoUrl) w)).
Proof.
  intros Hs Hq. unfold validateTarget. rewrite Hs.
  mrun. by rewrite attempt_ls_remote, Hq.
Qed.

Lemma validateTarget_found h target type w tags :
  eqb type js:"hash" || is_str target js:"latest" = false →
  remote_tags h = Some tags →
  includes tags (js:"refs/tags/" ++ to_string target) = true →
  validateTarget h target type w = (Ret true, traced (LsRemoteTags repoUrl) w).
Proof.
  intros Hs Hq Hin. unfold validateTarget. rewrite Hs.
  mrun. rewrite attempt_ls_remote, Hq. rewrite Hin. reflexivity.
Qed.

Lemma validateTarget_missing h target type w tags :
  eqb type js:"hash" || is_str target js:"latest" = false →
  remote_tags h = Some tags →
  includes tags (js:"refs/tags/" ++ to_string target) = false →
  fst (validateTarget h target type w) = Ret false
  ∧ emitted (validateTarget h target type) w =
      (Error, NotFound (to_string target)) :: suggestion_lines (available_tags tags).
Proof.
  intros Hs Hq Hin. unfold emitted, validateTarget. rewrite Hs.
  mrun. rewrite attempt_ls_remote, Hq. rewrite Hin. mred.
  unfold suggestion_lines.
  destruct (available_tags tags) as [|a av] eqn:Hav.
  - change (0 <? length [])%nat with false. mred.
    split; [done|]. by rewrite drop_app_length.
  - change (0 <? length (a :: av))%nat with true. mred.
    rewrite forEach_console. mred.
    destruct (10 <? length (a :: av))%nat eqn:Hlen; mred.
    + split; [done|].
      rewrite <- !app_assoc. by rewrite drop_app_length.
    + split; [done|].
      rewrite <- !app_assoc. rewrite drop_app_length.
      by rewrite app_nil_r.
Qed.



(** One direction of the exact match holds: a tag that the listing names
    is always accepted. *)
Lemma exact_tag_is_accepted tags name :
  tag_exists_exactly tags name = true →
  includes tags (js:"refs/tags/" ++ name) = true.
Proof.
  unfold tag_exists_exactly, listed_refs. rewrite existsb_exists.
  intros (ref & Hin & Hname).
  apply filter_In in Hin as [Hin Hne]. apply in_map_iff in Hin as (line & Hl & Hline).
  assert (Href : ∃ suffix, ref = js:"refs/tags/" ++ name ++ suffix).
  { unfold names_tag in Hname. apply orb_true_iff in Hname as [E|E];
      apply eqb_true in E; [exists []|exists js:"^{}"]; by rewrite E, ?app_nil_r. }
  destruct Href as (suffix & Href).
  assert (Hparts : ∃ oid, line = oid ++ 9 :: ref).
  { unfold ref_of_line in Hl. pose proof (join_split 9 line) as Hj.
    destruct (split_on 9 line) as [|a [|b [|c rest]]];
      try (subst ref; vm_compute in Hne; discriminate Hne).
    cbn [join] in Hj. subst b. by exists a. }
  destruct Hparts as (oid & ->).
  destruct (join_occurs 10 _ _ Hline) as (pre & post & E).
  rewrite join_split in E. apply includes_occurs.
  exists (pre ++ oid ++ [9]), (suffix ++ post).
  change (oid ++ 9 :: ref) with (oid ++ [9] ++ ref) in E.
  rewrite E, Href, <- !app_assoc. reflexivity.
Qed.

(** C2 asks that the checker answer "exists" exactly when a reference of
    the listing is the requested tag, so that a mere prefix of a tag name
    is not found. The code does not do that: with the single tag v1.0.0
    listed and "v1" requested, no reference is refs/tags/v1, yet the
    checker answers that the target exists and prints nothing, because it
    looks for the text refs/tags/v1 anywhere in the listing. *)
Theorem validateTarget_accepts_prefix_of_tag :
  tag_exists_exactly Sample.one_tag js:"v1" = false
  ∧ fst (validateTarget Sample.host_one_tag (Str js:"v1") js:"tag"
           (Sample.world_of Sample.fresh_clone)) = Ret true
  ∧ emitted (validateTarget Sample.host_one_tag (Str js:"v1") js:"tag")
      (Sample.world_of Sample.fresh_clone) = [].
Proof. vm_compute. done. Qed.

(** C3 asks that a target which is not in the listing be reported as not
    found, with the tag names as suggestions. The code does not do that
    for a prefix of a tag name: with v1.0.0 and v1.2.0 listed and "v1.2"
    requested, which is not one of the tag names, the checker answers that
    it exists and prints no suggestion. Where the code's own test fails,
    [validateTarget_missing] gives the suggestions it prints. *)
Theorem validateTarget_no_suggestions_for_prefix :
  listed_tag_names Sample.two_tags = [js:"v1.0.0"; js:"v1.2.0"]
  ∧ ¬ In js:"v1.2" (listed_tag_names Sample.two_tags)
  ∧ fst (validateTarget Sample.host_two_tags (Str js:"v1.2") js:"tag"
           (Sample.world_of Sample.fresh_clone)) = Ret true
  ∧ emitted (validateTarget Sample.host_two_tags (Str js:"v1.2") js:"tag")
      (Sample.world_of Sample.fresh_clone) = [].
Proof.
  assert (E : listed_tag_names Sample.two_tags = [js:"v1.0.0"; js:"v1.2.0"])
    by (vm_compute; reflexivity).
  split; [exact E|]. split; [|vm_compute; done].
  rewrite E. vm_compute. intros [H|[H|[]]]; discriminate H.
Qed.

(** C4. When the remote query fails the checker answers "valid": the
    result is [true], a warning is printed when the query was made, the
    working copy and the files are untouched, and [main] goes on to the
    installation. [main] ends the process only when the listing was
    obtained and does not contain the reference. *)
Theorem validateTarget_query_failure_is_valid (h : host) (tgt : jsval)
    (type : list N) (w : world) :
  remote_tags h = None →
  fst (validateTarget h tgt type w) = Ret true
  ∧ (eqb type js:"hash" || is_str tgt js:"latest" = false →
     emitted (validateTarget h tgt type) w =
       [(Warn, CouldNotValidate (CommandFailed (LsRemoteTags repoUrl)))])
  ∧ w_repo (snd (validateTarget h tgt type w)) = w_repo w
  ∧ w_fs (snd (validateTarget h tgt type w)) = w_fs w
  ∧ ∀ o, fst (main_target_gate h o w) = Ret (determineTarget o).
Proof.
  intros Hq.
  assert (Hall : ∀ tg ty, ∃ w', validateTarget h tg ty w = (Ret true, w')
                   ∧ w_repo w' = w_repo w ∧ w_fs w' = w_fs w).
  { intros tg ty.
    destruct (eqb ty js:"hash" || is_str tg js:"latest") eqn:Hs.
    - rewrite validateTarget_unchecked by done. eauto.
    - rewrite validateTarget_query_fails by done. eauto. }
  destruct (Hall tgt type) as (w' & E & Hr & Hf).
  rewrite E. simpl. repeat split; try done.
  - intros Hs. unfold emitted. rewrite validateTarget_query_fails by done.
    simpl. by rewrite drop_app_length.
  - intros o. unfold main_target_gate, when, bind.
    destruct (negb _); [|done].
    destruct (Hall (target (determineTarget o)) (targetType (determineTarget o)))
      as (w'' & E' & _). by rewrite E'.
Qed.

(** [main] ends the process only on a listing that was obtained and does
    not mention the reference. *)
Lemma main_exits_only_on_missing h o w n :
  fst (main_target_gate h o w) = Exit n →
  ∃ tags, remote_tags h = Some tags
          ∧ includes tags (js:"refs/tags/" ++ to_string (target (determineTarget o))) = false.
Proof.
  unfold main_target_gate. unfold when at 1.
  destruct (negb (is_str _ _)); [|discriminate].
  set (tg := target (determineTarget o)). set (ty := targetType (determineTarget o)).
  destruct (eqb ty js:"hash" || is_str tg js:"latest") eqn:Hs.
  { unfold bind. rewrite validateTarget_unchecked by done. discriminate. }
  destruct (remote_tags h) as [tags|] eqn:Hq.
  - destruct (includes tags (js:"refs/tags/" ++ to_string tg)) eqn:Hin; [|eauto].
    unfold bind. rewrite (validateTarget_found _ _ _ _ tags) by done. discriminate.
  - unfold bind. rewrite validateTarget_query_fails by done. discriminate.
Qed.

(** ** git *)

Lemma attempt_symbolic_ref h r :
  attempt h SymbolicRefShortHEAD r =
    Some (match HEAD r with
          | Attached b => short_name r b ++ nl
          | Detached _ => nl
          end, r).
Proof. unfold attempt. cbn. by destruct (HEAD r). Qed.

Lemma short_name_untagged r b : tags r !! b = None → short_name r b = b.
Proof.
  intros E. unfold short_name. rewrite bool_decide_eq_false_2; [done|].
  rewrite E. by intros [? ?].
Qed.

Lemma short_name_tagged r b :
  is_Some (tags r !! b) → short_name r b = js:"heads/" ++ b.
Proof. intros E. unfold short_name. by rewrite bool_decide_eq_true_2. Qed.

Lemma attempt_rev_parse h r :
  attempt h RevParseHEAD r =
    match head_rev r with Some c => Some (c ++ nl, r) | None => None end.
Proof. reflexivity. Qed.

Lemma attempt_git h c r out r' :
  attempt h c r = Some (out, r') → git_run h c r = Some (out, r').
Proof. unfold attempt. by destruct (_ || _). Qed.

(** Creating a branch and switching to it keeps the revision. *)
Lemma create_and_switch_effect h c b r out r' :
  c = SwitchCreate b ∨ c = CheckoutCreate b →
  attempt h c r = Some (out, r') →
  heads r !! b = None ∧ HEAD r' = Attached b ∧ head_rev r' = head_rev r.
Proof.
  intros Hc H. apply attempt_git in H.
  assert (E : git_run h c r =
              match heads r !! b with
              | Some _ => None
              | None =>
                  Some ([], set_HEAD (Attached b)
                             match head_rev r with
                             | Some c => set_heads (<[b:=c]> (heads r)) r
                             | None => r
                             end)
              end) by (by destruct Hc as [-> | ->]).
  rewrite E in H. clear E Hc.
  destruct (heads r !! b) eqn:Hb; [discriminate|]. injection H as _ <-.
  split; [done|]. split; [done|].
  unfold head_rev at 1. cbn [HEAD set_HEAD heads].
  destruct (head_rev r) eqn:Hr; cbn [heads set_heads].
  - apply lookup_insert_eq.
  - done.
Qed.

Lemma branch_effect h b c r out r' :
  attempt h (Branch b c) r = Some (out, r') →
  heads r !! b = None ∧ r' = set_heads (<[b:=c]> (heads r)) r.
Proof.
  intros H. apply attempt_git in H. cbn in H.
  destruct (heads r !! b); [discriminate|]. by injection H as _ <-.
Qed.

Lemma branch_force_effect h b c r out r' :
  attempt h (BranchForce b c) r = Some (out, r') →
  HEAD r ≠ Attached b ∧ r' = set_heads (<[b:=c]> (heads r)) r.
Proof.
  intros H. apply attempt_git in H. cbn in H.
  case_bool_decide; [discriminate|]. by injection H as _ <-.
Qed.

Lemma checkout_branch_effect h b r out r' :
  attempt h (CheckoutBranch b) r = Some (out, r') →
  is_Some (heads r !! b) ∧ r' = set_HEAD (Attached b) r.
Proof.
  intros H. apply attempt_git in H. cbn in H.
  destruct (heads r !! b) eqn:Hb; [|discriminate]. injection H as _ <-. eauto.
Qed.

(** ** Branch Normalizer *)

Lemma trim_nl : trim nl = [].
Proof. reflexivity. Qed.

Lemma trim_main : trim (main_branch ++ nl) = main_branch.
Proof. reflexivity. Qed.

Lemma reported_branch_detached r c : HEAD r = Detached c → reported_branch r = [].
Proof. intros E. unfold reported_branch. by rewrite E. Qed.

Lemma reported_branch_untagged r b :
  HEAD r = Attached b → tags r !! b = None → no_ws b = true →
  reported_branch r = b.
Proof.
  intros E Ht Hws. unfold reported_branch.
  by rewrite E, short_name_untagged, trim_line.
Qed.

Lemma reported_branch_tagged r b :
  HEAD r = Attached b → is_Some (tags r !! b) → no_ws b = true →
  reported_branch r = js:"heads/" ++ b.
Proof.
  intros E Ht Hws. unfold reported_branch.
  rewrite E, short_name_tagged by done. apply trim_line.
  unfold no_ws. rewrite forallb_app. by rewrite andb_true_iff.
Qed.

(** A branch whose name has no white space is reported as main only when
    it is main. *)
Lemma reported_main_is_main r b :
  HEAD r = Attached b → no_ws b = true → reported_branch r = main_branch →
  b = main_branch.
Proof.
  intros E Hws H. destruct (tags r !! b) as [t|] eqn:Ht.
  - rewrite (reported_branch_tagged r b E) in H by (by rewrite ?Ht).
    vm_compute in H. discriminate H.
  - by rewrite (reported_branch_untagged r b E Ht Hws) in H.
Qed.

(** A branch other than main whose name has no white space is reported
    as such, with or without a tag of the same name. *)
Lemma reported_branch_other r b :
  HEAD r = Attached b → b ≠ [] → b ≠ main_branch → no_ws b = true →
  reported_branch r ≠ [] ∧ reported_branch r ≠ main_branch.
Proof.
  intros E Hne Hnm Hws.
  destruct (tags r !! b) as [t|] eqn:Ht.
  - rewrite (reported_branch_tagged r b E) by (by rewrite ?Ht).
    split; intros H; vm_compute in H; discriminate H.
  - by rewrite (reported_branch_untagged r b E Ht Hws).
Qed.

(** When the name the query reports is [main], the normaliser runs the
    query and nothing else: no command that creates or switches a branch,
    and the working copy, hence the current revision, is unchanged. *)
Lemma normaliser_on_reported_main (h : host) (tgt : jsval)
    (tty : list N) (w : world) :
  reported_branch (w_repo w) = main_branch →
  fst (ensureMainBranchFromCurrentState h tgt tty w) = Ret tt
  ∧ commands (ensureMainBranchFromCurrentState h tgt tty) w = [SymbolicRefShortHEAD]
  ∧ w_repo (snd (ensureMainBranchFromCurrentState h tgt tty w)) = w_repo w
  ∧ w_fs (snd (ensureMainBranchFromCurrentState h tgt tty w)) = w_fs w
  ∧ emitted (ensureMainBranchFromCurrentState h tgt tty) w
    = [(Log, MainBranchSetupComplete)].
Proof.
  intros Hm. unfold commands, emitted.
  unfold ensureMainBranchFromCurrentState, ensureMainBranch_body. mrun.
  rewrite attempt_symbolic_ref. fold (reported_branch (w_repo w)). mred.
  fold (reported_branch (w_repo w)). rewrite Hm.
  change (eqb main_branch []) with false.
  change (eqb main_branch main_branch) with true. mred.
  rewrite !drop_app_length. done.
Qed.

(** The normaliser returns normally whatever happens: every error of its
    body is caught and reported as a warning. *)
Lemma ensureMainBranch_returns h tgt tty w :
  fst (ensureMainBranchFromCurrentState h tgt tty w) = Ret tt.
Proof.
  unfold ensureMainBranchFromCurrentState, ensureMainBranch_body,
    createMainBranchFromCurrent, strategy_switch, strategy_checkout, strategy_manual.
  cbn [run_strategies]. munfold.
  rewrite attempt_symbolic_ref. mred.
  repeat (mred; match goal with
                | |- context [attempt ?h' ?c ?r] =>
                    destruct (attempt h' c r) as [[? ?]|] eqn:?
                | |- context [if ?b then _ else _] => destruct b eqn:?
                end); mred; reflexivity.
Qed.

(** C8. From a detached HEAD the normaliser tries (a) git switch -c main,
    (b) git checkout -b main, (c) git branch main <id> then git checkout
    main, in this order, and stops at the first that succeeds; a strategy
    that succeeds leaves HEAD on main at the revision it was detached at.
    When all three fail it prints a warning and returns normally, and
    [cloneRepository] still reports success. *)
Theorem detached_head_ladder (h : host) (tgt : jsval) (tty : list N)
    (w : world) (c : list N) :
  HEAD (w_repo w) = Detached c →
  no_ws c = true →
  fst (ensureMainBranchFromCurrentState h tgt tty w) = Ret tt
  ∧ (∀ o, fst (cloneRepository_normalise h o w) = Ret true)
  ∧ commands (ensureMainBranchFromCurrentState h tgt tty) w
    = SymbolicRefShortHEAD :: ladder_commands c (ladder h c (w_repo w))
  ∧ w_repo (snd (ensureMainBranchFromCurrentState h tgt tty w))
    = ladder_repo (ladder h c (w_repo w))
  ∧ emitted (ensureMainBranchFromCurrentState h tgt tty) w
    = (Log, CreatingMainFromCurrentState (to_string (js_or tgt (Str js:"latest"))))
      :: ladder_lines (ladder h c (w_repo w))
  ∧ (ladder_succeeded (ladder h c (w_repo w)) = true →
     HEAD (ladder_repo (ladder h c (w_repo w))) = Attached main_branch
     ∧ head_rev (ladder_repo (ladder h c (w_repo w))) = Some c).
Proof.
  intros Hd Hc.
  assert (Hrev : head_rev (w_repo w) = Some c) by (unfold head_rev; by rewrite Hd).
  split; [apply ensureMainBranch_returns|].
  split.
  { intros o. unfold cloneRepository_normalise, bind.
    pose proof (ensureMainBranch_returns h (clone_target o) (clone_targetType o) w) as E.
    destruct (ensureMainBranchFromCurrentState _ _ _ w) as [res w']. cbn in E.
    by rewrite E. }
  unfold commands, emitted, ladder.
  unfold ensureMainBranchFromCurrentState, ensureMainBranch_body,
    createMainBranchFromCurrent, strategy_switch, strategy_checkout, strategy_manual.
  cbn [run_strategies]. munfold.
  rewrite attempt_symbolic_ref, Hd. mred. rewrite trim_nl.
  change (eqb [] []) with true. mred.
  destruct (attempt h (SwitchCreate main_branch) (w_repo w)) as [[o1 r1]|] eqn:E1; mred.
  { destruct (create_and_switch_effect _ _ _ _ _ _ (or_introl eq_refl) E1) as (_ & ? & ?).
    cbn [ladder_commands ladder_repo ladder_lines ladder_succeeded].
    rewrite <- !app_assoc, !drop_app_length. repeat split; congruence. }
  destruct (attempt h (CheckoutCreate main_branch) (w_repo w)) as [[o2 r2]|] eqn:E2; mred.
  { destruct (create_and_switch_effect _ _ _ _ _ _ (or_intror eq_refl) E2) as (_ & ? & ?).
    cbn [ladder_commands ladder_repo ladder_lines ladder_succeeded].
    rewrite <- !app_assoc, !drop_app_length. repeat split; congruence. }
  rewrite attempt_rev_parse, Hrev. mred. rewrite (trim_line c Hc).
  destruct (attempt h (Branch main_branch c) (w_repo w)) as [[o3 r3]|] eqn:E3; mred.
  2:{ cbn [ladder_commands ladder_repo ladder_lines ladder_succeeded].
      rewrite <- !app_assoc, !drop_app_length. repeat split; congruence. }
  destruct (attempt h (CheckoutBranch main_branch) r3) as [[o4 r4]|] eqn:E4; mred.
  2:{ cbn [ladder_commands ladder_repo ladder_lines ladder_succeeded].
      rewrite <- !app_assoc, !drop_app_length. repeat split; congruence. }
  cbn [ladder_commands ladder_repo ladder_lines ladder_succeeded].
  rewrite <- !app_assoc, !drop_app_length. do 3 (split; [done|]). intros _.
  apply branch_effect in E3 as [_ ->]. apply checkout_branch_effect in E4 as [_ ->].
  split; [reflexivity|].
  unfold head_rev. cbn [HEAD set_HEAD heads set_heads]. apply lookup_insert_eq.
Qed.

(** A local [main] blocks the whole ladder: each of the three strategies
    creates the branch and git refuses to create a branch that exists. *)
Lemma ladder_blocked_by_existing_main h c r m :
  heads r !! main_branch = Some m →
  ladder h c r = Exhausted (CommandFailed (Branch main_branch c)) r.
Proof.
  intros Hm. unfold ladder, attempt.
  destruct (_ || can_run h (SwitchCreate _) r); cbn [git_run]; rewrite ?Hm;
    (destruct (_ || can_run h (CheckoutCreate _) r); cbn [git_run]; rewrite ?Hm;
     (destruct (_ || can_run h (Branch _ _) r); cbn [git_run]; rewrite ?Hm; reflexivity)).
Qed.

(** When the name the query reports is neither empty nor [main], the
    normaliser first runs git checkout -b main; when that fails it reads
    the current revision id, force-moves main to it and checks main out.
    Whenever it completes, HEAD is on main and main is at the revision the
    working copy was at, wherever main pointed before. *)
Lemma normaliser_on_reported_other (h : host) (tgt : jsval) (tty : list N)
    (w : world) :
  reported_branch (w_repo w) ≠ [] →
  reported_branch (w_repo w) ≠ main_branch →
  (∀ c, head_rev (w_repo w) = Some c → no_ws c = true) →
  (∀ out r1,
     attempt h (CheckoutCreate main_branch) (w_repo w) = Some (out, r1) →
     commands (ensureMainBranchFromCurrentState h tgt tty) w
       = [SymbolicRefShortHEAD; CheckoutCreate main_branch]
     ∧ w_repo (snd (ensureMainBranchFromCurrentState h tgt tty w)) = r1)
  ∧ (attempt h (CheckoutCreate main_branch) (w_repo w) = None →
     ∀ c o2 r2 o3 r3,
       head_rev (w_repo w) = Some c →
       attempt h (BranchForce main_branch c) (w_repo w) = Some (o2, r2) →
       attempt h (CheckoutBranch main_branch) r2 = Some (o3, r3) →
       commands (ensureMainBranchFromCurrentState h tgt tty) w
         = [SymbolicRefShortHEAD; CheckoutCreate main_branch; RevParseHEAD;
            BranchForce main_branch c; CheckoutBranch main_branch]
       ∧ w_repo (snd (ensureMainBranchFromCurrentState h tgt tty w)) = r3
       ∧ heads r3 !! main_branch = Some c)
  ∧ (In (Log, MainBranchSetupComplete)
       (emitted (ensureMainBranchFromCurrentState h tgt tty) w) →
     HEAD (w_repo (snd (ensureMainBranchFromCurrentState h tgt tty w)))
       = Attached main_branch
     ∧ head_rev (w_repo (snd (ensureMainBranchFromCurrentState h tgt tty w)))
       = head_rev (w_repo w)).
Proof.
  intros Hne Hnm Hoid.
  unfold commands, emitted.
  unfold ensureMainBranchFromCurrentState, ensureMainBranch_body. munfold.
  rewrite attempt_symbolic_ref. fold (reported_branch (w_repo w)). mred.
  fold (reported_branch (w_repo w)).
  rewrite (proj2 (eqb_false _ []) Hne), (proj2 (eqb_false _ main_branch) Hnm). mred.
  destruct (attempt h (CheckoutCreate main_branch) (w_repo w)) as [[o1 r1]|] eqn:E1; mred.
  { destruct (create_and_switch_effect _ _ _ _ _ _ (or_intror eq_refl) E1) as (_ & ? & ?).
    rewrite <- !app_assoc, !drop_app_length.
    split; [intros ?? ?; simplify_eq; split; reflexivity|]. split; [done|]. done. }
  split; [done|].
  rewrite attempt_rev_parse.
  destruct (head_rev (w_repo w)) as [c|] eqn:Hrev; mred.
  2:{ rewrite <- !app_assoc, !drop_app_length.
      split; [intros _ ????? ?; discriminate|].
      cbn. intros [H|[H|[H|[]]]]; discriminate H. }
  rewrite (trim_line c (Hoid c eq_refl)).
  destruct (attempt h (BranchForce main_branch c) (w_repo w)) as [[o2 r2]|] eqn:E2; mred.
  2:{ rewrite <- !app_assoc, !drop_app_length.
      split; [intros _ ????? ? ?; simplify_eq|].
      cbn. intros [H|[H|[H|[]]]]; discriminate H. }
  destruct (attempt h (CheckoutBranch main_branch) r2) as [[o3 r3]|] eqn:E3; mred.
  2:{ rewrite <- !app_assoc, !drop_app_length.
      split; [intros _ ????? ? ? ?; simplify_eq|].
      cbn. intros [H|[H|[H|[]]]]; discriminate H. }
  rewrite <- !app_assoc, !drop_app_length.
  pose proof (branch_force_effect _ _ _ _ _ _ E2) as [_ Hr2].
  pose proof (checkout_branch_effect _ _ _ _ _ E3) as [_ Hr3].
  assert (Hm : heads r3 !! main_branch = Some c).
  { rewrite Hr3, Hr2. cbn [heads set_HEAD set_heads]. apply lookup_insert_eq. }
  assert (Hh : HEAD r3 = Attached main_branch) by (by rewrite Hr3).
  split.
  - intros _ c' o2' r2' o3' r3' Hc' H2 H3. simplify_eq.
    repeat split; try reflexivity. exact Hm.
  - intros _. split; [exact Hh|]. unfold head_rev at 1. by rewrite Hh.
Qed.

(** ** Text pasted into a command line *)

Lemma execSync_typed_word h c typed :
  shell_word typed = true → execSync_typed h c typed = execSync h c.
Proof. intros E. unfold execSync_typed. by rewrite E. Qed.

(** When the URL is asked for and used, it is the word the hypothesis
    speaks of. *)
Lemma typed_url_word h :
  typed_url_is_word h = true →
  lower_is_y (answer h ConnectOwnRepo) = true →
  negb (eqb (trim (answer h EnterRepoUrl)) []) = true →
  shell_word (trim (answer h EnterRepoUrl)) = true.
Proof.
  unfold typed_url_is_word. intros H Hy Hne. rewrite Hy in H.
  apply negb_true_iff in Hne. rewrite Hne in H. exact H.
Qed.

(** ** Relations every run keeps *)

Section Preserves.
Context (Q : repo → repo → Prop) `{!PreOrder Q}.

Lemma preserves_ret {A} (a : A) : preserves Q (ret a).
Proof. intros w. reflexivity. Qed.

Lemma preserves_console l m : preserves Q (console l m).
Proof. intros w. reflexivity. Qed.

Lemma preserves_bind {A B} (m : M A) (k : A → M B) :
  preserves Q m → (∀ a, preserves Q (k a)) → preserves Q (bind m k).
Proof.
  intros Hm Hk w. unfold bind. specialize (Hm w).
  destruct (m w) as [[a|e|n] w']; cbn [snd] in *; try done.
  etrans; [exact Hm|apply Hk].
Qed.

Lemma preserves_try {A} (m : M A) (hd : exn → M A) :
  preserves Q m → (∀ e, preserves Q (hd e)) → preserves Q (try_catch m hd).
Proof.
  intros Hm Hh w. unfold try_catch. specialize (Hm w).
  destruct (m w) as [[a|e|n] w']; cbn [snd] in *; try done.
  etrans; [exact Hm|apply Hh].
Qed.

Lemma preserves_when b (m : M unit) :
  (b = true → preserves Q m) → preserves Q (when b m).
Proof. destruct b; [auto|intros _; apply preserves_ret]. Qed.

Lemma preserves_exec h c :
  (∀ r out r', attempt h c r = Some (out, r') → Q r r') →
  preserves Q (execSync h c).
Proof.
  intros Hc w. unfold execSync.
  destruct (attempt h c (w_repo w)) as [[out r']|] eqn:E; cbn; [eauto|reflexivity].
Qed.

Lemma preserves_exec_typed h c typed :
  shell_word typed = true →
  (∀ r out r', attempt h c r = Some (out, r') → Q r r') →
  preserves Q (execSync_typed h c typed).
Proof. intros Hw. rewrite execSync_typed_word by done. apply preserves_exec. Qed.
End Preserves.

#[global] Instance same_preorder {B} (f : repo → B) : PreOrder (same f).
Proof. split; unfold same; [by intros r | intros r1 r2 r3; congruence]. Qed.

#[global] Instance own_remote_only_preorder h : PreOrder (own_remote_only h).
Proof.
  split; unfold own_remote_only.
  - intros r. auto.
  - intros r1 r2 r3 [U1 O1] [U2 O2]. split; [congruence|].
    destruct O2 as [O2|[? O2]]; [|by right].
    destruct O1 as [O1|[? O1]]; [left|right; split; [done|]]; congruence.
Qed.

Lemma branch_stable_effect h c r out r' :
  branch_stable c = true →
  attempt h c r = Some (out, r') → current_branch r' = current_branch r.
Proof.
  intros Hs H. apply attempt_git in H. unfold current_branch.
  destruct c; try discriminate Hs; cbn in H;
    repeat match type of H with
           | match ?x with _ => _ end = _ => destruct x eqn:?
           | (if ?x then _ else _) = _ => destruct x eqn:?
           end; simplify_eq; cbn; try done.
  all: by match goal with E : HEAD _ = _ |- _ => rewrite E end.
Qed.

Lemma remotes_stable_effect h c r out r' :
  remotes_stable c = true →
  attempt h c r = Some (out, r') → remotes r' = remotes r.
Proof.
  intros Hs H. apply attempt_git in H.
  destruct c; try discriminate Hs; cbn in H;
    repeat match type of H with
           | match ?x with _ => _ end = _ => destruct x eqn:?
           | (if ?x then _ else _) = _ => destruct x eqn:?
           end; simplify_eq; cbn; repeat case_match; done.
Qed.

(** No command of the installer creates, moves or deletes a tag. *)
Lemma tags_effect h c r out r' :
  attempt h c r = Some (out, r') → tags r' = tags r.
Proof.
  intros H. apply attempt_git in H.
  destruct c; cbn in H;
    repeat match type of H with
           | match ?x with _ => _ end = _ => destruct x eqn:?
           | (if ?x then _ else _) = _ => destruct x eqn:?
           end; simplify_eq; cbn; repeat case_match; done.
Qed.

(** Applying the rules of [preserves] along the syntax of the code. *)
Ltac preserves_tac :=
  repeat first
    [ match goal with
      | |- PreOrder _ => apply _
      | |- ∀ _, _ => intros ?
      | |- same _ _ _ =>
          unfold same;
          first [ eapply branch_stable_effect; [|eassumption]; reflexivity
                | eapply remotes_stable_effect; [|eassumption]; reflexivity
                | eapply tags_effect; eassumption ]
      end
    | apply preserves_console
    | apply preserves_ret
    | apply preserves_bind
    | apply preserves_try
    | apply preserves_when
    | apply preserves_exec
    | apply preserves_exec_typed; try solve [eapply typed_url_word; eassumption] ].

(** The configurator never moves HEAD to another branch, as long as the
    URL typed is one word of the command line. *)
Lemma setupGitRepository_keeps_branch h :
  typed_url_is_word h = true →
  preserves (same current_branch) (setupGitRepository h).
Proof.
  intros Hword.
  unfold setupGitRepository, configure_upstream, connect_own_repository.
  preserves_tac.
Qed.

(** The normaliser never touches the remotes. *)
Lemma ensureMainBranch_keeps_remotes h tgt tty :
  preserves (same remotes) (ensureMainBranchFromCurrentState h tgt tty).
Proof.
  unfold ensureMainBranchFromCurrentState, ensureMainBranch_body,
    createMainBranchFromCurrent, strategy_switch, strategy_checkout, strategy_manual.
  cbn [run_strategies].
  apply preserves_try; [apply _| |preserves_tac].
  apply preserves_bind; [apply _|preserves_tac|intros out].
  apply preserves_bind; [apply _| |preserves_tac].
  destruct (eqb (trim out) []); [preserves_tac|].
  destruct (negb _); preserves_tac.
Qed.

(** The normaliser never touches the tags. *)
Lemma ensureMainBranch_keeps_tags h tgt tty :
  preserves (same tags) (ensureMainBranchFromCurrentState h tgt tty).
Proof.
  unfold ensureMainBranchFromCurrentState, ensureMainBranch_body,
    createMainBranchFromCurrent, strategy_switch, strategy_checkout, strategy_manual.
  cbn [run_strategies].
  apply preserves_try; [apply _| |preserves_tac].
  apply preserves_bind; [apply _|preserves_tac|intros out].
  apply preserves_bind; [apply _| |preserves_tac].
  destruct (eqb (trim out) []); [preserves_tac|].
  destruct (negb _); preserves_tac.
Qed.

Lemma origin_not_upstream : origin ≠ upstream.
Proof. intros E. vm_compute in E. discriminate E. Qed.

Lemma remote_rename_effect h a b r out r' :
  attempt h (RemoteRename a b) r = Some (out, r') →
  ∃ url, remotes r !! a = Some url ∧ remotes r !! b = None
         ∧ r' = set_remotes (<[b:=url]> (delete a (remotes r))) r.
Proof.
  intros H. apply attempt_git in H. cbn in H.
  destruct (remotes r !! a) as [url|]; [|discriminate].
  destruct (remotes r !! b); [discriminate|]. injection H as _ <-. eauto.
Qed.

Lemma remote_remove_effect h a r out r' :
  attempt h (RemoteRemove a) r = Some (out, r') →
  r' = set_remotes (delete a (remotes r)) r.
Proof.
  intros H. apply attempt_git in H. cbn in H.
  destruct (remotes r !! a); [|discriminate]. by injection H as _ <-.
Qed.

Lemma remote_add_effect h a url r out r' :
  attempt h (RemoteAdd a url) r = Some (out, r') →
  remotes r !! a = None ∧ r' = set_remotes (<[a:=url]> (remotes r)) r.
Proof.
  intros H. apply attempt_git in H. cbn in H.
  destruct (remotes r !! a); [discriminate|]. by injection H as _ <-.
Qed.

(** One step of symbolic execution: case on the next command. *)
Ltac exec_case :=
  mred;
  match goal with
  | |- context [attempt ?h (RevParseHEAD) ?r] => rewrite (attempt_rev_parse h r)
  | |- context [match head_rev ?r with _ => _ end] =>
      let E := fresh "Hrev" in destruct (head_rev r) eqn:E
  | |- context [attempt ?h ?c ?r] =>
      let E := fresh "E" in destruct (attempt h c r) as [[? ?]|] eqn:E
  end.

(** ** Remote Topology Configurator *)

Lemma configure_upstream_returns h w :
  fst (configure_upstream h w) = Ret tt.
Proof.
  unfold configure_upstream. munfold. repeat exec_case; mred; reflexivity.
Qed.

(** When the rename or its fallback succeeds, [upstream] carries the URL
    that [origin] carried, or the template URL, and [origin] is gone. *)
Lemma configure_upstream_result h w :
  remotes (w_repo w) !! origin = Some repoUrl →
  upstream_configured h (w_repo w) →
  remotes (w_repo (snd (configure_upstream h w))) !! upstream = Some repoUrl
  ∧ remotes (w_repo (snd (configure_upstream h w))) !! origin = None.
Proof.
  intros Ho Hu. unfold configure_upstream. munfold.
  destruct (attempt h (RemoteRename origin upstream) (w_repo w)) as [[o1 r1]|] eqn:E1; mred.
  - apply remote_rename_effect in E1 as (url & Hurl & _ & ->).
    cbn [remotes set_remotes]. rewrite Ho in Hurl. injection Hurl as <-.
    split; [apply lookup_insert_eq|].
    rewrite lookup_insert_ne by (intros E; by apply origin_not_upstream).
    apply lookup_delete_eq.
  - destruct Hu as [[? Hu]|(out & r' & Hrm & [? Hadd])]; [congruence|].
    rewrite Hrm. mred.
    destruct (attempt h (RemoteAdd upstream repoUrl) r') as [[o3 r3]|] eqn:E3;
      [|congruence].
    mred. apply remote_remove_effect in Hrm as ->.
    apply remote_add_effect in E3 as [_ ->]. cbn [remotes set_remotes].
    split; [apply lookup_insert_eq|].
    rewrite lookup_insert_ne by (intros E; by apply origin_not_upstream).
    apply lookup_delete_eq.
Qed.

Lemma setup_rest_own_remote_only h :
  typed_url_is_word h = true →
  preserves (own_remote_only h) (setup_rest h).
Proof.
  intros Hword.
  assert (Hstable : ∀ c r out r',
            remotes_stable c = true → attempt h c r = Some (out, r') →
            own_remote_only h r r').
  { intros c r out r' Hs E. unfold own_remote_only.
    rewrite (remotes_stable_effect _ _ _ _ _ Hs E). auto. }
  unfold setup_rest, connect_own_repository.
  repeat first
    [ match goal with
      | |- PreOrder _ => apply _
      | |- ∀ _, _ => intros ?
      | H : attempt _ (RemoteAdd origin _) ?r = Some (_, ?r') |- own_remote_only _ ?r ?r' =>
          apply remote_add_effect in H as [_ ->]; unfold own_remote_only;
          cbn [remotes set_remotes]; split;
          [ apply lookup_insert_ne, origin_not_upstream
          | right; split; [assumption|apply lookup_insert_eq] ]
      | |- own_remote_only _ _ _ => eapply Hstable; [|eassumption]; reflexivity
      end
    | apply preserves_console
    | apply preserves_ret
    | apply preserves_bind
    | apply preserves_try
    | apply preserves_when
    | apply preserves_exec
    | apply preserves_exec_typed; try solve [eapply typed_url_word; eassumption] ].
Qed.

Lemma setup_rest_never_exits h w n : fst (setup_rest h w) ≠ Exit n.
Proof.
  unfold setup_rest, connect_own_repository, execSync_typed.
  destruct (lower_is_y (answer h ConnectOwnRepo));
    destruct (negb (eqb (trim (answer h EnterRepoUrl)) []));
    destruct (shell_word (trim (answer h EnterRepoUrl)));
    destruct (lower_is_y (answer h PushNow));
    munfold;
    repeat first
      [ exec_case
      | match goal with
        | |- context [run_line ?h ?c ?r ?fs] =>
            destruct (run_line h c r fs) as [[[? ?] ?]|] eqn:?
        end ];
    mred; discriminate.
Qed.

Lemma setupGitRepository_split h w :
  setupGitRepository h w =
    try_catch (setup_rest h) (fun error => console Log (GitSetupFailed error))
      (snd (configure_upstream h (printed Log SettingUpGit w))).
Proof.
  unfold setupGitRepository. fold (setup_rest h).
  unfold try_catch at 1. unfold bind at 1. unfold console at 1.
  unfold bind at 1.
  pose proof (configure_upstream_returns h (printed Log SettingUpGit w)) as E.
  destruct (configure_upstream h (printed Log SettingUpGit w)) as [res w3].
  cbn [fst] in E. subst res. reflexivity.
Qed.

(** The configurator returns normally whatever happens. *)
Lemma setupGitRepository_returns h w : fst (setupGitRepository h w) = Ret tt.
Proof.
  rewrite setupGitRepository_split. unfold try_catch.
  pose proof (setup_rest_never_exits h
                (snd (configure_upstream h (printed Log SettingUpGit w)))) as Hn.
  destruct (setup_rest h _) as [[[]|e|n] w']; cbn [fst] in *.
  - reflexivity.
  - reflexivity.
  - by destruct (Hn n).
Qed.

Lemma cloneRepository_normalise_run h o w :
  cloneRepository_normalise h o w =
    (Ret true,
     snd (ensureMainBranchFromCurrentState h (clone_target o) (clone_targetType o) w)).
Proof.
  unfold cloneRepository_normalise, bind.
  pose proof (ensureMainBranch_returns h (clone_target o) (clone_targetType o) w) as E.
  destruct (ensureMainBranchFromCurrentState _ _ _ w) as [res w']. cbn [fst] in E.
  by subst res.
Qed.

(** A working copy that cannot be written, with HEAD detached and no
    branch main: the three strategies fail, the rename and its fallback
    fail, every failure is caught and printed, and the run completes with
    the working copy as it was. *)
Lemma readonly_run_leaves_everything :
  fst (afterAcquisition Sample.readonly_host (Sample.with_tag "v1.2.0")
         (Sample.world_of Sample.detached_no_main)) = Ret tt
  ∧ w_repo (snd (afterAcquisition Sample.readonly_host (Sample.with_tag "v1.2.0")
                   (Sample.world_of Sample.detached_no_main)))
    = Sample.detached_no_main.
Proof. vm_compute. done. Qed.

(** C6 asks that every run that completes end on branch main, with the
    template as [upstream] and not as [origin]. The code does not do that
    for the branch. With every command allowed, after [git checkout
    v1.2.0] in a clone whose default branch is main, the local main of the
    clone makes all three strategies of the detached path fail, because
    each of them creates main; the failure is caught, the remotes are set
    up as asked, and the run ends with HEAD detached, at the initial
    commit. The sibling path for a named branch force-moves main in this
    situation; the detached path does not. *)
Theorem tag_install_stays_detached :
  ladder Sample.plain_host Sample.tag_rev Sample.detached_at_tag
    = Exhausted (CommandFailed (Branch main_branch Sample.tag_rev)) Sample.detached_at_tag
  ∧ fst (afterAcquisition Sample.plain_host (Sample.with_tag "v1.2.0")
           (Sample.world_of Sample.detached_at_tag)) = Ret tt
  ∧ HEAD (w_repo (snd (afterAcquisition Sample.plain_host (Sample.with_tag "v1.2.0")
                         (Sample.world_of Sample.detached_at_tag))))
    = Detached (commit_id Sample.plain_host Sample.detached_at_tag)
  ∧ remotes (w_repo (snd (afterAcquisition Sample.plain_host (Sample.with_tag "v1.2.0")
                            (Sample.world_of Sample.detached_at_tag))))
    = {[ upstream := repoUrl ]}
  ∧ In (Log, GitConfigured)
      (emitted (afterAcquisition Sample.plain_host (Sample.with_tag "v1.2.0"))
         (Sample.world_of Sample.detached_at_tag)).
Proof. vm_compute. repeat split; auto 20. Qed.

(** C7 asks that the normaliser invoke no strategy when the current branch
    is main already. The code does not do that when the clone also has a
    tag named main: [git symbolic-ref --short HEAD] then prints
    [heads/main], which the code compares with [main] and takes for
    another branch. It runs [git checkout -b main], which fails, reads the
    revision, runs [git branch -f main], which git refuses for the branch
    that is checked out, and prints the warning instead of the completion
    line. *)
Theorem on_main_with_tag_named_main :
  HEAD Sample.main_with_tag_main = Attached main_branch
  ∧ commands (ensureMainBranchFromCurrentState Sample.plain_host
                (clone_target Sample.no_selector) (clone_targetType Sample.no_selector))
      (Sample.world_of Sample.main_with_tag_main)
    = [SymbolicRefShortHEAD; CheckoutCreate main_branch; RevParseHEAD;
       BranchForce main_branch js:"77aa2c3d4e5f60718293a4b5c6d7e8f90a1b2c3d"]
  ∧ emitted (ensureMainBranchFromCurrentState Sample.plain_host
               (clone_target Sample.no_selector) (clone_targetType Sample.no_selector))
      (Sample.world_of Sample.main_with_tag_main)
    = [(Log, CreatingMainFrom js:"version" js:"latest");
       (Warn, BranchSetupWarning
                (CommandFailed
                   (BranchForce main_branch js:"77aa2c3d4e5f60718293a4b5c6d7e8f90a1b2c3d")));
       (Log, ContinuingWithCurrentState)]
  ∧ w_repo (snd (ensureMainBranchFromCurrentState Sample.plain_host
                   (clone_target Sample.no_selector)
                   (clone_targetType Sample.no_selector)
                   (Sample.world_of Sample.main_with_tag_main)))
    = Sample.main_with_tag_main.
Proof. vm_compute. done. Qed.

(** C9 asks that, on a branch other than main, the normaliser create main
    and switch to it, or force-move main and switch to it. The code does
    not do that on a branch whose name is [main] followed by white space
    that git accepts in a name, such as a no-break space: [trim], meant to
    drop the end of the line, drops that character too, the name compares
    equal to [main], and the normaliser runs no strategy, prints the
    completion line and leaves HEAD on that branch, with no branch main. *)
Theorem branch_main_nbsp_is_taken_for_main :
  HEAD Sample.on_main_nbsp = Attached Sample.main_nbsp
  ∧ Sample.main_nbsp ≠ main_branch
  ∧ commands (ensureMainBranchFromCurrentState Sample.plain_host
                (clone_target Sample.no_selector) (clone_targetType Sample.no_selector))
      (Sample.world_of Sample.on_main_nbsp)
    = [SymbolicRefShortHEAD]
  ∧ emitted (ensureMainBranchFromCurrentState Sample.plain_host
               (clone_target Sample.no_selector) (clone_targetType Sample.no_selector))
      (Sample.world_of Sample.on_main_nbsp)
    = [(Log, MainBranchSetupComplete)]
  ∧ w_repo (snd (ensureMainBranchFromCurrentState Sample.plain_host
                   (clone_target Sample.no_selector)
                   (clone_targetType Sample.no_selector)
                   (Sample.world_of Sample.on_main_nbsp)))
    = Sample.on_main_nbsp
  ∧ heads Sample.on_main_nbsp !! main_branch = None.
Proof.
  split; [reflexivity|].
  split; [intros H; vm_compute in H; discriminate H|].
  vm_compute. done.
Qed.

(** ** Update-Metadata Stamper *)

Lemma props_get_set_eq k v ps : props_get k (props_set k v ps) = v.
Proof.
  induction ps as [|[k' v'] ps IH]; cbn [props_set props_get].
  - by rewrite (proj2 (eqb_true k k) eq_refl).
  - destruct (eqb k k') eqn:E; cbn [props_get].
    + by rewrite (proj2 (eqb_true k k) eq_refl).
    + by rewrite E.
Qed.

Lemma props_get_set_ne k k' v ps :
  eqb k k' = false → props_get k (props_set k' v ps) = props_get k ps.
Proof.
  intros Hne. induction ps as [|[k'' v''] ps IH]; cbn [props_set props_get].
  - by rewrite Hne.
  - destruct (eqb k' k'') eqn:E; cbn [props_get].
    + apply eqb_true in E as <-. by rewrite Hne.
    + by rewrite IH.
Qed.

(** The version recorded: the selector's own text when it has one,
    otherwise the first seven code units of the id of HEAD; the query for
    that id is the only step that can fail, and then the value stays
    "unknown". *)
Lemma installedVersion_of_spec h o w :
  ∃ v w',
    installedVersion_of h o w = (Ret v, w')
    ∧ w_fs w' = w_fs w
    ∧ (truthy (hash o) = true → v = hash o)
    ∧ (truthy (hash o) = false → truthy (tag o) = true → v = tag o)
    ∧ (truthy (hash o) = false → truthy (tag o) = false →
       truthy (version o) = true → version o ≠ Str js:"latest" → v = version o)
    ∧ (truthy (hash o) = false → truthy (tag o) = false →
       truthy (version o) = false ∨ version o = Str js:"latest" →
       (∀ c, head_rev (w_repo w) = Some c → no_ws c = true →
             v = Str (take 7 c))
       ∧ (head_rev (w_repo w) = None → v = Str js:"unknown")).
Proof.
  assert (Hlatest : ∀ x, is_str (Str js:"latest") x = true ↔ x = js:"latest").
  { intros x. unfold is_str. rewrite bool_decide_eq_true. split; congruence. }
  unfold installedVersion_of.
  destruct (truthy (hash o)) eqn:Hh.
  { eexists _, _. split; [reflexivity|]. do 5 (split; [done|]). done. }
  destruct (truthy (tag o)) eqn:Ht.
  { eexists _, _. split; [reflexivity|]. do 5 (split; [done|]). done. }
  destruct (truthy (version o) && negb (is_str (version o) js:"latest")) eqn:Hv.
  { eexists _, _. split; [reflexivity|]. do 4 (split; [done|]).
    intros _ _ [Hf|Hl]; exfalso.
    - by rewrite Hf in Hv.
    - rewrite Hl in Hv. by rewrite (proj2 (Hlatest _) eq_refl) in Hv. }
  assert (Hnot : truthy (version o) = true → version o ≠ Str js:"latest" → False).
  { intros Htr Hne. rewrite Htr in Hv. unfold is_str in Hv.
    rewrite bool_decide_eq_false_2 in Hv by done. discriminate Hv. }
  munfold. rewrite attempt_rev_parse.
  destruct (head_rev (w_repo w)) as [c|] eqn:Hrev; mred.
  - eexists _, _. split; [reflexivity|]. do 3 (split; [done|]).
    split; [intros _ _ Htr Hne; by destruct (Hnot Htr Hne)|].
    intros _ _ _. split; [|done].
    intros c' [= <-] Hws. by rewrite (trim_line c Hws).
  - eexists _, _. split; [reflexivity|]. do 3 (split; [done|]).
    split; [intros _ _ Htr Hne; by destruct (Hnot Htr Hne)|].
    intros _ _ _. split; [done|]. done.
Qed.

(** C10. Without a manifest at the destination the stamper does nothing:
    it returns normally and the files, the working copy, the console and
    the command trace are as they were. *)
Theorem updatePackageJson_without_manifest (J : json_codec) (h : host)
    (targetPath name : list N) (o : options) (w : world) :
  w_fs w !! path_join targetPath js:"package.json" = None →
  updatePackageJson J h targetPath name o w = (Ret tt, w).
Proof.
  intros Hnone. unfold updatePackageJson, existsSync. unfold bind at 1.
  rewrite Hnone. rewrite bool_decide_eq_false_2 by (by intros [? ?]).
  reflexivity.
Qed.

(** C5. With a manifest that parses to an object, the stamper writes the
    manifest back with an [aetherCMS] member that holds the template's own
    name, version and repository, the time, the three selector fields as
    they were given, and [installedVersion]: the hash if one was given,
    else the tag if one was given, else the version if one was given and is
    not "latest", else the first seven characters of the id of HEAD. *)
Theorem updatePackageJson_records_version (J : json_codec) (h : host)
    (targetPath name : list N) (o : options) (w : world)
    (text : list N) (pkg : list (list N * json)) :
  w_fs w !! path_join targetPath js:"package.json" = Some (File text) →
  JSON_parse J text = Some (JObj pkg) →
  scripts_ok pkg = true →
  ∃ v pkg',
    fst (updatePackageJson J h targetPath name o w) = Ret tt
    ∧ w_fs (snd (updatePackageJson J h targetPath name o w))
        !! path_join targetPath js:"package.json"
      = Some (File (JSON_stringify J (JObj pkg')))
    ∧ props_get js:"aetherCMS" pkg'
      = JObj [ (js:"templateName", props_get js:"name" pkg);
               (js:"templateVersion", props_get js:"version" pkg);
               (js:"templateRepository", props_get js:"repository" pkg);
               (js:"installedVersion", json_of v);
               (js:"installedAt", JStr (clock h));
               (js:"installedFrom", JStr js:"create-aether-cms");
               (js:"installOptions",
                JObj [ (js:"version", json_of (version o));
                       (js:"tag", json_of (tag o));
                       (js:"hash", json_of (hash o)) ]) ]
    ∧ (truthy (hash o) = true → v = hash o)
    ∧ (truthy (hash o) = false → truthy (tag o) = true → v = tag o)
    ∧ (truthy (hash o) = false → truthy (tag o) = false →
       truthy (version o) = true → version o ≠ Str js:"latest" → v = version o)
    ∧ (truthy (hash o) = false → truthy (tag o) = false →
       truthy (version o) = false ∨ version o = Str js:"latest" →
       ∀ c, head_rev (w_repo w) = Some c → no_ws c = true →
            v = Str (take 7 c)).
Proof.
  intros Hfile Hparse Hscripts.
  destruct (installedVersion_of_spec h o w) as (v & w' & Ev & Hfs & H1 & H2 & H3 & H4).
  assert (Hfile' : w_fs w' !! path_join targetPath js:"package.json" = Some (File text))
    by (by rewrite Hfs).
  set (p := path_join targetPath js:"package.json") in *.
  remember (JObj [ (js:"templateName", props_get js:"name" pkg);
                      (js:"templateVersion", props_get js:"version" pkg);
                      (js:"templateRepository", props_get js:"repository" pkg);
                      (js:"installedVersion", json_of v);
                      (js:"installedAt", JStr (clock h));
                      (js:"installedFrom", JStr js:"create-aether-cms");
                      (js:"installOptions",
                       JObj [ (js:"version", json_of (version o));
                              (js:"tag", json_of (tag o));
                              (js:"hash", json_of (hash o)) ]) ]) as meta eqn:Emeta.
  assert (Hrun : ∃ pkg' wf,
             updatePackageJson J h targetPath name o w = (Ret tt, wf)
             ∧ w_fs wf !! p = Some (File (JSON_stringify J (JObj pkg')))
             ∧ props_get js:"aetherCMS" pkg' = meta).
  { unfold updatePackageJson. fold p.
    unfold existsSync, readFileSync, parse, writeFileSync. unfold when.
    unfold bind at 1. cbn [fst snd]. rewrite Hfile.
    rewrite bool_decide_eq_true_2 by eauto.
    unfold bind at 1. rewrite Hfile.
    unfold bind at 1. rewrite Hparse. unfold ret at 1.
    unfold bind at 1. rewrite Ev.
    repeat (progress (cbn [get_prop set_prop]; try unfold bind at 1; try unfold ret at 1)).
    unfold installOptions_of. rewrite <- Emeta.
    assert (Hget : ∀ s ps,
              props_get js:"scripts"
                (props_set js:"scripts" s
                   (props_set js:"aetherCMS" meta
                      (props_set js:"private" (JBool true)
                         (props_set js:"version" (JStr js:"0.1.0")
                            (props_set js:"name" (JStr name) ps))))) = s)
      by (intros; apply props_get_set_eq).
    assert (Hold : props_get js:"scripts"
                     (props_set js:"aetherCMS" meta
                        (props_set js:"private" (JBool true)
                           (props_set js:"version" (JStr js:"0.1.0")
                              (props_set js:"name" (JStr name) pkg))))
                   = props_get js:"scripts" pkg)
      by (by rewrite !props_get_set_ne by reflexivity).
    assert (Hmeta : ∀ s s',
              props_get js:"aetherCMS"
                (props_set js:"scripts" s
                   (props_set js:"scripts" s'
                      (props_set js:"aetherCMS" meta
                         (props_set js:"private" (JBool true)
                            (props_set js:"version" (JStr js:"0.1.0")
                               (props_set js:"name" (JStr name) pkg)))))) = meta).
    { intros s s'. rewrite !(props_get_set_ne js:"aetherCMS" js:"scripts") by reflexivity.
      apply props_get_set_eq. }
    unfold scripts_ok in Hscripts.
    rewrite Hold, Hget.
    destruct (props_get js:"scripts" pkg) as [| |[]|z|s|elems named|props] eqn:Hs;
      cbn [js_truthy negb] in Hscripts; try discriminate Hscripts;
      unfold or_default; cbn [js_truthy];
      try (destruct (z =? 0)%Z; try discriminate Hscripts);
      try (destruct (eqb s []); try discriminate Hscripts);
      cbn [negb];
      repeat (progress (cbn [get_prop set_prop]; try unfold bind at 1; try unfold ret at 1));
      unfold bind, console; rewrite Hfile'; mred;
      eexists _, _; (split; [reflexivity|]);
      (split; [cbn [w_fs set_fs printed]; apply lookup_insert_eq|]);
      apply Hmeta. }
  destruct Hrun as (pkg' & wf & Erun & Hw & Hm).
  exists v, pkg'. rewrite Erun. cbn [fst snd].
  split; [reflexivity|]. split; [exact Hw|]. split; [by rewrite Hm, Emeta|].
  do 3 (split; [assumption|]).
  intros Ha Hb Hc. apply (H4 Ha Hb Hc).
Qed.

(** * The theorems at concrete inputs *)

Lemma validateTarget_query_failure_witness :
  remote_tags Sample.plain_host = None
  ∧ fst (validateTarget Sample.plain_host (Str js:"v1.2.0") js:"tag"
           (Sample.world_of Sample.fresh_clone)) = Ret true
  ∧ emitted (validateTarget Sample.plain_host (Str js:"v1.2.0") js:"tag")
      (Sample.world_of Sample.fresh_clone)
    = [(Warn, CouldNotValidate (CommandFailed (LsRemoteTags repoUrl)))].
Proof.
  split; [reflexivity|].
  destruct (validateTarget_query_failure_is_valid Sample.plain_host
              (Str js:"v1.2.0") js:"tag" (Sample.world_of Sample.fresh_clone)
              eq_refl) as (Hret & Hwarn & _).
  split; [exact Hret|]. apply Hwarn. vm_compute. reflexivity.
Defined.

Lemma updatePackageJson_records_version_witness :
  w_fs (Sample.world_with_manifest Sample.fresh_clone)
    !! path_join Sample.project_dir js:"package.json"
    = Some (File Sample.manifest_text)
  ∧ JSON_parse Sample.codec Sample.manifest_text = Some (JObj Sample.manifest_object)
  ∧ scripts_ok Sample.manifest_object = true
  ∧ head_rev Sample.fresh_clone = Some js:"77aa2c3d4e5f60718293a4b5c6d7e8f90a1b2c3d"
  ∧ w_fs (snd (updatePackageJson Sample.codec Sample.plain_host Sample.project_dir
                 js:"my-blog" Sample.no_selector
                 (Sample.world_with_manifest Sample.fresh_clone)))
      !! path_join Sample.project_dir js:"package.json"
    = Some (File (js:"{ name: my-blog, version: 0.1.0, "
                  ++ js:"scripts: { start: node index.js, "
                  ++ js:"build: node assets/js/generate-static.js --, "
                  ++ js:"check-updates: node assets/js/check-updates.js, "
                  ++ js:"update-aether: node assets/js/update-aether.js }, "
                  ++ js:"private: true, "
                  ++ js:"aetherCMS: { templateName: aether-cms, "
                  ++ js:"templateVersion: 1.0.0, installedVersion: 77aa2c3, "
                  ++ js:"installedAt: 2025-06-01T12:00:00.000Z, "
                  ++ js:"installedFrom: create-aether-cms, "
                  ++ js:"installOptions: { version: latest, tag: null, hash: null } } }"))
  ∧ emitted (updatePackageJson Sample.codec Sample.plain_host Sample.project_dir
               js:"my-blog" Sample.no_selector)
      (Sample.world_with_manifest Sample.fresh_clone)
    = [(Log, UpdatedPackageJson js:"77aa2c3")]
  ∧ ∃ pkg',
      w_fs (snd (updatePackageJson Sample.codec Sample.plain_host Sample.project_dir
                   js:"my-blog" Sample.no_selector
                   (Sample.world_with_manifest Sample.fresh_clone)))
        !! path_join Sample.project_dir js:"package.json"
        = Some (File (JSON_stringify Sample.codec (JObj pkg')))
      ∧ props_get js:"installedVersion"
          match props_get js:"aetherCMS" pkg' with
          | JObj meta => meta
          | _ => []
          end
        = JStr js:"77aa2c3".
Proof.
  assert (H1 : w_fs (Sample.world_with_manifest Sample.fresh_clone)
                 !! path_join Sample.project_dir js:"package.json"
               = Some (File Sample.manifest_text)) by (vm_compute; reflexivity).
  assert (H2 : JSON_parse Sample.codec Sample.manifest_text
               = Some (JObj Sample.manifest_object)) by (vm_compute; reflexivity).
  assert (H3 : scripts_ok Sample.manifest_object = true) by (vm_compute; reflexivity).
  split; [exact H1|]. split; [exact H2|]. split; [exact H3|].
  destruct (updatePackageJson_records_version Sample.codec Sample.plain_host
              Sample.project_dir js:"my-blog" Sample.no_selector
              (Sample.world_with_manifest Sample.fresh_clone)
              Sample.manifest_text Sample.manifest_object H1 H2 H3)
    as (v & pkg' & _ & Hfile & Hmeta & _ & _ & _ & Hlatest).
  split; [vm_compute; reflexivity|].
  split; [vm_compute; reflexivity|].
  split; [vm_compute; reflexivity|].
  exists pkg'. split; [exact Hfile|].
  rewrite Hmeta.
  rewrite (Hlatest eq_refl eq_refl (or_intror eq_refl)
             js:"77aa2c3d4e5f60718293a4b5c6d7e8f90a1b2c3d" eq_refl eq_refl).
  vm_compute. reflexivity.
Defined.

Lemma detached_head_ladder_witness :
  HEAD (w_repo (Sample.world_of Sample.detached_no_main)) = Detached Sample.tag_rev
  ∧ no_ws Sample.tag_rev = true
  ∧ commands (ensureMainBranchFromCurrentState Sample.old_git_host
                (Str js:"v1.2.0") js:"tag")
      (Sample.world_of Sample.detached_no_main)
    = [SymbolicRefShortHEAD; SwitchCreate main_branch; CheckoutCreate main_branch]
  ∧ HEAD (w_repo (snd (ensureMainBranchFromCurrentState Sample.old_git_host
                         (Str js:"v1.2.0") js:"tag"
                         (Sample.world_of Sample.detached_no_main))))
    = Attached main_branch.
Proof.
  assert (H2 : no_ws Sample.tag_rev = true) by (vm_compute; reflexivity).
  split; [reflexivity|]. split; [exact H2|].
  destruct (detached_head_ladder Sample.old_git_host (Str js:"v1.2.0") js:"tag"
              (Sample.world_of Sample.detached_no_main) Sample.tag_rev eq_refl H2)
    as (_ & _ & Hc & Hr & _ & Hs).
  split.
  - rewrite Hc. vm_compute. reflexivity.
  - rewrite Hr. apply Hs. vm_compute. reflexivity.
Defined.

Lemma updatePackageJson_without_manifest_witness :
  w_fs (Sample.world_of Sample.fresh_clone)
    !! path_join Sample.project_dir js:"package.json" = None
  ∧ updatePackageJson Sample.codec Sample.plain_host Sample.project_dir
      js:"my-blog" Sample.no_selector (Sample.world_of Sample.fresh_clone)
    = (Ret tt, Sample.world_of Sample.fresh_clone).
Proof.
  assert (H1 : w_fs (Sample.world_of Sample.fresh_clone)
                 !! path_join Sample.project_dir js:"package.json" = None)
    by (vm_compute; reflexivity).
  split; [exact H1|].
  exact (updatePackageJson_without_manifest Sample.codec Sample.plain_host
           Sample.project_dir js:"my-blog" Sample.no_selector
           (Sample.world_of Sample.fresh_clone) H1).
Defined.

(** * Further properties *)

(** ** Argument parsing *)

Lemma parse_from_scan fuel args i o :
  (length args ≤ i + fuel)%nat →
  parse_from fuel args i o = scan (drop i args) o.
Proof.
  revert i o. induction fuel as [|fuel IH]; intros i o Hlen.
  - cbn [parse_from]. rewrite drop_ge by lia. reflexivity.
  - cbn [parse_from].
    destruct (args !! i) as [arg|] eqn:Harg.
    2:{ apply lookup_ge_None in Harg. rewrite drop_ge by lia. reflexivity. }
    pose proof (lookup_lt_Some _ _ _ Harg) as Hi.
    rewrite (drop_S _ _ _ Harg). cbn [scan].
    assert (Hnext : ∀ o', parse_from fuel args (S i) o' = scan (drop (S i) args) o')
      by (intros o'; apply IH; lia).
    assert (Hskip : ∀ o' v rest', drop (S i) args = v :: rest' →
              arg_at args (S i) = Str v
              ∧ parse_from fuel args (S (S i)) o' = scan rest' o').
    { intros o' v rest' Hd.
      assert (Hv : args !! S i = Some v).
      { rewrite <- (Nat.add_0_r (S i)), <- lookup_drop, Hd. reflexivity. }
      split; [unfold arg_at; by rewrite Hv|].
      rewrite IH by lia. by rewrite (drop_S _ _ _ Hv) in Hd; injection Hd as <-. }
    assert (Hend : drop (S i) args = [] →
              arg_at args (S i) = Undefined
              ∧ ∀ o', parse_from fuel args (S (S i)) o' = o').
    { intros Hd. apply (f_equal length) in Hd. rewrite length_drop in Hd. cbn in Hd.
      assert (Hn : args !! S i = None) by (apply lookup_ge_None; lia).
      split; [unfold arg_at; by rewrite Hn|].
      intros o'. rewrite IH by lia. rewrite drop_ge by lia. reflexivity. }
    destruct (is_help_flag arg); [apply Hnext|].
    destruct (is_version_flag arg).
    { destruct (drop (S i) args) as [|v rest'] eqn:Hd.
      - destruct (Hend eq_refl) as [-> ->]. reflexivity.
      - destruct (Hskip (set_version (Str v) o) v rest' eq_refl) as [-> ->]. reflexivity. }
    destruct (is_tag_flag arg).
    { destruct (drop (S i) args) as [|v rest'] eqn:Hd.
      - destruct (Hend eq_refl) as [-> ->]. reflexivity.
      - destruct (Hskip (set_tag (Str v) o) v rest' eq_refl) as [-> ->]. reflexivity. }
    destruct (is_hash_flag arg).
    { destruct (drop (S i) args) as [|v rest'] eqn:Hd.
      - destruct (Hend eq_refl) as [-> ->]. reflexivity.
      - destruct (Hskip (set_hash (Str v) o) v rest' eq_refl) as [-> ->]. reflexivity. }
    destruct (negb (truthy (projectName o))); apply Hnext.
Qed.

Lemma parseArguments_scan args : parseArguments args = scan args default_options.
Proof. unfold parseArguments. by rewrite parse_from_scan by lia. Qed.

(** Induction along [scan]: one or two arguments at a time. *)
Lemma pair_induction {A} (P : list A → Prop) :
  P [] → (∀ x, P [x]) → (∀ x y l, P l → P (y :: l) → P (x :: y :: l)) →
  ∀ l, P l.
Proof.
  intros H0 H1 H2 l.
  enough (P l ∧ ∀ x, P (x :: l)) by tauto.
  induction l as [|y l [IH1 IH2]]; split; auto.
Qed.

Lemma scan_cons x rest o :
  scan (x :: rest) o =
    if is_help_flag x then scan rest (set_help true o)
    else if is_version_flag x then
      match rest with
      | [] => set_version Undefined o
      | v :: rest' => scan rest' (set_version (Str v) o)
      end
    else if is_tag_flag x then
      match rest with
      | [] => set_tag Undefined o
      | v :: rest' => scan rest' (set_tag (Str v) o)
      end
    else if is_hash_flag x then
      match rest with
      | [] => set_hash Undefined o
      | v :: rest' => scan rest' (set_hash (Str v) o)
      end
    else if negb (truthy (projectName o)) then scan rest (set_projectName (Str x) o)
    else scan rest o.
Proof. reflexivity. Qed.

Lemma scan_app a b o :
  complete a = true → scan (a ++ b) o = scan b (scan a o).
Proof.
  revert o. induction a as [|x|x y l IH1 IH2] using pair_induction; intros o.
  - reflexivity.
  - cbn [complete scan app]. unfold takes_value.
    destruct (is_help_flag x); [done|].
    destruct (is_version_flag x); [discriminate|].
    destruct (is_tag_flag x); [discriminate|].
    destruct (is_hash_flag x); [discriminate|].
    cbn [orb]. by destruct (negb _).
  - change (complete (x :: y :: l)) with
      (if is_help_flag x then complete (y :: l)
       else if takes_value x then complete l else complete (y :: l)).
    change ((x :: y :: l) ++ b) with (x :: (y :: l) ++ b).
    rewrite !(scan_cons x). unfold takes_value.
    destruct (is_help_flag x); [apply IH2|].
    destruct (is_version_flag x); [apply IH1|].
    destruct (is_tag_flag x); [apply IH1|].
    destruct (is_hash_flag x); [apply IH1|].
    cbn [orb]. destruct (negb _); apply IH2.
Qed.

Lemma scan_keeps_selectors args o :
  Forall (fun a => takes_value a = false) args →
  version (scan args o) = version o ∧ tag (scan args o) = tag o
  ∧ hash (scan args o) = hash o.
Proof.
  intros H. revert o. induction H as [|x l Hx _ IH]; intros o; [done|].
  cbn [scan]. unfold takes_value in Hx.
  apply orb_false_iff in Hx as [Hx Hh]. apply orb_false_iff in Hx as [Hv Ht].
  rewrite Hv, Ht, Hh.
  destruct (is_help_flag x); [apply (IH (set_help true o))|].
  destruct (negb _); [apply (IH (set_projectName (Str x) o))|apply IH].
Qed.

Lemma scan_keeps_hash args o :
  Forall (fun a => is_hash_flag a = false) args → hash (scan args o) = hash o.
Proof.
  revert o. induction args as [|x|x y l IH1 IH2] using pair_induction;
    intros o H; [done| |].
  - apply Forall_cons in H as [Hx _]. cbn [scan]. rewrite Hx.
    by repeat (case_match; try done).
  - pose proof H as H'. apply Forall_cons in H' as [Hx Hyl].
    pose proof Hyl as Hyl'. apply Forall_cons in Hyl' as [Hy Hl].
    rewrite (scan_cons x). rewrite Hx.
    destruct (is_help_flag x); [by rewrite IH2|].
    destruct (is_version_flag x); [by rewrite IH1|].
    destruct (is_tag_flag x); [by rewrite IH1|].
    destruct (negb _); by rewrite IH2.
Qed.

Lemma scan_keeps_name args o :
  truthy (projectName o) = true → projectName (scan args o) = projectName o.
Proof.
  revert o. induction args as [|x|x y l IH1 IH2] using pair_induction;
    intros o H; [done| |].
  - cbn [scan]. rewrite H. by repeat (case_match; try done).
  - rewrite (scan_cons x). rewrite H. cbn [negb].
    destruct (is_help_flag x); [by rewrite IH2|].
    destruct (is_version_flag x); [by rewrite IH1|].
    destruct (is_tag_flag x); [by rewrite IH1|].
    destruct (is_hash_flag x); [by rewrite IH1|].
    by rewrite IH2.
Qed.

Lemma value_flag_not_help f : takes_value f = true → is_help_flag f = false.
Proof.
  unfold takes_value, is_version_flag, is_tag_flag, is_hash_flag.
  rewrite !orb_true_iff, !eqb_true.
  intros [[[-> | ->] | [-> | ->]] | [-> | ->]]; reflexivity.
Qed.

Lemma flags_disjoint f :
  (is_version_flag f = true → is_tag_flag f = false ∧ is_hash_flag f = false)
  ∧ (is_tag_flag f = true → is_version_flag f = false ∧ is_hash_flag f = false)
  ∧ (is_hash_flag f = true → is_version_flag f = false ∧ is_tag_flag f = false).
Proof.
  unfold is_version_flag, is_tag_flag, is_hash_flag.
  rewrite !orb_true_iff, !eqb_true.
  split; [|split]; intros [-> | ->]; split; reflexivity.
Qed.

Lemma main_target_gate_unchecked h o w :
  is_str (target (determineTarget o)) js:"latest" = true
  ∨ targetType (determineTarget o) = js:"hash" →
  main_target_gate h o w = (Ret (determineTarget o), w).
Proof.
  intros H. unfold main_target_gate, when.
  destruct (is_str (target (determineTarget o)) js:"latest") eqn:Hl; [reflexivity|].
  destruct H as [H|H]; [discriminate|].
  cbn [negb]. unfold bind.
  rewrite validateTarget_unchecked; [reflexivity|].
  rewrite H. reflexivity.
Qed.

(** X1. A command line without [--version], [--tag], [--hash] (or their
    aliases) selects latest, and [main] goes on without asking the remote
    anything. *)
Theorem no_selector_flag_means_latest (args : list (list N)) (h : host) (w : world) :
  Forall (fun a => takes_value a = false) args →
  determineTarget (parseArguments args)
    = {| targetType := js:"latest"; target := Str js:"latest" |}
  ∧ main_target_gate h (parseArguments args) w
    = (Ret {| targetType := js:"latest"; target := Str js:"latest" |}, w).
Proof.
  intros H. rewrite parseArguments_scan.
  destruct (scan_keeps_selectors args default_options H) as (Hv & Ht & Hh).
  assert (E : determineTarget (scan args default_options)
              = {| targetType := js:"latest"; target := Str js:"latest" |}).
  { unfold determineTarget. rewrite Hh, Ht, Hv. reflexivity. }
  split; [exact E|].
  rewrite main_target_gate_unchecked; [by rewrite E|]. left. by rewrite E.
Qed.

(** X2. A [--hash] (or [--commit]) flag that is followed by a non-empty
    value, and by no later hash flag, decides the target whatever else the
    command line holds; [main] then skips the remote existence check. *)
Theorem hash_flag_decides_target (a b : list (list N)) (f v : list N)
    (h : host) (w : world) :
  complete a = true → is_hash_flag f = true → v ≠ [] →
  Forall (fun x => is_hash_flag x = false) b →
  determineTarget (parseArguments (a ++ f :: v :: b))
    = {| targetType := js:"hash"; target := Str v |}
  ∧ main_target_gate h (parseArguments (a ++ f :: v :: b)) w
    = (Ret {| targetType := js:"hash"; target := Str v |}, w).
Proof.
  intros Ha Hf Hv Hb. rewrite parseArguments_scan, scan_app by done.
  assert (Hhelp : is_help_flag f = false).
  { apply value_flag_not_help. unfold takes_value. by rewrite Hf, !orb_true_r. }
  destruct (flags_disjoint f) as (_ & _ & Hd). destruct (Hd Hf) as [Hnv Hnt].
  cbn [scan]. rewrite Hhelp, Hnv, Hnt, Hf.
  assert (Hh : hash (scan b (set_hash (Str v) (scan a default_options))) = Str v)
    by (by rewrite scan_keeps_hash).
  assert (E : determineTarget (scan b (set_hash (Str v) (scan a default_options)))
              = {| targetType := js:"hash"; target := Str v |}).
  { unfold determineTarget. rewrite Hh. by destruct v. }
  split; [exact E|].
  rewrite main_target_gate_unchecked; [by rewrite E|]. right. by rewrite E.
Qed.

(** X3. A flag that takes a value and comes last stores [undefined]; the
    rest of the options is what the arguments before it give, and the
    resolver never selects the field that was left without a value. *)
Theorem trailing_flag_stores_undefined (a : list (list N)) (f : list N) :
  complete a = true →
  (is_version_flag f = true →
   parseArguments (a ++ [f]) = set_version Undefined (parseArguments a)
   ∧ targetType (determineTarget (parseArguments (a ++ [f]))) ≠ js:"version")
  ∧ (is_tag_flag f = true →
     parseArguments (a ++ [f]) = set_tag Undefined (parseArguments a)
     ∧ targetType (determineTarget (parseArguments (a ++ [f]))) ≠ js:"tag")
  ∧ (is_hash_flag f = true →
     parseArguments (a ++ [f]) = set_hash Undefined (parseArguments a)
     ∧ targetType (determineTarget (parseArguments (a ++ [f]))) ≠ js:"hash").
Proof.
  intros Ha. rewrite !parseArguments_scan, scan_app by done.
  destruct (flags_disjoint f) as (Hdv & Hdt & Hdh).
  set (o := scan a default_options).
  split; [|split]; intros H.
  - assert (E : scan [f] o = set_version Undefined o).
    { cbn [scan]. rewrite value_flag_not_help by (unfold takes_value; by rewrite H).
      by rewrite H. }
    rewrite E. split; [reflexivity|].
    unfold determineTarget. cbn [hash tag version set_version truthy andb].
    repeat case_match; intros E'; vm_compute in E'; discriminate E'.
  - destruct (Hdt H) as [Hnv _].
    assert (E : scan [f] o = set_tag Undefined o).
    { cbn [scan].
      rewrite value_flag_not_help by (unfold takes_value; by rewrite H, !orb_true_r).
      by rewrite Hnv, H. }
    rewrite E. split; [reflexivity|].
    unfold determineTarget. cbn [hash tag version set_tag truthy andb].
    repeat case_match; intros E'; vm_compute in E'; discriminate E'.
  - destruct (Hdh H) as [Hnv Hnt].
    assert (E : scan [f] o = set_hash Undefined o).
    { cbn [scan].
      rewrite value_flag_not_help by (unfold takes_value; by rewrite H, !orb_true_r).
      by rewrite Hnv, Hnt, H. }
    rewrite E. split; [reflexivity|].
    unfold determineTarget. cbn [hash tag version set_hash truthy andb].
    repeat case_match; intros E'; vm_compute in E'; discriminate E'.
Qed.

(** X4. The project name is the first non-empty argument that is neither a
    flag nor the value of a flag; once it is set, nothing later on the
    command line changes it. *)
Theorem project_name_is_first_positional (a b : list (list N)) (p : list N) :
  complete a = true →
  truthy (projectName (parseArguments a)) = false →
  is_help_flag p = false → takes_value p = false → p ≠ [] →
  projectName (parseArguments (a ++ p :: b)) = Str p.
Proof.
  intros Ha Hn Hh Hv Hp. rewrite !parseArguments_scan in *. rewrite scan_app by done.
  cbn [scan]. unfold takes_value in Hv.
  apply orb_false_iff in Hv as [Hv Hhs]. apply orb_false_iff in Hv as [Hv Ht].
  rewrite Hh, Hv, Ht, Hhs, Hn. cbn [negb].
  rewrite scan_keeps_name; [reflexivity|]. by destruct p.
Qed.

(** ** Project names *)

Lemma trim_no_ws s : no_ws s = true → trim s = s.
Proof.
  intros H. destruct s as [|c s]; [reflexivity|].
  unfold trim, trimEnd.
  pose proof (trimStart_no_ws (c :: s) [] H) as E1. rewrite app_nil_r in E1.
  rewrite E1 by done.
  assert (Hr : no_ws (reverse (c :: s)) = true) by by rewrite no_ws_reverse.
  assert (Hne : reverse (c :: s) ≠ []).
  { intros E. apply (f_equal reverse) in E. by rewrite reverse_involutive in E. }
  pose proof (trimStart_no_ws (reverse (c :: s)) [] Hr Hne) as E2.
  rewrite app_nil_r in E2. rewrite E2. apply reverse_involutive.
Qed.

Lemma name_char_not_ws c : name_char c = true → is_ws c = false.
Proof.
  unfold name_char, is_ws. intros H. apply not_true_is_false. intros W.
  rewrite ?orb_true_iff, ?andb_true_iff, ?N.leb_le, ?N.eqb_eq in H.
  rewrite ?orb_true_iff, ?andb_true_iff, ?N.leb_le, ?N.eqb_eq in W. lia.
Qed.

Lemma forallb_occurs {P : N → bool} s t :
  forallb P s = true → includes s t = true → forallb P t = true.
Proof.
  intros Hs Ht. apply includes_occurs in Ht as (pre & post & ->).
  rewrite !forallb_app in Hs. by repeat (apply andb_true_iff in Hs as [? Hs]).
Qed.

(** X5. A name that [validateProjectName] accepts is not empty, has no
    white space (trimming leaves it as it is), and every piece of it is
    made of letters, digits, hyphens and underscores: it contains no path
    separator, no dot and no blank. *)
Theorem valid_project_name_is_one_path_component (s : list N) :
  validateProjectName s = true →
  s ≠ [] ∧ trim s = s
  ∧ (∀ t, includes s t = true → forallb name_char t = true)
  ∧ includes s js:"/" = false ∧ includes s js:"\" = false
  ∧ includes s js:"." = false ∧ includes s js:" " = false.
Proof.
  intros H.
  assert (Hne : s ≠ []) by (by destruct s).
  assert (Hall : forallb name_char s = true) by (by destruct s).
  assert (Hsub : ∀ t, includes s t = true → forallb name_char t = true)
    by (intros t; by apply forallb_occurs).
  split; [exact Hne|]. split.
  { apply trim_no_ws. unfold no_ws. apply forallb_forall. intros c Hc.
    rewrite forallb_forall in Hall. by rewrite (name_char_not_ws c (Hall c Hc)). }
  split; [exact Hsub|].
  repeat split; apply not_true_is_false; intros E; apply Hsub in E;
    vm_compute in E; discriminate E.
Qed.

(** ** Remote Existence Checker, further *)

(** X6. A tag that the listing names, with or without the dereference
    marker, is always accepted: the checker answers [true], prints nothing
    and has run the remote query only. *)
Theorem listed_tag_is_accepted (h : host) (name type : list N) (w : world)
    (tags : list N) :
  eqb type js:"hash" || is_str (Str name) js:"latest" = false →
  remote_tags h = Some tags →
  tag_exists_exactly tags name = true →
  validateTarget h (Str name) type w = (Ret true, traced (LsRemoteTags repoUrl) w).
Proof.
  intros Hs Hq Hex. apply (validateTarget_found h (Str name) type w tags Hs Hq).
  by apply exact_tag_is_accepted.
Qed.

Lemma validateTarget_missing_run h tgt type w tags :
  eqb type js:"hash" || is_str tgt js:"latest" = false →
  remote_tags h = Some tags →
  includes tags (js:"refs/tags/" ++ to_string tgt) = false →
  ∃ w', validateTarget h tgt type w = (Ret false, w')
        ∧ w_repo w' = w_repo w ∧ w_fs w' = w_fs w
        ∧ w_trace w' = w_trace w ++ [LsRemoteTags repoUrl].
Proof.
  intros Hs Hq Hin. unfold validateTarget. rewrite Hs.
  mrun. rewrite attempt_ls_remote, Hq. rewrite Hin. mred.
  destruct (available_tags tags) as [|a av] eqn:Hav.
  - change (0 <? length [])%nat with false. mred. eauto.
  - change (0 <? length (a :: av))%nat with true. mred.
    rewrite forEach_console. mred.
    destruct (10 <? length (a :: av))%nat; mred; eauto.
Qed.

(** X7. Whatever the target, the kind and the state of the remote, the
    checker returns a boolean: it never throws and never ends the process;
    it leaves the working copy and the files alone and runs at most the one
    remote query. It answers [false] only when the listing was obtained and
    does not contain the reference. *)
Theorem validateTarget_only_reads (h : host) (tgt : jsval) (type : list N)
    (w : world) :
  ∃ b,
    fst (validateTarget h tgt type w) = Ret b
    ∧ w_repo (snd (validateTarget h tgt type w)) = w_repo w
    ∧ w_fs (snd (validateTarget h tgt type w)) = w_fs w
    ∧ (commands (validateTarget h tgt type) w = []
       ∨ commands (validateTarget h tgt type) w = [LsRemoteTags repoUrl])
    ∧ (b = false →
       ∃ tags, remote_tags h = Some tags
               ∧ includes tags (js:"refs/tags/" ++ to_string tgt) = false).
Proof.
  unfold commands.
  destruct (eqb type js:"hash" || is_str tgt js:"latest") eqn:Hs.
  { rewrite validateTarget_unchecked by done. exists true. cbn [fst snd].
    rewrite drop_all. repeat split; auto. discriminate. }
  destruct (remote_tags h) as [tags|] eqn:Hq.
  - destruct (includes tags (js:"refs/tags/" ++ to_string tgt)) eqn:Hin.
    + rewrite (validateTarget_found _ _ _ _ tags) by done. exists true.
      cbn [fst snd w_repo w_fs w_trace traced]. rewrite drop_app_length.
      repeat split; auto. discriminate.
    + destruct (validateTarget_missing_run h tgt type w tags Hs Hq Hin)
        as (w' & E & Hr & Hf & Ht).
      rewrite E. exists false. cbn [fst snd]. rewrite Ht, drop_app_length.
      repeat split; eauto.
  - rewrite validateTarget_query_fails by done. exists true.
    cbn [fst snd w_repo w_fs w_trace traced printed]. rewrite drop_app_length.
    repeat split; auto. discriminate.
Qed.

Lemma match_tag_unfold line :
  match_tag line =
    match
      match strip_prefix js:"refs/tags/" line with
      | Some (c :: rest) =>
          if forallb (fun x => negb (is_line_terminator x)) (c :: rest)
          then Some (c :: rest) else None
      | _ => None
      end
    with
    | Some t => Some t
    | None =>
        match line with
        | [] => None
        | _ :: line' => match_tag line'
        end
    end.
Proof. by destruct line. Qed.



(** X9. On a line of the listing's format, an object id and a tab (no
    letter r before the reference) followed by [refs/tags/] and a
    non-empty name without line terminators, the regular expression
    captures exactly the name. *)
Theorem match_tag_reads_listing_line (pre name : list N) :
  Forall (fun c => c ≠ 114) pre →
  name ≠ [] →
  forallb (fun x => negb (is_line_terminator x)) name = true →
  match_tag (pre ++ js:"refs/tags/" ++ name) = Some name.
Proof.
  intros Hpre Hne Hlt. induction Hpre as [|c pre Hc _ IH].
  - rewrite match_tag_unfold.
    rewrite (proj2 (strip_prefix_Some js:"refs/tags/" ([] ++ js:"refs/tags/" ++ name) name)
               eq_refl).
    destruct name as [|c r]; [done|]. by rewrite Hlt.
  - rewrite match_tag_unfold.
    assert (E : strip_prefix js:"refs/tags/" ((c :: pre) ++ js:"refs/tags/" ++ name) = None).
    { change (strip_prefix js:"refs/tags/" ((c :: pre) ++ js:"refs/tags/" ++ name))
        with (if 114 =? c
              then strip_prefix js:"efs/tags/" (pre ++ js:"refs/tags/" ++ name)
              else None).
      destruct (N.eqb_spec 114 c); [congruence|reflexivity]. }
    rewrite E. exact IH.
Qed.

(** ** Frames *)

Lemma keeps_files_ret {A} (a : A) : keeps_files (ret a).
Proof. by intros w. Qed.

Lemma keeps_files_throw {A} e : keeps_files (@throw A e).
Proof. by intros w. Qed.

Lemma keeps_files_console l m : keeps_files (console l m).
Proof. by intros w. Qed.

Lemma keeps_files_exec h c : keeps_files (execSync h c).
Proof. intros w. unfold execSync. by destruct (attempt h c (w_repo w)) as [[? ?]|]. Qed.

Lemma keeps_files_bind {A B} (m : M A) (k : A → M B) :
  keeps_files m → (∀ a, keeps_files (k a)) → keeps_files (bind m k).
Proof.
  intros Hm Hk w. unfold bind. specialize (Hm w).
  destruct (m w) as [[a|e|n] w1]; cbn [snd] in *; [|done|done].
  by rewrite Hk.
Qed.

Lemma keeps_files_try {A} (m : M A) (hd : exn → M A) :
  keeps_files m → (∀ e, keeps_files (hd e)) → keeps_files (try_catch m hd).
Proof.
  intros Hm Hh w. unfold try_catch. specialize (Hm w).
  destruct (m w) as [[a|e|n] w1]; cbn [snd] in *; [done| |done].
  by rewrite Hh.
Qed.

Lemma keeps_files_when b (m : M unit) : keeps_files m → keeps_files (when b m).
Proof. intros Hm. destruct b; [exact Hm|apply keeps_files_ret]. Qed.

Lemma keeps_files_if {A} (b : bool) (m1 m2 : M A) :
  keeps_files m1 → keeps_files m2 → keeps_files (if b then m1 else m2).
Proof. by destruct b. Qed.

Lemma keeps_files_forEach {A} (xs : list A) (f : A → M unit) :
  (∀ x, keeps_files (f x)) → keeps_files (forEach xs f).
Proof.
  intros Hf. induction xs as [|x xs IH]; cbn [forEach].
  - apply keeps_files_ret.
  - apply keeps_files_bind; [apply Hf|intros _; exact IH].
Qed.

Ltac keeps_files_tac :=
  repeat first
    [ match goal with |- ∀ _, _ => intros ? end
    | apply keeps_files_console
    | apply keeps_files_ret
    | apply keeps_files_throw
    | apply keeps_files_exec
    | apply keeps_files_bind
    | apply keeps_files_try
    | apply keeps_files_when
    | apply keeps_files_forEach
    | apply keeps_files_if ].

Lemma ensureMainBranch_keeps_files h tgt tty :
  keeps_files (ensureMainBranchFromCurrentState h tgt tty).
Proof.
  unfold ensureMainBranchFromCurrentState, ensureMainBranch_body,
    createMainBranchFromCurrent, strategy_switch, strategy_checkout, strategy_manual.
  cbn [run_strategies]. keeps_files_tac.
Qed.

Lemma setupGitRepository_keeps_files h :
  typed_url_is_word h = true → keeps_files (setupGitRepository h).
Proof.
  intros Hword.
  unfold setupGitRepository, configure_upstream, connect_own_repository.
  cbv zeta.
  destruct (lower_is_y (answer h ConnectOwnRepo)) eqn:Hy;
    destruct (negb (eqb (trim (answer h EnterRepoUrl)) [])) eqn:Hne;
    rewrite ?(execSync_typed_word h _ _ (typed_url_word h Hword Hy Hne));
    keeps_files_tac.
Qed.

#[global] Instance only_main_moves_preorder : PreOrder only_main_moves.
Proof.
  split.
  - by intros r.
  - intros r1 r2 r3 (Hr & Hc & Hh) (Hr' & Hc' & Hh').
    split; [congruence|]. split; [congruence|].
    intros b Hb. by rewrite Hh', Hh.
Qed.

Lemma touches_main_only_effect h c r out r' :
  touches_main_only c = true →
  attempt h c r = Some (out, r') → only_main_moves r r'.
Proof.
  intros Hc H. apply attempt_git in H.
  assert (Hins : ∀ x, only_main_moves r (set_heads (<[main_branch:=x]> (heads r)) r)).
  { intros x. split; [done|]. split; [done|]. intros b Hb.
    cbn [heads set_heads]. by apply lookup_insert_ne. }
  assert (Hcreate : ∀ b, eqb b main_branch = true →
            match heads r !! b with
            | Some _ => None
            | None =>
                Some ([], set_HEAD (Attached b)
                            match head_rev r with
                            | Some c => set_heads (<[b:=c]> (heads r)) r
                            | None => r
                            end)
            end = Some (out, r') → only_main_moves r r').
  { intros b Hb E. apply eqb_true in Hb as ->.
    destruct (heads r !! main_branch); [discriminate|]. injection E as _ <-.
    destruct (head_rev r) as [x|].
    - destruct (Hins x) as (? & ? & ?). by repeat split.
    - by repeat split. }
  destruct c; cbn [touches_main_only] in Hc; try discriminate Hc; cbn [git_run] in H.
  - destruct (HEAD r); injection H as _ <-; reflexivity.
  - by apply (Hcreate b).
  - by apply (Hcreate b).
  - destruct (head_rev r); [|discriminate]. injection H as _ <-. reflexivity.
  - apply eqb_true in Hc as ->. destruct (heads r !! main_branch); [discriminate|].
    injection H as _ <-. apply Hins.
  - apply eqb_true in Hc as ->. destruct (bool_decide _); [discriminate|].
    injection H as _ <-. apply Hins.
  - destruct (heads r !! b); [|discriminate]. injection H as _ <-. by repeat split.
Qed.

Lemma ensureMainBranch_only_main_moves h tgt tty :
  preserves only_main_moves (ensureMainBranchFromCurrentState h tgt tty).
Proof.
  unfold ensureMainBranchFromCurrentState, ensureMainBranch_body,
    createMainBranchFromCurrent, strategy_switch, strategy_checkout, strategy_manual.
  cbn [run_strategies].
  assert (Hbranches : ∀ (b : bool) (m1 m2 : M unit),
            preserves only_main_moves m1 → preserves only_main_moves m2 →
            preserves only_main_moves (if b then m1 else m2))
    by (by intros []).
  repeat first
    [ match goal with
      | |- PreOrder _ => apply _
      | |- ∀ _, _ => intros ?
      | |- only_main_moves _ _ =>
          eapply touches_main_only_effect; [|eassumption]; reflexivity
      end
    | apply preserves_console
    | apply preserves_ret
    | apply preserves_bind
    | apply preserves_try
    | apply preserves_when
    | apply preserves_exec
    | apply Hbranches ].
Qed.

(** X10. The Branch Normalizer only ever touches the branch main: it
    returns normally whatever git answers, and it leaves the remotes, the
    settings, the files and every branch other than main as they were. *)
Theorem normaliser_touches_only_main (h : host) (tgt : jsval) (tty : list N)
    (w : world) :
  fst (ensureMainBranchFromCurrentState h tgt tty w) = Ret tt
  ∧ remotes (w_repo (snd (ensureMainBranchFromCurrentState h tgt tty w)))
    = remotes (w_repo w)
  ∧ config (w_repo (snd (ensureMainBranchFromCurrentState h tgt tty w)))
    = config (w_repo w)
  ∧ w_fs (snd (ensureMainBranchFromCurrentState h tgt tty w)) = w_fs w
  ∧ ∀ b, b ≠ main_branch →
      heads (w_repo (snd (ensureMainBranchFromCurrentState h tgt tty w))) !! b
      = heads (w_repo w) !! b.
Proof.
  split; [apply ensureMainBranch_returns|].
  destruct (ensureMainBranch_only_main_moves h tgt tty w) as (Hr & Hc & Hh).
  split; [exact Hr|]. split; [exact Hc|].
  split; [apply ensureMainBranch_keeps_files|exact Hh].
Qed.

(** ** Branch Normalizer, further *)

Lemma branch_main_keeps_rev h c r out r' :
  head_rev r = Some c →
  attempt h (Branch main_branch c) r = Some (out, r') →
  head_rev r' = Some c ∧ heads r' !! main_branch = Some c.
Proof.
  intros Hrev E. apply branch_effect in E as [Hm ->].
  split; [|cbn [heads set_heads]; apply lookup_insert_eq].
  unfold head_rev in *. cbn [HEAD heads set_heads].
  destruct (HEAD r) as [b|d]; [|exact Hrev].
  rewrite lookup_insert_ne; [exact Hrev|]. intros <-. congruence.
Qed.

Lemma branch_force_main_keeps_rev h c r out r' :
  head_rev r = Some c →
  attempt h (BranchForce main_branch c) r = Some (out, r') →
  head_rev r' = Some c ∧ heads r' !! main_branch = Some c.
Proof.
  intros Hrev E. apply branch_force_effect in E as [Hh ->].
  split; [|cbn [heads set_heads]; apply lookup_insert_eq].
  unfold head_rev in *. cbn [HEAD heads set_heads].
  destruct (HEAD r) as [b|d]; [|exact Hrev].
  rewrite lookup_insert_ne; [exact Hrev|]. intros <-. congruence.
Qed.

Lemma checkout_main_rev h c r out r' :
  heads r !! main_branch = Some c →
  attempt h (CheckoutBranch main_branch) r = Some (out, r') →
  HEAD r' = Attached main_branch ∧ head_rev r' = Some c.
Proof.
  intros Hm E. apply checkout_branch_effect in E as [_ ->].
  split; [reflexivity|]. unfold head_rev. cbn [HEAD set_HEAD heads]. exact Hm.
Qed.

(** X11. The Branch Normalizer never changes the revision that is checked
    out: whichever strategy it takes, and whether it succeeds or gives up,
    the revision of HEAD after it is the revision of HEAD before it. *)
Theorem normaliser_keeps_revision (h : host) (tgt : jsval) (tty : list N)
    (w : world) :
  (∀ c, head_rev (w_repo w) = Some c → no_ws c = true) →
  head_rev (w_repo (snd (ensureMainBranchFromCurrentState h tgt tty w)))
  = head_rev (w_repo w).
Proof.
  intros Hoid.
  assert (Hcreate : ∀ c out r',
            c = SwitchCreate main_branch ∨ c = CheckoutCreate main_branch →
            attempt h c (w_repo w) = Some (out, r') →
            head_rev r' = head_rev (w_repo w)).
  { intros c out r' Hc E.
    by destruct (create_and_switch_effect _ _ _ _ _ _ Hc E) as (_ & _ & ?). }
  unfold ensureMainBranchFromCurrentState, ensureMainBranch_body,
    createMainBranchFromCurrent, strategy_switch, strategy_checkout, strategy_manual.
  cbn [run_strategies]. munfold. rewrite attempt_symbolic_ref. mred.
  pose proof (attempt_rev_parse h (w_repo w)) as Hrp.
  destruct (head_rev (w_repo w)) as [c|] eqn:Hrev.
  2:{ destruct (eqb (trim _) []); [|destruct (negb _)]; mred;
      repeat (match goal with
              | |- context [attempt ?h' ?c ?r] =>
                  first [ rewrite Hrp
                        | destruct (attempt h' c r) as [[? ?]|] eqn:? ]
              end; mred);
      try reflexivity; try (eapply Hcreate; [|eassumption]; auto; fail);
      try exact Hrev. }
  destruct (eqb (trim _) []); [|destruct (negb _)]; mred.
  - destruct (attempt h (SwitchCreate main_branch) (w_repo w)) as [[o1 r1]|] eqn:E1; mred.
    { eapply Hcreate; [|eassumption]; auto. }
    destruct (attempt h (CheckoutCreate main_branch) (w_repo w)) as [[o2 r2]|] eqn:E2; mred.
    { eapply Hcreate; [|eassumption]; auto. }
    rewrite Hrp. mred. rewrite (trim_line c (Hoid c eq_refl)).
    destruct (attempt h (Branch main_branch c) (w_repo w)) as [[o3 r3]|] eqn:E3; mred;
      [|exact Hrev].
    destruct (branch_main_keeps_rev _ _ _ _ _ Hrev E3) as [Hr3 Hm3].
    destruct (attempt h (CheckoutBranch main_branch) r3) as [[o4 r4]|] eqn:E4; mred;
      [|exact Hr3].
    by destruct (checkout_main_rev _ _ _ _ _ Hm3 E4).
  - destruct (attempt h (CheckoutCreate main_branch) (w_repo w)) as [[o2 r2]|] eqn:E2; mred.
    { eapply Hcreate; [|eassumption]; auto. }
    rewrite Hrp. mred. rewrite (trim_line c (Hoid c eq_refl)).
    destruct (attempt h (BranchForce main_branch c) (w_repo w)) as [[o3 r3]|] eqn:E3; mred;
      [|exact Hrev].
    destruct (branch_force_main_keeps_rev _ _ _ _ _ Hrev E3) as [Hr3 Hm3].
    destruct (attempt h (CheckoutBranch main_branch) r3) as [[o4 r4]|] eqn:E4; mred;
      [|exact Hr3].
    by destruct (checkout_main_rev _ _ _ _ _ Hm3 E4).
  - exact Hrev.
Qed.

Lemma create_blocked_by_existing h c b r m :
  c = SwitchCreate b ∨ c = CheckoutCreate b ∨ (∃ x, c = Branch b x) →
  heads r !! b = Some m → attempt h c r = None.
Proof.
  intros Hc Hm. unfold attempt.
  destruct Hc as [->|[->|[x ->]]]; cbn [reads_only orb];
    (destruct (can_run h _ r); [cbn [git_run]; by rewrite Hm|reflexivity]).
Qed.

Lemma normaliser_on_main h tgt tty w :
  reported_branch (w_repo w) = main_branch →
  ensureMainBranchFromCurrentState h tgt tty w
  = (Ret tt, printed Log MainBranchSetupComplete (traced SymbolicRefShortHEAD w)).
Proof.
  intros Hh. unfold ensureMainBranchFromCurrentState, ensureMainBranch_body. munfold.
  rewrite attempt_symbolic_ref. fold (reported_branch (w_repo w)). mred.
  fold (reported_branch (w_repo w)). rewrite Hh.
  change (eqb main_branch []) with false.
  change (eqb main_branch main_branch) with true. mred.
  reflexivity.
Qed.

(** X12. A detached HEAD in a working copy that already has a local
    branch main (the state after checking out a tag or a commit in a fresh
    clone) defeats every strategy: all three try to create main, git
    refuses, and the normaliser warns and leaves the working copy as it
    was. [setupGitRepository] does not move HEAD either, so the
    installation ends detached (as long as the URL the user types for a
    repository of their own, if any, is one word of the command line). *)
Theorem detached_with_local_main_stays_detached (h : host) (tgt : jsval)
    (tty : list N) (w : world) (c m : list N) :
  HEAD (w_repo w) = Detached c →
  no_ws c = true →
  heads (w_repo w) !! main_branch = Some m →
  w_repo (snd (ensureMainBranchFromCurrentState h tgt tty w)) = w_repo w
  ∧ commands (ensureMainBranchFromCurrentState h tgt tty) w
    = [SymbolicRefShortHEAD; SwitchCreate main_branch; CheckoutCreate main_branch;
       RevParseHEAD; Branch main_branch c]
  ∧ emitted (ensureMainBranchFromCurrentState h tgt tty) w
    = [(Log, CreatingMainFromCurrentState (to_string (js_or tgt (Str js:"latest"))));
       (Warn, BranchSetupWarning (CommandFailed (Branch main_branch c)));
       (Log, ContinuingWithCurrentState)]
  ∧ (typed_url_is_word h = true →
     ∀ o, current_branch (w_repo (snd (afterAcquisition h o w))) = None).
Proof.
  intros Hd Hc Hm.
  assert (Hrev : head_rev (w_repo w) = Some c) by (unfold head_rev; by rewrite Hd).
  assert (Hrun : ∀ tgt' tty',
            ensureMainBranchFromCurrentState h tgt' tty' w
            = (Ret tt,
               {| w_repo := w_repo w; w_fs := w_fs w;
                  w_console := w_console w ++
                    [(Log, CreatingMainFromCurrentState
                             (to_string (js_or tgt' (Str js:"latest"))));
                     (Warn, BranchSetupWarning (CommandFailed (Branch main_branch c)));
                     (Log, ContinuingWithCurrentState)];
                  w_trace := w_trace w ++
                    [SymbolicRefShortHEAD; SwitchCreate main_branch;
                     CheckoutCreate main_branch; RevParseHEAD;
                     Branch main_branch c] |})).
  { intros tgt' tty'.
    unfold ensureMainBranchFromCurrentState, ensureMainBranch_body,
      createMainBranchFromCurrent, strategy_switch, strategy_checkout, strategy_manual.
    cbn [run_strategies]. munfold.
    rewrite attempt_symbolic_ref, Hd. mred. rewrite trim_nl.
    change (eqb [] []) with true. mred.
    rewrite (create_blocked_by_existing h (SwitchCreate main_branch) main_branch
               (w_repo w) m) by auto. mred.
    rewrite (create_blocked_by_existing h (CheckoutCreate main_branch) main_branch
               (w_repo w) m) by auto. mred.
    rewrite attempt_rev_parse, Hrev. mred. rewrite (trim_line c Hc).
    rewrite (create_blocked_by_existing h (Branch main_branch c) main_branch
               (w_repo w) m) by eauto. mred.
    unfold printed, traced, set_repo. cbn [w_repo w_fs w_console w_trace].
    by rewrite <- !app_assoc. }
  unfold commands, emitted. rewrite Hrun. cbn [snd w_repo w_console w_trace].
  rewrite !drop_app_length. do 3 (split; [reflexivity|]).
  intros Hword o. unfold afterAcquisition, bind. rewrite cloneRepository_normalise_run.
  rewrite Hrun. cbn [snd].
  match goal with
  | |- current_branch (w_repo (snd (setupGitRepository h ?w1))) = None =>
      pose proof (setupGitRepository_keeps_branch h Hword w1) as Hk
  end.
  unfold same in Hk. rewrite Hk. cbn [w_repo]. unfold current_branch. by rewrite Hd.
Qed.

(** X13. When the name of the current branch, if any, is free of white
    space, the normaliser is all or nothing for HEAD: either it prints the
    completion line and HEAD is on main, or it prints the warning, does
    not print the completion line, and HEAD is where it was. When,
    moreover, no tag is named main, a second run after a run that printed
    the completion line only asks for the current branch: it runs no other
    command and changes nothing. *)
Theorem normaliser_moves_head_or_warns (h : host) (tgt : jsval) (tty : list N)
    (w : world) :
  (∀ b, HEAD (w_repo w) = Attached b → no_ws b = true) →
  ((In (Log, MainBranchSetupComplete)
      (emitted (ensureMainBranchFromCurrentState h tgt tty) w)
   ∧ HEAD (w_repo (snd (ensureMainBranchFromCurrentState h tgt tty w)))
     = Attached main_branch)
  ∨ (In (Log, ContinuingWithCurrentState)
        (emitted (ensureMainBranchFromCurrentState h tgt tty) w)
     ∧ ¬ In (Log, MainBranchSetupComplete)
           (emitted (ensureMainBranchFromCurrentState h tgt tty) w)
     ∧ HEAD (w_repo (snd (ensureMainBranchFromCurrentState h tgt tty w)))
       = HEAD (w_repo w)))
  ∧ (tags (w_repo w) !! main_branch = None →
     In (Log, MainBranchSetupComplete)
        (emitted (ensureMainBranchFromCurrentState h tgt tty) w) →
     ∀ tgt' tty',
       commands (ensureMainBranchFromCurrentState h tgt' tty')
         (snd (ensureMainBranchFromCurrentState h tgt tty w)) = [SymbolicRefShortHEAD]
       ∧ w_repo (snd (ensureMainBranchFromCurrentState h tgt' tty'
                        (snd (ensureMainBranchFromCurrentState h tgt tty w))))
         = w_repo (snd (ensureMainBranchFromCurrentState h tgt tty w))
       ∧ emitted (ensureMainBranchFromCurrentState h tgt' tty')
           (snd (ensureMainBranchFromCurrentState h tgt tty w))
         = [(Log, MainBranchSetupComplete)]).
Proof.
  intros Hws.
  assert (Hout :
    (In (Log, MainBranchSetupComplete)
      (emitted (ensureMainBranchFromCurrentState h tgt tty) w)
   ∧ HEAD (w_repo (snd (ensureMainBranchFromCurrentState h tgt tty w)))
     = Attached main_branch)
  ∨ (In (Log, ContinuingWithCurrentState)
        (emitted (ensureMainBranchFromCurrentState h tgt tty) w)
     ∧ ¬ In (Log, MainBranchSetupComplete)
           (emitted (ensureMainBranchFromCurrentState h tgt tty) w)
     ∧ HEAD (w_repo (snd (ensureMainBranchFromCurrentState h tgt tty w)))
       = HEAD (w_repo w))).
  {
  assert (Hfin : ∀ c r out r',
            c = SwitchCreate main_branch ∨ c = CheckoutCreate main_branch
            ∨ c = CheckoutBranch main_branch →
            attempt h c r = Some (out, r') → HEAD r' = Attached main_branch).
  { intros c r out r' [->|[->| ->]] E.
    - by destruct (create_and_switch_effect _ _ _ _ _ _ (or_introl eq_refl) E) as (_ & ? & _).
    - by destruct (create_and_switch_effect _ _ _ _ _ _ (or_intror eq_refl) E) as (_ & ? & _).
    - by apply checkout_branch_effect in E as [_ ->]. }
  assert (Hkeep : ∀ c r out r',
            (∃ x, c = Branch main_branch x) ∨ (∃ x, c = BranchForce main_branch x) →
            attempt h c r = Some (out, r') → HEAD r' = HEAD r).
  { intros c r out r' [[x ->]|[x ->]] E.
    - by apply branch_effect in E as [_ ->].
    - by apply branch_force_effect in E as [_ ->]. }
  unfold emitted.
  unfold ensureMainBranchFromCurrentState, ensureMainBranch_body,
    createMainBranchFromCurrent, strategy_switch, strategy_checkout, strategy_manual.
  cbn [run_strategies]. munfold. rewrite attempt_symbolic_ref.
  assert (Hleaf_ok : ∀ (l : list (level * message)) (r : repo),
            In (Log, MainBranchSetupComplete) l →
            HEAD r = Attached main_branch →
            (In (Log, MainBranchSetupComplete) l ∧ HEAD r = Attached main_branch)
            ∨ (In (Log, ContinuingWithCurrentState) l
               ∧ ¬ In (Log, MainBranchSetupComplete) l
               ∧ HEAD r = HEAD (w_repo w))) by (intros; left; split; assumption).
  assert (Hleaf_ko : ∀ (a : message) (e : exn) (r : repo),
            a ≠ MainBranchSetupComplete →
            HEAD r = HEAD (w_repo w) →
            let l := [(Log, a); (Warn, BranchSetupWarning e);
                      (Log, ContinuingWithCurrentState)] in
            (In (Log, MainBranchSetupComplete) l ∧ HEAD r = Attached main_branch)
            ∨ (In (Log, ContinuingWithCurrentState) l
               ∧ ¬ In (Log, MainBranchSetupComplete) l
               ∧ HEAD r = HEAD (w_repo w))).
  { intros a e r Ha Hr l. right. split; [cbn; auto|]. split; [|exact Hr].
    cbn. intros [H|[H|[H|[]]]]; congruence. }
  destruct (HEAD (w_repo w)) as [b|c] eqn:Hh; mred.
  - destruct (eqb (trim _) []) eqn:Hb0;
      [|destruct (eqb (trim _) main_branch) eqn:Hbm]; mred.
    + repeat exec_case; mred; rewrite <- ?app_assoc, drop_app_length;
        first [ apply Hleaf_ok;
                [solve [cbn; auto]|solve [eapply Hfin; [|eassumption]; auto]]
              | apply Hleaf_ko; [discriminate|];
                first [ reflexivity | assumption
                      | solve [rewrite <- Hh; eapply Hkeep; [|eassumption]; eauto] ] ].
    + apply eqb_true in Hbm. rewrite drop_app_length.
      left. split; [cbn; auto|]. cbn [w_repo printed traced set_repo].
      rewrite Hh. f_equal. apply (reported_main_is_main (w_repo w) b Hh (Hws b eq_refl)).
      unfold reported_branch. by rewrite Hh.
    + repeat exec_case; mred; rewrite <- ?app_assoc, drop_app_length;
        first [ apply Hleaf_ok;
                [solve [cbn; auto]|solve [eapply Hfin; [|eassumption]; auto]]
              | apply Hleaf_ko; [discriminate|];
                first [ reflexivity | assumption
                      | solve [rewrite <- Hh; eapply Hkeep; [|eassumption]; eauto] ] ].
  - rewrite trim_nl. change (eqb [] []) with true. mred.
    repeat exec_case; mred; rewrite <- ?app_assoc, drop_app_length;
      first [ apply Hleaf_ok;
                [solve [cbn; auto]|solve [eapply Hfin; [|eassumption]; auto]]
            | apply Hleaf_ko; [discriminate|];
              first [ reflexivity | assumption
                      | solve [rewrite <- Hh; eapply Hkeep; [|eassumption]; eauto] ] ]. }
  split; [exact Hout|].
  intros Htag Hdone tgt' tty'.
  destruct Hout as [[_ Hh]|(_ & Hno & _)]; [|by destruct Hno].
  assert (Hrep : reported_branch
                   (w_repo (snd (ensureMainBranchFromCurrentState h tgt tty w)))
                 = main_branch).
  { apply reported_branch_untagged; [exact Hh| |reflexivity].
    by rewrite (ensureMainBranch_keeps_tags h tgt tty w). }
  unfold commands, emitted. rewrite (normaliser_on_main h tgt' tty' _ Hrep).
  cbn [snd w_repo w_trace w_console traced printed].
  by rewrite !drop_app_length.
Qed.

(** X14. On a branch other than main whose name is free of white space
    and that has a commit, the normaliser always reaches main when the
    environment refuses none of its commands, whether a local main exists
    or not: HEAD ends on main, at the revision that was checked out. *)
Theorem other_branch_reaches_main (h : host) (tgt : jsval) (tty : list N)
    (w : world) (b c : list N) :
  HEAD (w_repo w) = Attached b →
  b ≠ [] → b ≠ main_branch → no_ws b = true →
  heads (w_repo w) !! b = Some c → no_ws c = true →
  (∀ x r, touches_main_only x = true → can_run h x r = true) →
  HEAD (w_repo (snd (ensureMainBranchFromCurrentState h tgt tty w)))
    = Attached main_branch
  ∧ head_rev (w_repo (snd (ensureMainBranchFromCurrentState h tgt tty w))) = Some c
  ∧ In (Log, MainBranchSetupComplete)
       (emitted (ensureMainBranchFromCurrentState h tgt tty) w).
Proof.
  intros Hb Hne Hnm Hws Hbc Hc Hcan.
  assert (Hrev : head_rev (w_repo w) = Some c) by (unfold head_rev; by rewrite Hb).
  assert (Hatt : ∀ x r, touches_main_only x = true → attempt h x r = git_run h x r).
  { intros x r Hx. unfold attempt. by rewrite (Hcan x r Hx), orb_true_r. }
  destruct (reported_branch_other (w_repo w) b Hb Hne Hnm Hws) as [Hne' Hnm'].
  unfold emitted.
  unfold ensureMainBranchFromCurrentState, ensureMainBranch_body. munfold.
  rewrite attempt_symbolic_ref. fold (reported_branch (w_repo w)). mred.
  fold (reported_branch (w_repo w)).
  rewrite (proj2 (eqb_false _ []) Hne'), (proj2 (eqb_false _ main_branch) Hnm'). mred.
  destruct (attempt h (CheckoutCreate main_branch) (w_repo w)) as [[o1 r1]|] eqn:E1; mred.
  { destruct (create_and_switch_effect _ _ _ _ _ _ (or_intror eq_refl) E1)
      as (_ & Hh1 & Hr1).
    rewrite <- !app_assoc, drop_app_length.
    split; [exact Hh1|]. split; [congruence|]. cbn. auto. }
  rewrite attempt_rev_parse, Hrev. mred. rewrite (trim_line c Hc).
  assert (E2 : attempt h (BranchForce main_branch c) (w_repo w)
               = Some ([], set_heads (<[main_branch:=c]> (heads (w_repo w))) (w_repo w))).
  { rewrite Hatt by reflexivity. cbn [git_run]. rewrite Hb.
    rewrite bool_decide_eq_false_2; [reflexivity|]. intros [= E]. by apply Hnm. }
  rewrite E2. mred.
  assert (E3 : attempt h (CheckoutBranch main_branch)
                 (set_heads (<[main_branch:=c]> (heads (w_repo w))) (w_repo w))
               = Some ([], set_HEAD (Attached main_branch)
                             (set_heads (<[main_branch:=c]> (heads (w_repo w)))
                                (w_repo w)))).
  { rewrite Hatt by reflexivity. cbn [git_run heads set_heads].
    by rewrite lookup_insert_eq. }
  rewrite E3. mred. rewrite <- !app_assoc, drop_app_length.
  split; [reflexivity|]. split; [|cbn; auto].
  unfold head_rev. cbn [HEAD set_HEAD heads set_heads]. apply lookup_insert_eq.
Qed.

(** ** Remote Topology Configurator, further *)

#[global] Instance only_current_branch_moves_preorder :
  PreOrder only_current_branch_moves.
Proof.
  split.
  - by intros r.
  - intros r1 r2 r3 [Hb Hh] [Hb' Hh']. split; [congruence|].
    intros b Hne. rewrite Hh' by congruence. by apply Hh.
Qed.

Lemma setup_cmd_effect h c r out r' :
  setup_cmd c = true →
  attempt h c r = Some (out, r') → only_current_branch_moves r r'.
Proof.
  intros Hc H. apply attempt_git in H.
  destruct c; cbn [setup_cmd] in Hc; try discriminate Hc; cbn [git_run] in H.
  - destruct (remotes r !! a); [|discriminate].
    destruct (remotes r !! b); [discriminate|]. by injection H as _ <-.
  - destruct (remotes r !! a); [|discriminate]. by injection H as _ <-.
  - destruct (remotes r !! a); [discriminate|]. by injection H as _ <-.
  - by injection H as _ <-.
  - destruct (remotes r !! remote); [|discriminate].
    destruct (heads r !! b); [|discriminate].
    destruct (tags r !! b); [discriminate|]. by injection H as _ <-.
  - by injection H as _ <-.
  - unfold only_current_branch_moves, current_branch.
    destruct (staged r); [|discriminate].
    destruct (HEAD r) as [b|d] eqn:Hh; injection H as _ <-;
      cbn [HEAD set_HEAD heads set_heads set_staged]; rewrite ?Hh.
    + split; [reflexivity|]. intros b' Hne. apply lookup_insert_ne. congruence.
    + split; reflexivity.
Qed.

Lemma setupGitRepository_only_current_branch_moves h :
  typed_url_is_word h = true →
  preserves only_current_branch_moves (setupGitRepository h).
Proof.
  intros Hword.
  unfold setupGitRepository, configure_upstream, connect_own_repository.
  repeat first
    [ match goal with
      | |- PreOrder _ => apply _
      | |- ∀ _, _ => intros ?
      | |- only_current_branch_moves _ _ =>
          eapply setup_cmd_effect; [|eassumption]; reflexivity
      end
    | apply preserves_console
    | apply preserves_ret
    | apply preserves_bind
    | apply preserves_try
    | apply preserves_when
    | apply preserves_exec
    | apply preserves_exec_typed; try solve [eapply typed_url_word; eassumption] ].
Qed.

(** What is typed at the URL prompt reaches the shell: text that is not
    one word can change files, which no git command of the installer
    does. *)
Lemma typed_text_reaches_the_shell :
  typed_url_is_word Sample.pasting_host = false
  ∧ w_fs (snd (setupGitRepository Sample.pasting_host
                 (Sample.world_of Sample.fresh_clone)))
      !! path_join Sample.project_dir js:"INJECTED" = Some (File [])
  ∧ remotes (w_repo (snd (setupGitRepository Sample.pasting_host
                            (Sample.world_of Sample.fresh_clone)))) !! origin
    = Some js:"x".
Proof. vm_compute. done. Qed.

(** X15. [setupGitRepository] returns normally whatever git and the user
    answer. When the user declines a repository of their own, types no
    URL, or types a URL that is one word of the command line, it changes
    no file, leaves HEAD on the branch it was on (or detached), and leaves
    every branch that is not checked out at the revision it had. *)
Theorem setupGitRepository_touches_only_current_branch (h : host) (w : world) :
  fst (setupGitRepository h w) = Ret tt
  ∧ (typed_url_is_word h = true →
     w_fs (snd (setupGitRepository h w)) = w_fs w
     ∧ current_branch (w_repo (snd (setupGitRepository h w)))
       = current_branch (w_repo w)
     ∧ ∀ b, current_branch (w_repo w) ≠ Some b →
         heads (w_repo (snd (setupGitRepository h w))) !! b = heads (w_repo w) !! b).
Proof.
  split; [apply setupGitRepository_returns|].
  intros Hword.
  split; [by apply setupGitRepository_keeps_files|].
  exact (setupGitRepository_only_current_branch_moves h Hword w).
Qed.

Lemma bind_run {A B} (m : M A) (k : A → M B) w a w1 :
  m w = (Ret a, w1) → bind m k w = k a w1.
Proof. intros E. unfold bind. by rewrite E. Qed.

Lemma exec_local h c w out r' :
  can_run h c (w_repo w) = true →
  git_run h c (w_repo w) = Some (out, r') →
  execSync h c w = (Ret out, set_repo r' (traced c w)).
Proof.
  intros Hc Hg. unfold execSync, attempt. by rewrite Hc, orb_true_r, Hg.
Qed.

Ltac console_grows :=
  eexists; cbn [w_console printed traced set_repo];
  rewrite <- ?app_assoc; first [reflexivity | symmetry; apply app_nil_r].

Lemma configure_upstream_console h w :
  ∃ l, w_console (snd (configure_upstream h w)) = w_console w ++ l.
Proof.
  unfold configure_upstream. munfold. repeat exec_case; mred; console_grows.
Qed.

Lemma connect_own_repository_run h w :
  ∃ w', connect_own_repository h w = (Ret tt, w')
        ∧ ∃ l, w_console w' = w_console w ++ l.
Proof.
  unfold connect_own_repository, execSync_typed.
  destruct (lower_is_y (answer h ConnectOwnRepo));
    destruct (negb (eqb (trim (answer h EnterRepoUrl)) []));
    destruct (shell_word (trim (answer h EnterRepoUrl)));
    destruct (lower_is_y (answer h PushNow));
    munfold;
    repeat first
      [ exec_case
      | match goal with
        | |- context [run_line ?h ?c ?r ?fs] =>
            destruct (run_line h c r fs) as [[[? ?] ?]|] eqn:?
        end ];
    mred;
    (eexists; split; [reflexivity|]; console_grows).
Qed.

Lemma connect_keeps_merge_settings h :
  typed_url_is_word h = true →
  preserves (same merge_settings) (connect_own_repository h).
Proof.
  intros Hword.
  assert (Hadd : ∀ url r out r',
            attempt h (RemoteAdd origin url) r = Some (out, r') →
            same merge_settings r r').
  { intros url r out r' E. by apply remote_add_effect in E as [_ ->]. }
  assert (Hpush : ∀ r out r',
            attempt h (PushSetUpstream origin main_branch) r = Some (out, r') →
            same merge_settings r r').
  { intros r out r' E. apply attempt_git in E. cbn [git_run] in E.
    destruct (remotes r !! origin); [|discriminate].
    destruct (heads r !! main_branch); [|discriminate].
    destruct (tags r !! main_branch); [discriminate|]. injection E as _ <-.
    unfold same, merge_settings. cbn [config set_config].
    rewrite !lookup_insert_ne; [reflexivity|..];
      intros E; vm_compute in E; discriminate E. }
  unfold connect_own_repository.
  repeat first
    [ match goal with
      | |- PreOrder _ => apply _
      | |- ∀ _, _ => intros ?
      | |- same merge_settings _ _ =>
          first [ eapply Hadd; eassumption | eapply Hpush; eassumption ]
      end
    | apply preserves_console
    | apply preserves_ret
    | apply preserves_bind
    | apply preserves_try
    | apply preserves_when
    | apply preserves_exec
    | apply preserves_exec_typed; try solve [eapply typed_url_word; eassumption] ].
Qed.

(** X16. Trouble with the remotes never stops the local setup: when the
    environment lets [git config], [git add] and [git commit] run, there
    is something to commit, and the URL the user types, if any, is one
    word of the command line, then, whether or not the template remote
    could be renamed, the user's repository added or the push made,
    [setupGitRepository] stores both merge settings, makes the initial
    commit and reports success. *)
Theorem remote_failures_do_not_stop_setup (h : host) (w : world) :
  (∀ c r, setup_local c = true → can_run h c r = true) →
  (∀ r, stages h r = true) →
  typed_url_is_word h = true →
  merge_settings (w_repo (snd (setupGitRepository h w)))
    = (Some js:"true", Some js:"false")
  ∧ (∃ r0, head_rev (w_repo (snd (setupGitRepository h w))) = Some (commit_id h r0))
  ∧ In (Log, GitConfigured) (emitted (setupGitRepository h) w).
Proof.
  intros Hcan Hstages Hword. unfold emitted. rewrite setupGitRepository_split.
  destruct (configure_upstream_console h (printed Log SettingUpGit w)) as [l3 Hl3].
  remember (snd (configure_upstream h (printed Log SettingUpGit w))) as w3 eqn:Ew3.
  cbn [w_console printed] in Hl3. clear Ew3.
  unfold try_catch, setup_rest.
  assert (Hset : ∀ k v w0,
            execSync h (ConfigSet k v) w0
            = (Ret [], set_repo (set_config (<[k:=v]> (config (w_repo w0))) (w_repo w0))
                         (traced (ConfigSet k v) w0))).
  { intros k v w0. apply exec_local; [|reflexivity].
    by apply (Hcan (ConfigSet k v)). }
  assert (Hadd : ∀ w0, execSync h AddAll w0
                       = (Ret [], set_repo (set_staged true (w_repo w0))
                                    (traced AddAll w0))).
  { intros w0. apply exec_local; [by apply (Hcan AddAll)|].
    cbn [git_run]. by rewrite Hstages, orb_true_r. }
  rewrite (bind_run _ _ w3 _ _ (Hset _ _ w3)).
  rewrite (bind_run _ _ _ _ _ (Hset _ _ _)).
  match goal with
  | |- context [bind (connect_own_repository h) _ ?w5] =>
      destruct (connect_own_repository_run h w5) as (w6 & E6 & l6 & Hl6);
      pose proof (connect_keeps_merge_settings h Hword w5) as Hms;
      rewrite (bind_run _ _ w5 _ _ E6); rewrite E6 in Hms
  end.
  cbn [snd w_repo set_repo traced w_console] in Hms, Hl6.
  rewrite (bind_run _ _ w6 _ _ (Hadd w6)).
  assert (Ecommit : ∃ r7,
            git_run h (Commit js:"Initialize Aether CMS project")
              (set_staged true (w_repo w6))
            = Some ([], r7)
            ∧ config r7 = config (w_repo w6)
            ∧ head_rev r7 = Some (commit_id h (set_staged true (w_repo w6)))).
  { cbn [git_run staged set_staged HEAD heads]. unfold head_rev.
    destruct (HEAD (w_repo w6)) as [b|d] eqn:Hh.
    - eexists. split; [reflexivity|].
      cbn [config set_heads set_staged HEAD heads]. rewrite Hh.
      split; [reflexivity|]. apply lookup_insert_eq.
    - eexists. split; [reflexivity|]. split; reflexivity. }
  destruct Ecommit as (r7 & E7 & Hc7 & Hr7).
  rewrite (bind_run _ _ _ _ _
             (exec_local h (Commit js:"Initialize Aether CMS project")
                (set_repo (set_staged true (w_repo w6)) (traced AddAll w6)) _ _
                (Hcan (Commit _) _ eq_refl) E7)).
  munfold. mred.
  split.
  { unfold merge_settings. rewrite Hc7. unfold same, merge_settings in Hms.
    rewrite Hms. cbn [config set_config].
    rewrite lookup_insert_ne by (intros E; vm_compute in E; discriminate E).
    by rewrite !lookup_insert_eq. }
  split; [by exists (set_staged true (w_repo w6))|].
  rewrite Hl6, Hl3, <- !app_assoc, drop_app_length.
  apply in_or_app. right. apply in_or_app. right. apply in_or_app. right.
  cbn. auto.
Qed.

(** X30. From a working copy whose [origin] is the template, when the
    rename of the template remote or its fallback succeeds and the URL the
    user types, if any, is one word of the command line,
    [setupGitRepository] leaves [upstream] at the template URL, and
    [origin] absent or at the URL the user typed. *)
Theorem setupGitRepository_sets_up_remotes (h : host) (w : world) :
  remotes (w_repo w) !! origin = Some repoUrl →
  upstream_configured h (w_repo w) →
  typed_url_is_word h = true →
  remotes (w_repo (snd (setupGitRepository h w))) !! upstream = Some repoUrl
  ∧ (remotes (w_repo (snd (setupGitRepository h w))) !! origin = None
     ∨ (lower_is_y (answer h ConnectOwnRepo) = true
        ∧ remotes (w_repo (snd (setupGitRepository h w))) !! origin
          = Some (trim (answer h EnterRepoUrl)))).
Proof.
  intros Ho Hup Hword. rewrite setupGitRepository_split.
  destruct (configure_upstream_result h (printed Log SettingUpGit w) Ho Hup)
    as [Hu Hor].
  set (w3 := snd (configure_upstream h (printed Log SettingUpGit w))) in *.
  assert (Hq : own_remote_only h (w_repo w3)
                 (w_repo (snd (try_catch (setup_rest h)
                                 (fun error => console Log (GitSetupFailed error)) w3)))).
  { apply (preserves_try (own_remote_only h));
      [by apply setup_rest_own_remote_only|intros e; apply preserves_console; apply _]. }
  destruct Hq as [Hq1 Hq2]. rewrite Hq1, Hu. split; [done|].
  destruct Hq2 as [Hq2|Hq2]; [left; by rewrite Hq2|by right].
Qed.

(** ** Update-Metadata Stamper, further *)

Lemma quiet_ret {A} (a : A) : quiet (ret a).
Proof. intros w. by repeat split. Qed.

Lemma quiet_throw {A} e : quiet (@throw A e).
Proof. intros w. by repeat split. Qed.

Lemma quiet_console l m : quiet (console l m).
Proof. intros w. by repeat split. Qed.

Lemma quiet_get_prop v k : quiet (get_prop v k).
Proof. destruct v; first [apply quiet_ret | apply quiet_throw]. Qed.

Lemma quiet_set_prop v k x : quiet (set_prop v k x).
Proof. destruct v; first [apply quiet_ret | apply quiet_throw]. Qed.

Lemma quiet_parse J text : quiet (parse J text).
Proof. unfold parse. destruct (JSON_parse J text); [apply quiet_ret|apply quiet_throw]. Qed.

Lemma quiet_existsSync p : quiet (existsSync p).
Proof. intros w. by repeat split. Qed.

Lemma quiet_readFileSync p : quiet (readFileSync p).
Proof.
  intros w. unfold readFileSync. destruct (w_fs w !! p) as [[?|]|]; by repeat split.
Qed.

Lemma quiet_bind {A B} (m : M A) (k : A → M B) :
  quiet m → (∀ a, quiet (k a)) → quiet (bind m k).
Proof.
  intros Hm Hk w. unfold bind. destruct (Hm w) as (Hn & Hr & Hf).
  destruct (m w) as [[a|e|n] w1]; cbn [fst snd] in *.
  - destruct (Hk a w1) as (Hn' & Hr' & Hf'). split; [exact Hn'|]. split; congruence.
  - by repeat split.
  - by destruct (Hn n).
Qed.

Lemma quiet_try {A} (m : M A) (hd : exn → M A) :
  quiet m → (∀ e, quiet (hd e)) → quiet (try_catch m hd).
Proof.
  intros Hm Hh w. unfold try_catch. destruct (Hm w) as (Hn & Hr & Hf).
  destruct (m w) as [[a|e|n] w1]; cbn [fst snd] in *.
  - by repeat split.
  - destruct (Hh e w1) as (Hn' & Hr' & Hf'). split; [exact Hn'|]. split; congruence.
  - by destruct (Hn n).
Qed.

Lemma quiet_if {A} (b : bool) (m1 m2 : M A) :
  quiet m1 → quiet m2 → quiet (if b then m1 else m2).
Proof. by destruct b. Qed.

Lemma quiet_rev_parse h : quiet (execSync h RevParseHEAD).
Proof.
  intros w. unfold execSync. rewrite attempt_rev_parse.
  destruct (head_rev (w_repo w)); by repeat split.
Qed.

Lemma quiet_installedVersion_of h o : quiet (installedVersion_of h o).
Proof.
  unfold installedVersion_of.
  repeat first
    [ match goal with |- ∀ _, _ => intros ? end
    | apply quiet_ret | apply quiet_console | apply quiet_rev_parse
    | apply quiet_bind | apply quiet_try | apply quiet_if ].
Qed.

Lemma writes_only_quiet {A} p (m : M A) : quiet m → writes_only_on_success p m.
Proof.
  intros Hm w. destruct (Hm w) as (Hn & Hr & Hf).
  split; [exact Hn|]. split; [exact Hr|]. split; [by rewrite Hf|done].
Qed.

Lemma writes_only_bind {A B} p (m : M A) (k : A → M B) :
  quiet m → (∀ a, writes_only_on_success p (k a)) →
  writes_only_on_success p (bind m k).
Proof.
  intros Hm Hk w. unfold bind. destruct (Hm w) as (Hn & Hr & Hf).
  destruct (m w) as [[a|e|n] w1]; cbn [fst snd] in *.
  - destruct (Hk a w1) as (Hn' & Hr' & Hk' & Hf').
    split; [exact Hn'|]. split; [congruence|].
    split; [intros k0 Hk0; rewrite Hk' by done; by rewrite Hf|].
    intros Hnot. rewrite Hf' by done. exact Hf.
  - split; [done|]. split; [done|]. split; [by rewrite Hf|done].
  - by destruct (Hn n).
Qed.

Lemma writes_only_when p b (m : M unit) :
  writes_only_on_success p m → writes_only_on_success p (when b m).
Proof. intros Hm. destruct b; [exact Hm|apply writes_only_quiet, quiet_ret]. Qed.

Lemma writes_only_write p content l msg :
  writes_only_on_success p (writeFileSync p content ;; console l msg).
Proof.
  intros w. unfold bind, writeFileSync, console.
  destruct (w_fs w !! p) as [[?|]|]; cbn [fst snd w_repo w_fs set_fs printed].
  - split; [done|]. split; [done|].
    split; [intros k Hk; by apply lookup_insert_ne|]. intros Hnot. by destruct (Hnot tt).
  - by repeat split.
  - split; [done|]. split; [done|].
    split; [intros k Hk; by apply lookup_insert_ne|]. intros Hnot. by destruct (Hnot tt).
Qed.

Lemma updatePackageJson_writes_only J h targetPath name o :
  writes_only_on_success (path_join targetPath js:"package.json")
    (updatePackageJson J h targetPath name o).
Proof.
  unfold updatePackageJson.
  repeat first
    [ match goal with |- ∀ _, _ => intros ? end
    | apply writes_only_write
    | apply writes_only_when
    | apply writes_only_bind;
      [ first [ apply quiet_existsSync | apply quiet_readFileSync | apply quiet_parse
              | apply quiet_installedVersion_of | apply quiet_get_prop
              | apply quiet_set_prop ] | ] ].
Qed.

Lemma updatePackageJson_malformed J h targetPath name o w text :
  w_fs w !! path_join targetPath js:"package.json" = Some (File text) →
  JSON_parse J text = None →
  updatePackageJson J h targetPath name o w = (Throw SyntaxError, w).
Proof.
  intros Hfile Hparse.
  unfold updatePackageJson, existsSync, readFileSync, parse. unfold when.
  unfold bind at 1. cbn [fst snd]. rewrite Hfile.
  rewrite bool_decide_eq_true_2 by eauto.
  unfold bind at 1. rewrite Hfile.
  unfold bind at 1. rewrite Hparse. reflexivity.
Qed.

(** X17. [updatePackageJson] is all or nothing. Whatever the manifest
    holds, it never ends the process and never touches the working copy or
    any file other than the manifest; and when it does not return (the
    manifest is a directory, is not JSON, or is not an object) no file has
    changed. A manifest that is not JSON makes it throw before it has done
    anything. *)
Theorem updatePackageJson_all_or_nothing (J : json_codec) (h : host)
    (targetPath name : list N) (o : options) (w : world) :
  (∀ n, fst (updatePackageJson J h targetPath name o w) ≠ Exit n)
  ∧ w_repo (snd (updatePackageJson J h targetPath name o w)) = w_repo w
  ∧ (∀ k, k ≠ path_join targetPath js:"package.json" →
       w_fs (snd (updatePackageJson J h targetPath name o w)) !! k = w_fs w !! k)
  ∧ (∀ e, fst (updatePackageJson J h targetPath name o w) = Throw e →
       w_fs (snd (updatePackageJson J h targetPath name o w)) = w_fs w)
  ∧ (∀ text,
       w_fs w !! path_join targetPath js:"package.json" = Some (File text) →
       JSON_parse J text = None →
       updatePackageJson J h targetPath name o w = (Throw SyntaxError, w)).
Proof.
  destruct (updatePackageJson_writes_only J h targetPath name o w)
    as (Hn & Hr & Hk & Hf).
  split; [exact Hn|]. split; [exact Hr|]. split; [exact Hk|]. split.
  - intros e He. apply Hf. intros a. rewrite He. discriminate.
  - intros text Hfile Hparse. by apply (updatePackageJson_malformed _ _ _ _ _ _ text).
Qed.

Lemma object_get_prop v k :
  (∃ ps, v = JObj ps) ∨ (∃ elems ps, v = JArr elems ps) →
  get_prop v k = ret (props_get k (members v)).
Proof. by intros [[ps ->]|(elems & ps & ->)]. Qed.

Lemma object_set_prop v k x :
  (∃ ps, v = JObj ps) ∨ (∃ elems ps, v = JArr elems ps) →
  set_prop v k x = ret (with_members v (props_set k x (members v))).
Proof. by intros [[ps ->]|(elems & ps & ->)]. Qed.

Lemma with_members_object v ps :
  (∃ ps', with_members v ps = JObj ps') ∨ (∃ elems ps', with_members v ps = JArr elems ps').
Proof. destruct v; cbn [with_members]; eauto. Qed.

Lemma members_with_members v ps : members (with_members v ps) = ps.
Proof. by destruct v. Qed.

Lemma with_members_twice v ps ps' :
  with_members (with_members v ps) ps' = with_members v ps'.
Proof. by destruct v. Qed.

(** The [scripts] member once [packageJson.scripts || {}] is evaluated, for
    a manifest whose [scripts] is absent, falsy or an object. *)
Lemma scripts_or_default_object pkg :
  scripts_ok pkg = true →
  (∃ ps, or_default (props_get js:"scripts" pkg) (JObj []) = JObj ps)
  ∨ (∃ elems ps, or_default (props_get js:"scripts" pkg) (JObj []) = JArr elems ps).
Proof.
  unfold scripts_ok, or_default.
  destruct (props_get js:"scripts" pkg) as [| |[]|z|s|elems named|props];
    cbn [js_truthy negb]; intros H; try discriminate H; eauto.
  - apply negb_true_iff in H. rewrite H. eauto.
  - apply negb_true_iff in H. rewrite H. eauto.
Qed.

Lemma bind_ret {A B} (a : A) (k : A → M B) w : bind (ret a) k w = k a w.
Proof. reflexivity. Qed.

(** The whole run on a manifest that parses to an object. *)
Lemma updatePackageJson_run J h targetPath name o w text pkg v w' :
  w_fs w !! path_join targetPath js:"package.json" = Some (File text) →
  JSON_parse J text = Some (JObj pkg) →
  scripts_ok pkg = true →
  installedVersion_of h o w = (Ret v, w') →
  updatePackageJson J h targetPath name o w
  = (Ret tt,
     printed Log (UpdatedPackageJson (to_string v))
       (set_fs (<[path_join targetPath js:"package.json" :=
                    File (JSON_stringify J
                            (JObj (stamped_manifest name (originalTemplate_of h o pkg v)
                                     pkg)))]> (w_fs w')) w')).
Proof.
  intros Hfile Hparse Hscripts Ev.
  assert (Hfile' : w_fs w' !! path_join targetPath js:"package.json" = Some (File text)).
  { destruct (quiet_installedVersion_of h o w) as (_ & _ & Hf).
    rewrite Ev in Hf. cbn [snd] in Hf. by rewrite Hf. }
  unfold stamped_manifest, originalTemplate_of.
  set (p := path_join targetPath js:"package.json") in *.
  unfold updatePackageJson. fold p.
  unfold existsSync, readFileSync, parse, writeFileSync. unfold when.
  unfold bind at 1. cbn [fst snd]. rewrite Hfile.
  rewrite bool_decide_eq_true_2 by eauto.
  unfold bind at 1. rewrite Hfile.
  unfold bind at 1. rewrite Hparse. unfold ret at 1.
  unfold bind at 1. rewrite Ev.
  repeat (progress (cbn [get_prop set_prop]; try unfold bind at 1; try unfold ret at 1)).
  match goal with
  | |- context [or_default (props_get js:"scripts" ?pkg4) (JObj [])] =>
      remember pkg4 as p4 eqn:Ep4;
      assert (Hok : scripts_ok p4 = true)
  end.
  { unfold scripts_ok in *. subst p4.
    by rewrite !props_get_set_ne by reflexivity. }
  rewrite props_get_set_eq.
  remember (or_default (props_get js:"scripts" p4) (JObj [])) as s0 eqn:Es0.
  pose proof (scripts_or_default_object p4 Hok) as Hobj. rewrite <- Es0 in Hobj.
  rewrite (object_get_prop s0 js:"start" Hobj). unfold ret at 1. cbv beta iota.
  rewrite (object_set_prop s0 js:"start" _ Hobj). unfold ret at 1. cbv beta iota.
  rewrite (object_get_prop _ js:"build" (with_members_object _ _)).
  unfold ret at 1. cbv beta iota.
  rewrite (object_set_prop _ js:"build" _ (with_members_object _ _)).
  unfold ret at 1. cbv beta iota.
  rewrite (object_set_prop _ js:"check-updates" _ (with_members_object _ _)).
  unfold ret at 1. cbv beta iota.
  rewrite (object_set_prop _ js:"update-aether" _ (with_members_object _ _)).
  unfold ret at 1. cbv beta iota.
  rewrite !members_with_members, !with_members_twice.
  rewrite Hfile'. reflexivity.
Qed.

Lemma stamped_scripts_spec ps :
  props_get js:"start" (stamped_scripts ps)
    = or_default (props_get js:"start" ps) (JStr js:"node index.js")
  ∧ props_get js:"build" (stamped_scripts ps)
    = or_default (props_get js:"build" ps)
        (JStr js:"node assets/js/generate-static.js --")
  ∧ props_get js:"check-updates" (stamped_scripts ps)
    = JStr js:"node assets/js/check-updates.js"
  ∧ props_get js:"update-aether" (stamped_scripts ps)
    = JStr js:"node assets/js/update-aether.js"
  ∧ ∀ k, k ∉ [js:"start"; js:"build"; js:"check-updates"; js:"update-aether"] →
      props_get k (stamped_scripts ps) = props_get k ps.
Proof.
  unfold stamped_scripts. repeat split.
  - rewrite !props_get_set_ne by reflexivity. apply props_get_set_eq.
  - rewrite !(props_get_set_ne js:"build") by reflexivity.
    rewrite props_get_set_eq, props_get_set_ne by reflexivity. reflexivity.
  - rewrite props_get_set_ne by reflexivity. apply props_get_set_eq.
  - apply props_get_set_eq.
  - intros k Hk. rewrite !not_elem_of_cons in Hk. destruct Hk as (H1 & H2 & H3 & H4 & _).
    rewrite !props_get_set_ne; [reflexivity|..]; by apply eqb_false.
Qed.

(** X18. On a manifest that parses to an object, [updatePackageJson]
    writes back the manifest it read with these changes only: [name] is the
    project name, [version] is 0.1.0, [private] is true, [aetherCMS] is
    set, and in [scripts] the two update scripts are set, [start] and
    [build] keep a non-empty value and get a default otherwise. Every other
    member of the manifest and of [scripts] is as the template had it, and
    no other file changes. *)
Theorem updatePackageJson_keeps_other_members (J : json_codec) (h : host)
    (targetPath name : list N) (o : options) (w : world)
    (text : list N) (pkg : list (list N * json)) :
  w_fs w !! path_join targetPath js:"package.json" = Some (File text) →
  JSON_parse J text = Some (JObj pkg) →
  scripts_ok pkg = true →
  ∃ pkg',
    w_fs (snd (updatePackageJson J h targetPath name o w))
    = <[path_join targetPath js:"package.json" := File (JSON_stringify J (JObj pkg'))]>
        (w_fs w)
    ∧ props_get js:"name" pkg' = JStr name
    ∧ props_get js:"version" pkg' = JStr js:"0.1.0"
    ∧ props_get js:"private" pkg' = JBool true
    ∧ (∀ k, k ∉ [js:"name"; js:"version"; js:"private"; js:"aetherCMS"; js:"scripts"] →
         props_get k pkg' = props_get k pkg)
    ∧ props_get js:"start" (members (props_get js:"scripts" pkg'))
      = or_default (props_get js:"start" (members (props_get js:"scripts" pkg)))
          (JStr js:"node index.js")
    ∧ props_get js:"build" (members (props_get js:"scripts" pkg'))
      = or_default (props_get js:"build" (members (props_get js:"scripts" pkg)))
          (JStr js:"node assets/js/generate-static.js --")
    ∧ props_get js:"check-updates" (members (props_get js:"scripts" pkg'))
      = JStr js:"node assets/js/check-updates.js"
    ∧ props_get js:"update-aether" (members (props_get js:"scripts" pkg'))
      = JStr js:"node assets/js/update-aether.js"
    ∧ ∀ k, k ∉ [js:"start"; js:"build"; js:"check-updates"; js:"update-aether"] →
        props_get k (members (props_get js:"scripts" pkg'))
        = props_get k (members (props_get js:"scripts" pkg)).
Proof.
  intros Hfile Hparse Hscripts.
  destruct (installedVersion_of h o w) as [[v|e|n] w'] eqn:Ev.
  2:{ destruct (installedVersion_of_spec h o w) as (? & ? & E & _). congruence. }
  2:{ destruct (installedVersion_of_spec h o w) as (? & ? & E & _). congruence. }
  assert (Hfs : w_fs w' = w_fs w).
  { destruct (quiet_installedVersion_of h o w) as (_ & _ & Hf). by rewrite Ev in Hf. }
  rewrite (updatePackageJson_run J h targetPath name o w text pkg v w'
             Hfile Hparse Hscripts Ev).
  cbn [snd w_fs printed set_fs]. rewrite Hfs.
  eexists. split; [reflexivity|].
  unfold stamped_manifest.
  set (meta := originalTemplate_of h o pkg v).
  set (p4 := props_set js:"aetherCMS" meta
               (props_set js:"private" (JBool true)
                  (props_set js:"version" (JStr js:"0.1.0")
                     (props_set js:"name" (JStr name) pkg)))).
  assert (Hs4 : props_get js:"scripts" p4 = props_get js:"scripts" pkg)
    by (unfold p4; by rewrite !props_get_set_ne by reflexivity).
  rewrite Hs4.
  set (s0 := or_default (props_get js:"scripts" pkg) (JObj [])).
  assert (Hm0 : members s0 = members (props_get js:"scripts" pkg)).
  { unfold s0, or_default, scripts_ok in *.
    destruct (props_get js:"scripts" pkg) as [| |[]|z|s|elems named|props];
      cbn [js_truthy negb] in *; try discriminate Hscripts; try reflexivity.
    - by destruct (negb (z =? 0)%Z).
    - by destruct (negb (eqb s [])). }
  destruct (stamped_scripts_spec (members s0)) as (S1 & S2 & S3 & S4 & S5).
  split; [unfold p4; by rewrite !props_get_set_ne, props_get_set_eq by reflexivity|].
  split; [unfold p4; by rewrite !props_get_set_ne, props_get_set_eq by reflexivity|].
  split; [unfold p4; by rewrite !props_get_set_ne, props_get_set_eq by reflexivity|].
  split.
  { intros k Hk. rewrite !not_elem_of_cons in Hk.
    destruct Hk as (H1 & H2 & H3 & H4 & H5 & _). unfold p4.
    rewrite !props_get_set_ne; [reflexivity|..]; by apply eqb_false. }
  rewrite props_get_set_eq, members_with_members, <- Hm0.
  split; [exact S1|]. split; [exact S2|]. split; [exact S3|]. split; [exact S4|exact S5].
Qed.

(** X19. The three places that pick the target agree. [cloneRepository]
    checks a target out exactly when [determineTarget] gave [main] a
    target other than "latest"; in that case the reference it checks out is
    the one [main] validated, and it is the [installedVersion] that
    [updatePackageJson] records, which then runs no command. *)
Theorem target_resolvers_agree (o : options) (h : host) (w : world) :
  clone_checks_out o = negb (is_str (target (determineTarget o)) js:"latest")
  ∧ (clone_checks_out o = true →
     clone_target o = target (determineTarget o)
     ∧ installedVersion_of h o w = (Ret (target (determineTarget o)), w)).
Proof.
  unfold clone_checks_out, clone_target, js_or, determineTarget, installedVersion_of.
  destruct (truthy (hash o)) eqn:Hh; cbv beta iota; rewrite ?Hh; cbv beta iota;
    rewrite ?Hh; cbn [target andb].
  { split; [reflexivity|]. intros _. split; reflexivity. }
  destruct (truthy (tag o)) eqn:Ht; cbv beta iota; rewrite ?Ht; cbn [target andb].
  { split; [reflexivity|]. intros _. split; reflexivity. }
  destruct (truthy (version o) && negb (is_str (version o) js:"latest")) eqn:Hv;
    cbn [target].
  - apply andb_true_iff in Hv as [_ Hv]. rewrite Hv.
    split; [reflexivity|]. intros _. split; reflexivity.
  - unfold is_str at 1. rewrite bool_decide_eq_true_2 by reflexivity.
    split; [reflexivity|]. discriminate.
Qed.

Lemma latest_target_means_no_selector o :
  targetType (determineTarget o) = js:"latest" →
  truthy (hash o) = false ∧ truthy (tag o) = false
  ∧ truthy (version o) && negb (is_str (version o) js:"latest") = false.
Proof.
  unfold determineTarget.
  destruct (truthy (hash o)); [intros E; vm_compute in E; discriminate E|].
  destruct (truthy (tag o)); [intros E; vm_compute in E; discriminate E|].
  destruct (truthy (version o) && _); [intros E; vm_compute in E; discriminate E|].
  done.
Qed.

(** X20. When the target is latest and the revision of HEAD cannot be
    read (the clone has no commit), the stamper warns, records
    [installedVersion] "unknown" and still writes the manifest. *)
Theorem installedVersion_unknown_without_commit (J : json_codec) (h : host)
    (targetPath name : list N) (o : options) (w : world)
    (text : list N) (pkg : list (list N * json)) :
  w_fs w !! path_join targetPath js:"package.json" = Some (File text) →
  JSON_parse J text = Some (JObj pkg) →
  scripts_ok pkg = true →
  targetType (determineTarget o) = js:"latest" →
  head_rev (w_repo w) = None →
  fst (updatePackageJson J h targetPath name o w) = Ret tt
  ∧ commands (updatePackageJson J h targetPath name o) w = [RevParseHEAD]
  ∧ emitted (updatePackageJson J h targetPath name o) w
    = [(Warn, CouldNotDetermineVersion); (Log, UpdatedPackageJson js:"unknown")]
  ∧ w_fs (snd (updatePackageJson J h targetPath name o w))
      !! path_join targetPath js:"package.json"
    = Some (File (JSON_stringify J
                    (JObj (stamped_manifest name
                             (originalTemplate_of h o pkg (Str js:"unknown")) pkg)))).
Proof.
  intros Hfile Hparse Hscripts Hlatest Hrev.
  destruct (latest_target_means_no_selector o Hlatest) as (Hh & Ht & Hv).
  assert (Ev : installedVersion_of h o w
               = (Ret (Str js:"unknown"),
                  printed Warn CouldNotDetermineVersion (traced RevParseHEAD w))).
  { unfold installedVersion_of. rewrite Hh, Ht, Hv. munfold.
    by rewrite attempt_rev_parse, Hrev. }
  unfold commands, emitted.
  rewrite (updatePackageJson_run J h targetPath name o w text pkg _ _
             Hfile Hparse Hscripts Ev).
  cbn [fst snd w_fs w_console w_trace printed traced set_fs].
  rewrite <- !app_assoc, !drop_app_length.
  do 3 (split; [reflexivity|]). apply lookup_insert_eq.
Qed.

(** ** The Node.js version check *)

Lemma split_on_first sep a b :
  Forall (fun c => c ≠ sep) a →
  split_on sep (a ++ sep :: b) = a :: split_on sep b.
Proof.
  induction 1 as [|c a Hc _ IH]; cbn [app split_on].
  - by rewrite N.eqb_refl.
  - rewrite (proj2 (N.eqb_neq c sep) Hc), IH. reflexivity.
Qed.

Lemma digits_value_fold s acc :
  forallb is_digit s = true →
  digits_value acc s
  = fold_left (fun acc c => (10 * acc + (Z.of_N c - 48))%Z) s acc.
Proof.
  revert acc. induction s as [|c s IH]; intros acc H; [reflexivity|].
  cbn [forallb] in H. apply andb_true_iff in H as [Hc Hs].
  cbn [digits_value fold_left]. rewrite Hc, IH by done.
  f_equal. unfold is_digit in Hc.
  apply andb_true_iff in Hc as [Hlo _]. apply N.leb_le in Hlo. lia.
Qed.

Lemma digit_facts c :
  is_digit c = true → is_ws c = false ∧ c ≠ 45 ∧ c ≠ 43 ∧ c ≠ 46.
Proof.
  unfold is_digit. intros H. apply andb_true_iff in H as [Hlo Hhi].
  apply N.leb_le in Hlo, Hhi.
  split; [|lia].
  apply not_true_is_false. unfold is_ws. intros W.
  rewrite ?orb_true_iff, ?andb_true_iff, ?N.leb_le, ?N.eqb_eq in W. lia.
Qed.

Lemma parseInt10_numeral s :
  s ≠ [] → forallb is_digit s = true → parseInt10 s = Some (decimal_value s).
Proof.
  intros Hne Hd. destruct s as [|c s]; [done|].
  pose proof Hd as Hd'. cbn [forallb] in Hd'. apply andb_true_iff in Hd' as [Hc _].
  destruct (digit_facts c Hc) as (Hws & H45 & H43 & _).
  unfold parseInt10. cbn [trimStart]. rewrite Hws.
  rewrite (proj2 (N.eqb_neq c 45) H45), (proj2 (N.eqb_neq c 43) H43). cbn [orb].
  rewrite Hc, digits_value_fold by done. unfold decimal_value.
  f_equal. lia.
Qed.

(** X21. For a version whose part before the first dot is a decimal
    numeral, [checkNodeVersion] ends the process with status 1 exactly when
    that number is below 18; a version that does not begin with white
    space, a sign or a digit compares as NaN and passes. *)
Theorem checkNodeVersion_exits_below_18 (major rest : list N) :
  major ≠ [] → forallb is_digit major = true →
  checkNodeVersion (major ++ js:"." ++ rest)
  = (if (decimal_value major <? 18)%Z then Some 1%nat else None)
  ∧ ∀ c, is_digit c = false → is_ws c = false → c ≠ 45 → c ≠ 43 →
      checkNodeVersion (c :: major ++ js:"." ++ rest) = None.
Proof.
  intros Hne Hd.
  assert (Hnodot : Forall (fun c => c ≠ 46) major).
  { apply Forall_forall. intros c Hc. rewrite forallb_forall in Hd.
    apply list_elem_of_In in Hc. by destruct (digit_facts c (Hd c Hc)) as (_ & _ & _ & ?). }
  split.
  - unfold checkNodeVersion.
    change (js:"." ++ rest) with (46 :: rest).
    rewrite split_on_first by done. cbn [hd].
    by rewrite parseInt10_numeral.
  - intros c Hc Hws H45 H43. unfold checkNodeVersion.
    assert (Hnan : ∀ l, parseInt10 (c :: l) = None).
    { intros l. unfold parseInt10. cbn [trimStart]. rewrite Hws.
      rewrite (proj2 (N.eqb_neq c 45) H45), (proj2 (N.eqb_neq c 43) H43). cbn [orb].
      by rewrite Hc. }
    cbn [split_on]. destruct (c =? 46).
    + reflexivity.
    + destruct (split_on 46 (major ++ js:"." ++ rest)); cbn [hd]; by rewrite Hnan.
Qed.

(** ** The checks of [main] *)

Lemma scan_keeps_help args o : help o = true → help (scan args o) = true.
Proof.
  revert o. induction args as [|x|x y l IH1 IH2] using pair_induction;
    intros o H; [done| |].
  - cbn [scan]. by repeat (case_match; try done).
  - rewrite (scan_cons x).
    destruct (is_help_flag x); [by apply IH2|].
    destruct (is_version_flag x); [by apply IH1|].
    destruct (is_tag_flag x); [by apply IH1|].
    destruct (is_hash_flag x); [by apply IH1|].
    destruct (negb _); by apply IH2.
Qed.

Lemma scan_help_source args o :
  help (scan args o) = true →
  help o = true ∨ ∃ f, f ∈ args ∧ is_help_flag f = true.
Proof.
  revert o. induction args as [|x|x y l IH1 IH2] using pair_induction; intros o.
  - auto.
  - cbn [scan]. destruct (is_help_flag x) eqn:Hx.
    { intros _. right. exists x. split; [apply list_elem_of_here|done]. }
    repeat case_match; auto.
  - rewrite (scan_cons x).
    assert (W1 : ∀ o', help o' = help o →
              help (scan l o') = true →
              help o = true ∨ ∃ f, f ∈ x :: y :: l ∧ is_help_flag f = true).
    { intros o' Ho' H. destruct (IH1 o' H) as [?|(f & Hf & ?)]; [left; congruence|].
      right. exists f. split; [|done]. by do 2 apply list_elem_of_further. }
    assert (W2 : ∀ o', help o' = help o →
              help (scan (y :: l) o') = true →
              help o = true ∨ ∃ f, f ∈ x :: y :: l ∧ is_help_flag f = true).
    { intros o' Ho' H. destruct (IH2 o' H) as [?|(f & Hf & ?)]; [left; congruence|].
      right. exists f. split; [|done]. by apply list_elem_of_further. }
    destruct (is_help_flag x) eqn:Hx.
    { intros _. right. exists x. split; [apply list_elem_of_here|done]. }
    destruct (is_version_flag x); [by apply W1|].
    destruct (is_tag_flag x); [by apply W1|].
    destruct (is_hash_flag x); [by apply W1|].
    destruct (negb _); by apply W2.
Qed.

Lemma scan_name_source args o :
  projectName (scan args o) = projectName o
  ∨ ∃ p, p ∈ args ∧ projectName (scan args o) = Str p
         ∧ is_help_flag p = false ∧ takes_value p = false.
Proof.
  revert o. induction args as [|x|x y l IH1 IH2] using pair_induction; intros o.
  - auto.
  - cbn [scan]. unfold takes_value.
    destruct (is_help_flag x) eqn:Hx; [auto|].
    destruct (is_version_flag x) eqn:Hv; [auto|].
    destruct (is_tag_flag x) eqn:Ht; [auto|].
    destruct (is_hash_flag x) eqn:Hh; [auto|].
    destruct (negb _); [|auto].
    right. exists x. split; [apply list_elem_of_here|]. by rewrite Hv, Ht, Hh.
  - rewrite (scan_cons x).
    assert (W1 : ∀ o', projectName o' = projectName o →
              projectName (scan l o') = projectName o
              ∨ ∃ p, p ∈ x :: y :: l ∧ projectName (scan l o') = Str p
                     ∧ is_help_flag p = false ∧ takes_value p = false).
    { intros o' Ho'. destruct (IH1 o') as [?|(p & Hp & ?)]; [left; congruence|].
      right. exists p. split; [|done]. by do 2 apply list_elem_of_further. }
    assert (W2 : ∀ o', projectName o' = projectName o →
              projectName (scan (y :: l) o') = projectName o
              ∨ ∃ p, p ∈ x :: y :: l ∧ projectName (scan (y :: l) o') = Str p
                     ∧ is_help_flag p = false ∧ takes_value p = false).
    { intros o' Ho'. destruct (IH2 o') as [?|(p & Hp & ?)]; [left; congruence|].
      right. exists p. split; [|done]. by apply list_elem_of_further. }
    unfold takes_value.
    destruct (is_help_flag x) eqn:Hx; [by apply W2|].
    destruct (is_version_flag x) eqn:Hv; [by apply W1|].
    destruct (is_tag_flag x) eqn:Ht; [by apply W1|].
    destruct (is_hash_flag x) eqn:Hh; [by apply W1|].
    destruct (negb (truthy (projectName o))) eqn:Hn; [|by apply W2].
    destruct x as [|c x].
    + (* an empty argument is stored, and gives way to the next one *)
      destruct (IH2 (set_projectName (Str []) o)) as [E|(p & Hp & ?)].
      * right. exists []. split; [apply list_elem_of_here|].
        split; [exact E|]. by rewrite Hv, Ht, Hh.
      * right. exists p. split; [|done]. by apply list_elem_of_further.
    + right. exists (c :: x). split; [apply list_elem_of_here|].
      rewrite scan_keeps_name by reflexivity.
      cbn [projectName set_projectName]. by rewrite Hv, Ht, Hh.
Qed.

(** * The installation as a whole *)

Ltac sunfold :=
  unfold swhen; unfold sbind, stry, sret, sexit, note, lift, shellSync.
Ltac sred :=
  cbn [s_world s_notes s_shell with_world noted shelled fst snd negb andb orb].

Lemma sbind_run {A B} (m : Task A) (k : A → Task B) s a s1 :
  m s = (Done a, s1) → sbind m k s = k a s1.
Proof. intros E. unfold sbind. by rewrite E. Qed.

Lemma sbind_ended {A B} (m : Task A) (k : A → Task B) s n s1 :
  m s = (Ended n, s1) → sbind m k s = (Ended n, s1).
Proof. intros E. unfold sbind. by rewrite E. Qed.

Lemma sbind_failed {A B} (m : Task A) (k : A → Task B) s e s1 :
  m s = (Failed e, s1) → sbind m k s = (Failed e, s1).
Proof. intros E. unfold sbind. by rewrite E. Qed.

Lemma lift_run {A} (m : M A) s a w :
  m (s_world s) = (Ret a, w) → lift m s = (Done a, with_world w s).
Proof. intros E. unfold lift. by rewrite E. Qed.

Lemma lift_throw {A} (m : M A) s e w :
  m (s_world s) = (Throw e, w) → lift m s = (Failed (Caught e), with_world w s).
Proof. intros E. unfold lift. by rewrite E. Qed.

Lemma with_world_same s : with_world (s_world s) s = s.
Proof. by destruct s. Qed.

Lemma validateTarget_keeps_files h tgt type : keeps_files (validateTarget h tgt type).
Proof.
  unfold validateTarget. destruct (eqb type js:"hash" || is_str tgt js:"latest").
  - apply keeps_files_ret.
  - apply keeps_files_try; [|keeps_files_tac].
    apply keeps_files_bind; [apply keeps_files_exec|intros tags].
    destruct (negb _); keeps_files_tac.
Qed.

Lemma validateTarget_returns h tgt type w :
  ∃ b, fst (validateTarget h tgt type w) = Ret b.
Proof.
  destruct (eqb type js:"hash" || is_str tgt js:"latest") eqn:Hs.
  { rewrite validateTarget_unchecked by done. by exists true. }
  destruct (remote_tags h) as [tags|] eqn:Hq.
  - destruct (includes tags (js:"refs/tags/" ++ to_string tgt)) eqn:Hin.
    + rewrite (validateTarget_found _ _ _ _ tags) by done. by exists true.
    + destruct (validateTarget_missing h tgt type w tags Hs Hq Hin) as [E _]. eauto.
  - rewrite validateTarget_query_fails by done. by exists true.
Qed.

(** ** [main] *)

(** X22. A help flag that is not taken as the value of another flag wins
    over everything else on the command line: [main] prints the help and
    ends with status 0, whether or not a project name is given or valid,
    and nothing else happens. *)
Theorem help_flag_wins (J : json_codec) (E : machine) (U : update_scripts)
    (a b : list (list N)) (f : list N) (s : session) :
  complete a = true → is_help_flag f = true →
  main J E U (a ++ f :: b) s = (Ended 0, noted Log HelpText s).
Proof.
  intros Ha Hf.
  assert (Hh : help (parseArguments (a ++ f :: b)) = true).
  { rewrite parseArguments_scan, scan_app by done.
    rewrite (scan_cons f), Hf. by rewrite scan_keeps_help. }
  unfold main. cbv zeta. rewrite Hh. reflexivity.
Qed.

(** X23. [main] runs a command line of the installation (the clone is the
    first) only when every check has passed: no help flag took effect, the
    project name is one of the arguments, is not a flag and is accepted by
    [validateProjectName], the target was not rejected by the remote
    check, and nothing exists yet at the destination. *)
Theorem clone_only_after_all_checks (J : json_codec) (E : machine)
    (U : update_scripts) (args : list (list N)) (s : session) :
  s_shell (snd (main J E U args s)) ≠ s_shell s →
  ∃ name,
    help (parseArguments args) = false
    ∧ projectName (parseArguments args) = Str name
    ∧ name ∈ args ∧ is_help_flag name = false ∧ takes_value name = false
    ∧ validateProjectName name = true
    ∧ fst (main_target_gate (m_host E) (parseArguments args) (s_world s))
      = Ret (determineTarget (parseArguments args))
    ∧ w_fs (s_world s) !! resolve E name = None.
Proof.
  unfold main. cbv zeta.
  destruct (help (parseArguments args)) eqn:Hh.
  { intros H. by destruct H. }
  destruct (truthy (projectName (parseArguments args))) eqn:Ht.
  2:{ intros H. by destruct H. }
  destruct (validateProjectName (to_string (projectName (parseArguments args))))
    eqn:Hv.
  2:{ intros H. by destruct H. }
  assert (Hname : ∃ name, projectName (parseArguments args) = Str name
                          ∧ name ∈ args ∧ is_help_flag name = false
                          ∧ takes_value name = false).
  { rewrite parseArguments_scan in *.
    destruct (scan_name_source args default_options) as [E0|(p & Hp & E0 & ? & ?)].
    - rewrite E0 in Ht. discriminate Ht.
    - exists p. by rewrite E0. }
  destruct Hname as (name & En & Hin & Hnh & Hnv).
  rewrite En in *. cbn [to_string] in *.
  sunfold. sred.
  destruct (main_target_gate (m_host E) (parseArguments args) (s_world s))
    as [[info|e|n] w1] eqn:Eg; sred.
  2:{ intros H. by destruct H. }
  2:{ intros H. by destruct H. }
  assert (Hinfo : info = determineTarget (parseArguments args) ∧ w_fs w1 = w_fs (s_world s)).
  { unfold main_target_gate in Eg. revert Eg. munfold.
    destruct (negb (is_str _ _)); [|by intros [= <- <-]].
    pose proof (validateTarget_returns (m_host E)
                  (target (determineTarget (parseArguments args)))
                  (targetType (determineTarget (parseArguments args))) (s_world s))
      as (bv & Hb).
    pose proof (validateTarget_keeps_files (m_host E)
                  (target (determineTarget (parseArguments args)))
                  (targetType (determineTarget (parseArguments args))) (s_world s))
      as Hfs.
    destruct (validateTarget _ _ _ (s_world s)) as [[v|?|?] w2]; cbn [fst snd] in *;
      try discriminate Hb.
    destruct (negb v); [discriminate|]. by intros [= <- <-]. }
  destruct Hinfo as [-> Hfs].
  unfold installProject. cbv zeta. rewrite En. cbn [to_string].
  unfold existsSync. sunfold. sred. rewrite Hfs.
  destruct (w_fs (s_world s) !! resolve E name) as [nd|] eqn:Hdir.
  { rewrite bool_decide_eq_true_2 by eauto. sred. intros H. by destruct H. }
  intros _. exists name. by repeat split.
Qed.

(** ** [cloneRepository] and [installProject] *)





(** ** [updatePackageLockJson] *)

Lemma writes_only_write_alone p content :
  writes_only_on_success p (writeFileSync p content).
Proof.
  intros w. unfold writeFileSync.
  destruct (w_fs w !! p) as [[?|]|]; cbn [fst snd w_repo w_fs set_fs].
  - split; [done|]. split; [done|].
    split; [intros k Hk; by apply lookup_insert_ne|]. intros Hnot. by destruct (Hnot tt).
  - by repeat split.
  - split; [done|]. split; [done|].
    split; [intros k Hk; by apply lookup_insert_ne|]. intros Hnot. by destruct (Hnot tt).
Qed.

Ltac quiet_tac :=
  repeat first
    [ match goal with |- ∀ _, _ => intros ? end
    | apply quiet_ret | apply quiet_throw | apply quiet_console
    | apply quiet_get_prop | apply quiet_set_prop | apply quiet_parse
    | apply quiet_readFileSync | apply quiet_existsSync
    | apply quiet_bind | apply quiet_try | apply quiet_if ].

Lemma updatePackageLock_body_writes_only J p name :
  writes_only_on_success p (updatePackageLock_body J p name).
Proof.
  unfold updatePackageLock_body.
  repeat first
    [ match goal with |- ∀ _, _ => intros ? end
    | apply writes_only_write_alone
    | apply writes_only_bind; [solve [quiet_tac]|] ].
Qed.

(** X26. [updatePackageLockJson] contains its own failures: it always
    returns normally, runs no command, and touches nothing but the lock
    file. Either it prints that the lock file was updated, or the files
    are exactly as before; a lock file that is not JSON gives the warning
    and the note that it will be regenerated, and without a lock file
    nothing happens at all. *)
Theorem updatePackageLockJson_contains_failures (J : json_codec)
    (targetPath name : list N) (s : session) :
  fst (updatePackageLockJson J targetPath name s) = Done tt
  ∧ s_shell (snd (updatePackageLockJson J targetPath name s)) = s_shell s
  ∧ w_repo (s_world (snd (updatePackageLockJson J targetPath name s)))
    = w_repo (s_world s)
  ∧ (∀ k, k ≠ path_join targetPath js:"package-lock.json" →
       w_fs (s_world (snd (updatePackageLockJson J targetPath name s))) !! k
       = w_fs (s_world s) !! k)
  ∧ (s_notes (snd (updatePackageLockJson J targetPath name s))
       = s_notes s ++ [(Log, UpdatedPackageLock)]
     ∨ w_fs (s_world (snd (updatePackageLockJson J targetPath name s)))
       = w_fs (s_world s))
  ∧ (∀ text,
       w_fs (s_world s) !! path_join targetPath js:"package-lock.json"
         = Some (File text) →
       JSON_parse J text = None →
       snd (updatePackageLockJson J targetPath name s)
       = noted Log WillBeRegenerated
           (noted Warn (CouldNotUpdatePackageLock (Caught SyntaxError)) s))
  ∧ (w_fs (s_world s) !! path_join targetPath js:"package-lock.json" = None →
     snd (updatePackageLockJson J targetPath name s) = s).
Proof.
  set (p := path_join targetPath js:"package-lock.json").
  remember (updatePackageLockJson J targetPath name s) as r eqn:Er.
  unfold updatePackageLockJson in Er. cbv zeta in Er. fold p in Er.
  unfold sbind at 1, lift at 1, existsSync in Er. sred. cbn [s_world fst snd] in Er.
  rewrite with_world_same in Er.
  destruct (w_fs (s_world s) !! p) as [nd|] eqn:Hp.
  2:{ rewrite bool_decide_eq_false_2 in Er by (by intros [? ?]).
      unfold swhen, sret in Er. subst r. cbn [fst snd].
      repeat split; try done. by right. }
  rewrite bool_decide_eq_true_2 in Er by eauto. unfold swhen in Er.
  destruct (updatePackageLock_body_writes_only J p name (s_world s))
    as (Hn & Hr & Hk & Hf).
  unfold stry, sbind, lift, note in Er.
  destruct (updatePackageLock_body J p name (s_world s)) as [[[]|e|n] w1] eqn:Eb;
    cbn [fst snd] in *; subst r; sred.
  - split; [done|]. split; [done|]. split; [exact Hr|]. split; [exact Hk|].
    split; [by left|]. split; [|discriminate].
    intros text Ht Hparse. exfalso. revert Eb.
    unfold updatePackageLock_body, readFileSync, parse.
    unfold bind at 1. rewrite Hp. injection Ht as ->.
    unfold bind at 1. rewrite Hparse. discriminate.
  - assert (Hfs : w_fs w1 = w_fs (s_world s)) by (apply Hf; discriminate).
    split; [done|]. split; [done|]. split; [exact Hr|]. split; [exact Hk|].
    split; [by right|]. split; [|discriminate].
    intros text Ht Hparse. revert Eb.
    unfold updatePackageLock_body, readFileSync, parse.
    unfold bind at 1. rewrite Hp. injection Ht as ->.
    unfold bind at 1. rewrite Hparse. unfold throw. intros [= <- <-].
    by rewrite with_world_same.
  - by destruct (Hn n).
Qed.

(** X27. On a lock file that parses to an object whose [packages] has a
    root entry (the key is the empty string), [updatePackageLockJson]
    rewrites the lock file with [name] and [version] set both at the top
    and in the root entry; every other member of the lock file, of
    [packages] and of the root entry is kept, and no other file changes. *)
Theorem updatePackageLockJson_renames_root (J : json_codec)
    (targetPath name : list N) (s : session) (text : list N)
    (pkg pk root : list (list N * json)) :
  w_fs (s_world s) !! path_join targetPath js:"package-lock.json" = Some (File text) →
  JSON_parse J text = Some (JObj pkg) →
  props_get js:"packages" pkg = JObj pk →
  props_get [] pk = JObj root →
  ∃ pkg' pk' root',
    updatePackageLockJson J targetPath name s
    = (Done tt,
       noted Log UpdatedPackageLock
         (with_world
            (set_fs (<[path_join targetPath js:"package-lock.json"
                        := File (JSON_stringify J (JObj pkg'))]> (w_fs (s_world s)))
               (s_world s)) s))
    ∧ props_get js:"name" pkg' = JStr name
    ∧ props_get js:"version" pkg' = JStr js:"0.1.0"
    ∧ props_get js:"packages" pkg' = JObj pk'
    ∧ props_get [] pk' = JObj root'
    ∧ props_get js:"name" root' = JStr name
    ∧ props_get js:"version" root' = JStr js:"0.1.0"
    ∧ (∀ k, k ∉ [js:"name"; js:"version"; js:"packages"] →
         props_get k pkg' = props_get k pkg)
    ∧ (∀ k, k ≠ [] → props_get k pk' = props_get k pk)
    ∧ (∀ k, k ∉ [js:"name"; js:"version"] → props_get k root' = props_get k root).
Proof.
  intros Hfile Hparse Hpk Hroot.
  set (p := path_join targetPath js:"package-lock.json") in *.
  set (root' := props_set js:"version" (JStr js:"0.1.0")
                  (props_set js:"name" (JStr name) root)).
  set (pk' := props_set [] (JObj root') pk).
  set (pkg2 := props_set js:"version" (JStr js:"0.1.0")
                 (props_set js:"name" (JStr name) pkg)).
  exists (props_set js:"packages" (JObj pk') pkg2), pk', root'.
  assert (Hpk2 : props_get js:"packages" pkg2 = JObj pk).
  { unfold pkg2. by rewrite !props_get_set_ne by reflexivity. }
  split.
  { assert (Eb : updatePackageLock_body J p name (s_world s)
                 = (Ret tt,
                    set_fs (<[p := File (JSON_stringify J
                                           (JObj (props_set js:"packages" (JObj pk') pkg2)))]>
                              (w_fs (s_world s))) (s_world s))).
    { unfold updatePackageLock_body, readFileSync, parse, writeFileSync.
      unfold bind at 1. rewrite Hfile.
      unfold bind at 1. rewrite Hparse. unfold ret at 1.
      cbn [set_prop]. rewrite bind_ret. cbn [set_prop]. rewrite bind_ret.
      cbn [get_prop]. rewrite bind_ret.
      fold pkg2. rewrite Hpk2. cbn [js_truthy get_prop].
      unfold bind at 1. rewrite bind_ret. rewrite Hroot. cbn [js_truthy set_prop].
      repeat (rewrite bind_ret; cbn [set_prop]).
      unfold ret at 1. cbv beta iota.
      by rewrite Hfile. }
    unfold updatePackageLockJson. cbv zeta. fold p.
    unfold sbind at 1, lift at 1, existsSync. rewrite Hfile.
    rewrite bool_decide_eq_true_2 by eauto. sred. rewrite with_world_same.
    unfold swhen, stry, sbind, lift, note. rewrite Eb. reflexivity. }
  clear Hpk2. unfold pkg2, pk', root'. clear pkg2 pk' root'.
  split; [by rewrite props_get_set_ne, props_get_set_ne, props_get_set_eq by reflexivity|].
  split; [by rewrite props_get_set_ne, props_get_set_eq by reflexivity|].
  split; [apply props_get_set_eq|].
  split; [apply props_get_set_eq|].
  split; [by rewrite props_get_set_ne, props_get_set_eq by reflexivity|].
  split; [apply props_get_set_eq|].
  split.
  { intros k Hk. rewrite !not_elem_of_cons in Hk. destruct Hk as (H1 & H2 & H3 & _).
    rewrite !props_get_set_ne; [reflexivity|..]; by apply eqb_false. }
  split.
  { intros k Hk. rewrite props_get_set_ne; [reflexivity|by apply eqb_false]. }
  intros k Hk. rewrite !not_elem_of_cons in Hk. destruct Hk as (H1 & H2 & _).
  rewrite !props_get_set_ne; [reflexivity|..]; by apply eqb_false.
Qed.

(** ** Failures during the scaffolding *)

(** X28. A template whose [package.json] is not JSON stops the
    scaffolding at its second step: [createProjectFiles] throws the
    SyntaxError of [updatePackageJson]; by then the [.env] file has been
    written and nothing else has happened, whatever the update-script
    functions would have done. *)
Theorem malformed_manifest_stops_scaffolding (J : json_codec) (E : machine)
    (U : update_scripts) (targetPath : list N) (o : options) (s : session)
    (text : list N) :
  w_fs (s_world s) !! path_join targetPath js:".env" ≠ Some Directory →
  w_fs (s_world s) !! path_join targetPath js:"package.json" = Some (File text) →
  JSON_parse J text = None →
  createProjectFiles J E U targetPath o s
  = (Failed (Caught SyntaxError),
     noted Log CreatedEnvFile
       (with_world
          (set_fs (<[path_join targetPath js:".env" := File envContent]>
                     (w_fs (s_world s))) (s_world s)) s)).
Proof.
  intros Henv Hfile Hparse.
  assert (Hne : path_join targetPath js:".env" ≠ path_join targetPath js:"package.json").
  { unfold path_join. intros E0. apply app_inv_head in E0.
    vm_compute in E0. discriminate E0. }
  unfold createProjectFiles.
  assert (E1 : createEnvFile targetPath s
               = (Done tt,
                  noted Log CreatedEnvFile
                    (with_world
                       (set_fs (<[path_join targetPath js:".env" := File envContent]>
                                  (w_fs (s_world s))) (s_world s)) s))).
  { unfold createEnvFile, sbind, lift, note, writeFileSync.
    destruct (w_fs (s_world s) !! path_join targetPath js:".env") as [[?|]|];
      [reflexivity|by destruct Henv|reflexivity]. }
  rewrite (sbind_run _ _ s _ _ E1).
  match goal with
  | |- sbind (lift ?m) ?k ?s1 = _ =>
      assert (E2 : m (s_world s1) = (Throw SyntaxError, s_world s1))
  end.
  { apply (updatePackageJson_malformed _ _ _ _ _ _ text); [|exact Hparse].
    cbn [s_world noted with_world w_fs set_fs].
    rewrite lookup_insert_ne by exact Hne. exact Hfile. }
  rewrite (sbind_failed _ _ _ _ _ (lift_throw _ _ _ _ E2)).
  by rewrite with_world_same.
Qed.

Lemma sbind_done_inv {A B} (m : Task A) (k : A → Task B) s b s' :
  sbind m k s = (Done b, s') → ∃ a s1, m s = (Done a, s1) ∧ k a s1 = (Done b, s').
Proof.
  unfold sbind. destruct (m s) as [[a|e|n] s1]; [eauto|discriminate|discriminate].
Qed.

(** X29. [main] never lets a failure out. Whatever is thrown during the
    installation, it prints that the installation failed and ends the
    process with status 1; and when it returns, the last line printed is
    that the installation completed. *)
Theorem main_ends_with_status_1_on_failure (J : json_codec) (E : machine)
    (U : update_scripts) (args : list (list N)) (s : session) :
  (∀ e, fst (main J E U args s) ≠ Failed e)
  ∧ (fst (main J E U args s) = Done tt →
     ∃ l, s_notes (snd (main J E U args s)) = l ++ [(Log, InstallationCompleted)])
  ∧ (∀ name info w0 e s',
       help (parseArguments args) = false →
       projectName (parseArguments args) = Str name →
       validateProjectName name = true →
       main_target_gate (m_host E) (parseArguments args) (s_world s) = (Ret info, w0) →
       installProject J E U (parseArguments args) info (with_world w0 s)
         = (Failed e, s') →
       main J E U args s = (Ended 1, noted Error (InstallationFailed e) s')).
Proof.
  unfold main. cbv zeta.
  match goal with
  | |- context [stry ?b _ s] => remember b as body eqn:Ebody
  end.
  split; [|split].
  - intros e. unfold stry.
    destruct (body s) as [[[]|e0|n] s1]; cbn [fst]; discriminate.
  - unfold stry.
    destruct (body s) as [[[]|e0|n] s1] eqn:Eb; cbn [fst snd].
    + intros _. subst body.
      apply sbind_done_inv in Eb as (? & s2 & _ & Eb).
      apply sbind_done_inv in Eb as (? & s3 & _ & Eb).
      apply sbind_done_inv in Eb as (? & s4 & _ & Eb).
      apply sbind_done_inv in Eb as (info & s5 & _ & Eb).
      apply sbind_done_inv in Eb as (? & s6 & _ & Eb).
      unfold note in Eb. injection Eb as <-. by exists (s_notes s6).
    + unfold sbind, note, sexit. cbn [fst]. discriminate.
    + discriminate.
  - intros name info w0 e s' Hh Hn Hv Hg Hi.
    assert (Eb : body s = (Failed e, s')).
    { subst body. rewrite Hh, Hn. cbn [to_string truthy negb]. rewrite Hv. cbn [negb].
      destruct name as [|c name]; [discriminate Hv|].
      unfold swhen at 1. rewrite (sbind_run _ _ s tt s eq_refl).
      unfold swhen at 1. rewrite (sbind_run _ _ s tt s eq_refl).
      unfold swhen at 1. rewrite (sbind_run _ _ s tt s eq_refl).
      rewrite (sbind_run _ _ s _ _ (lift_run _ _ _ _ Hg)).
      by rewrite (sbind_failed _ _ _ _ _ Hi). }
    unfold stry. rewrite Eb. reflexivity.
Qed.

(** * The further properties at concrete inputs *)

Lemma no_selector_flag_means_latest_witness :
  Forall (fun a => takes_value a = false) [js:"my-site"; js:"--help"]
  ∧ determineTarget (parseArguments [js:"my-site"; js:"--help"])
    = {| targetType := js:"latest"; target := Str js:"latest" |}.
Proof.
  assert (H : Forall (fun a => takes_value a = false) [js:"my-site"; js:"--help"])
    by (repeat constructor).
  split; [exact H|].
  exact (proj1 (no_selector_flag_means_latest [js:"my-site"; js:"--help"]
                  Sample.plain_host (Sample.world_of Sample.fresh_clone) H)).
Defined.

Lemma hash_flag_decides_target_witness :
  complete [js:"my-site"; js:"--tag"; js:"v1.0.0"] = true
  ∧ determineTarget
      (parseArguments
         [js:"my-site"; js:"--tag"; js:"v1.0.0"; js:"--commit"; js:"abc1234";
          js:"--version"; js:"v2.0.0"])
    = {| targetType := js:"hash"; target := Str js:"abc1234" |}.
Proof.
  assert (H1 : complete [js:"my-site"; js:"--tag"; js:"v1.0.0"] = true)
    by (vm_compute; reflexivity).
  assert (H3 : js:"abc1234" ≠ []) by (intros E; vm_compute in E; discriminate E).
  assert (H4 : Forall (fun x => is_hash_flag x = false) [js:"--version"; js:"v2.0.0"])
    by (repeat constructor).
  split; [exact H1|].
  exact (proj1 (hash_flag_decides_target [js:"my-site"; js:"--tag"; js:"v1.0.0"]
                  [js:"--version"; js:"v2.0.0"] js:"--commit" js:"abc1234"
                  Sample.plain_host (Sample.world_of Sample.fresh_clone)
                  H1 eq_refl H3 H4)).
Defined.

Lemma trailing_flag_stores_undefined_witness :
  complete [js:"my-site"] = true
  ∧ parseArguments [js:"my-site"; js:"--tag"]
    = set_tag Undefined (parseArguments [js:"my-site"])
  ∧ targetType (determineTarget (parseArguments [js:"my-site"; js:"--tag"]))
    ≠ js:"tag".
Proof.
  assert (H1 : complete [js:"my-site"] = true) by (vm_compute; reflexivity).
  split; [exact H1|].
  destruct (trailing_flag_stores_undefined [js:"my-site"] js:"--tag" H1)
    as (_ & Ht & _).
  exact (Ht eq_refl).
Defined.

Lemma project_name_is_first_positional_witness :
  complete [js:"--tag"; js:"v1.0.0"] = true
  ∧ projectName
      (parseArguments [js:"--tag"; js:"v1.0.0"; js:"my-site"; js:"other"; js:"-h"])
    = Str js:"my-site".
Proof.
  assert (H1 : complete [js:"--tag"; js:"v1.0.0"] = true) by (vm_compute; reflexivity).
  assert (H5 : js:"my-site" ≠ []) by (intros E; vm_compute in E; discriminate E).
  split; [exact H1|].
  exact (project_name_is_first_positional [js:"--tag"; js:"v1.0.0"]
           [js:"other"; js:"-h"] js:"my-site" H1 eq_refl eq_refl eq_refl H5).
Defined.

Lemma valid_project_name_is_one_path_component_witness :
  validateProjectName js:"my-site_2" = true
  ∧ trim js:"my-site_2" = js:"my-site_2"
  ∧ includes js:"my-site_2" js:"/" = false.
Proof.
  assert (H : validateProjectName js:"my-site_2" = true) by (vm_compute; reflexivity).
  split; [exact H|].
  destruct (valid_project_name_is_one_path_component js:"my-site_2" H)
    as (_ & Ht & _ & Hs & _).
  split; [exact Ht|exact Hs].
Defined.

Lemma listed_tag_is_accepted_witness :
  remote_tags Sample.host_two_tags = Some Sample.two_tags
  ∧ tag_exists_exactly Sample.two_tags js:"v1.2.0" = true
  ∧ fst (validateTarget Sample.host_two_tags (Str js:"v1.2.0") js:"tag"
           (Sample.world_of Sample.fresh_clone)) = Ret true.
Proof.
  assert (H3 : tag_exists_exactly Sample.two_tags js:"v1.2.0" = true)
    by (vm_compute; reflexivity).
  split; [reflexivity|]. split; [exact H3|].
  by rewrite (listed_tag_is_accepted Sample.host_two_tags js:"v1.2.0" js:"tag"
                (Sample.world_of Sample.fresh_clone) Sample.two_tags
                eq_refl eq_refl H3).
Defined.


Lemma match_tag_reads_listing_line_witness :
  match_tag (js:"9f2c3d4e5f60718293a4b5c6d7e8f90a1b2c3d4e" ++ [9]
             ++ js:"refs/tags/" ++ js:"v1.0.0") = Some js:"v1.0.0".
Proof.
  assert (H1 : Forall (fun c => c ≠ 114)
                 (js:"9f2c3d4e5f60718293a4b5c6d7e8f90a1b2c3d4e" ++ [9])).
  { apply Forall_forall. intros c Hc. apply list_elem_of_In in Hc.
    vm_compute in Hc. intros ->.
    repeat (destruct Hc as [Hc|Hc]; [discriminate Hc|]). exact Hc. }
  assert (H2 : js:"v1.0.0" ≠ []) by (intros E; vm_compute in E; discriminate E).
  pose proof (match_tag_reads_listing_line
                (js:"9f2c3d4e5f60718293a4b5c6d7e8f90a1b2c3d4e" ++ [9]) js:"v1.0.0"
                H1 H2 eq_refl) as H.
  rewrite <- app_assoc in H. exact H.
Defined.

Lemma normaliser_keeps_revision_witness :
  head_rev (w_repo (snd (ensureMainBranchFromCurrentState Sample.old_git_host
                           (Str js:"v1.2.0") js:"tag"
                           (Sample.world_of Sample.detached_no_main))))
  = Some Sample.tag_rev.
Proof.
  assert (Hrev : head_rev (w_repo (Sample.world_of Sample.detached_no_main))
                 = Some Sample.tag_rev) by (vm_compute; reflexivity).
  rewrite (normaliser_keeps_revision Sample.old_git_host (Str js:"v1.2.0") js:"tag"
             (Sample.world_of Sample.detached_no_main)); [exact Hrev|].
  intros c Hc. rewrite Hrev in Hc. injection Hc as <-. vm_compute. reflexivity.
Defined.

Lemma detached_with_local_main_stays_detached_witness :
  HEAD Sample.detached_at_tag = Detached Sample.tag_rev
  ∧ heads Sample.detached_at_tag !! main_branch
    = Some js:"77aa2c3d4e5f60718293a4b5c6d7e8f90a1b2c3d"
  ∧ w_repo (snd (ensureMainBranchFromCurrentState Sample.plain_host
                   (Str js:"v1.2.0") js:"tag"
                   (Sample.world_of Sample.detached_at_tag)))
    = Sample.detached_at_tag
  ∧ typed_url_is_word Sample.plain_host = true
  ∧ current_branch
      (w_repo (snd (afterAcquisition Sample.plain_host (Sample.with_tag "v1.2.0")
                      (Sample.world_of Sample.detached_at_tag)))) = None.
Proof.
  assert (H2 : no_ws Sample.tag_rev = true) by (vm_compute; reflexivity).
  assert (H3 : heads (w_repo (Sample.world_of Sample.detached_at_tag)) !! main_branch
               = Some js:"77aa2c3d4e5f60718293a4b5c6d7e8f90a1b2c3d")
    by (vm_compute; reflexivity).
  split; [reflexivity|]. split; [exact H3|].
  destruct (detached_with_local_main_stays_detached Sample.plain_host
              (Str js:"v1.2.0") js:"tag" (Sample.world_of Sample.detached_at_tag)
              Sample.tag_rev _ eq_refl H2 H3) as (Hr & _ & _ & Ha).
  split; [exact Hr|]. split; [reflexivity|]. apply (Ha eq_refl).
Defined.

Lemma normaliser_moves_head_or_warns_witness :
  (∀ b, HEAD Sample.on_trunk = Attached b → no_ws b = true)
  ∧ tags Sample.on_trunk !! main_branch = None
  ∧ In (Log, MainBranchSetupComplete)
      (emitted (ensureMainBranchFromCurrentState Sample.plain_host
                  (Str js:"latest") js:"version")
         (Sample.world_of Sample.on_trunk))
  ∧ HEAD (w_repo (snd (ensureMainBranchFromCurrentState Sample.plain_host
                         (Str js:"latest") js:"version"
                         (Sample.world_of Sample.on_trunk))))
    = Attached main_branch
  ∧ commands (ensureMainBranchFromCurrentState Sample.plain_host (Str js:"latest")
                js:"version")
      (snd (ensureMainBranchFromCurrentState Sample.plain_host (Str js:"latest")
              js:"version" (Sample.world_of Sample.on_trunk)))
    = [SymbolicRefShortHEAD].
Proof.
  assert (H1 : ∀ b, HEAD (w_repo (Sample.world_of Sample.on_trunk)) = Attached b
                    → no_ws b = true)
    by (intros b Hb; injection Hb as <-; vm_compute; reflexivity).
  assert (H2 : In (Log, MainBranchSetupComplete)
                 (emitted (ensureMainBranchFromCurrentState Sample.plain_host
                             (Str js:"latest") js:"version")
                    (Sample.world_of Sample.on_trunk)))
    by (vm_compute; auto).
  destruct (normaliser_moves_head_or_warns Sample.plain_host (Str js:"latest")
              js:"version" (Sample.world_of Sample.on_trunk) H1)
    as [Hfirst Hsecond].
  split; [exact H1|]. split; [reflexivity|]. split; [exact H2|]. split.
  - destruct Hfirst as [[_ Hh]|(_ & Hno & _)]; [exact Hh|by destruct Hno].
  - exact (proj1 (Hsecond eq_refl H2 (Str js:"latest") js:"version")).
Defined.

Lemma other_branch_reaches_main_witness :
  heads Sample.on_trunk !! main_branch
    = Some js:"77aa2c3d4e5f60718293a4b5c6d7e8f90a1b2c3d"
  ∧ HEAD (w_repo (snd (ensureMainBranchFromCurrentState Sample.plain_host
                         (Str js:"latest") js:"version"
                         (Sample.world_of Sample.on_trunk))))
    = Attached main_branch
  ∧ head_rev (w_repo (snd (ensureMainBranchFromCurrentState Sample.plain_host
                             (Str js:"latest") js:"version"
                             (Sample.world_of Sample.on_trunk))))
    = Some Sample.tag_rev.
Proof.
  assert (H2 : js:"trunk" ≠ []) by (intros E; vm_compute in E; discriminate E).
  assert (H3 : js:"trunk" ≠ main_branch) by (intros E; vm_compute in E; discriminate E).
  assert (H4 : no_ws js:"trunk" = true) by (vm_compute; reflexivity).
  assert (H5 : heads (w_repo (Sample.world_of Sample.on_trunk)) !! js:"trunk"
               = Some Sample.tag_rev) by (vm_compute; reflexivity).
  assert (H6 : no_ws Sample.tag_rev = true) by (vm_compute; reflexivity).
  assert (H7 : ∀ x r, touches_main_only x = true → can_run Sample.plain_host x r = true)
    by (intros; reflexivity).
  split; [vm_compute; reflexivity|].
  destruct (other_branch_reaches_main Sample.plain_host (Str js:"latest") js:"version"
              (Sample.world_of Sample.on_trunk) js:"trunk" Sample.tag_rev
              eq_refl H2 H3 H4 H5 H6 H7) as (Hh & Hr & _).
  split; [exact Hh|exact Hr].
Defined.

Lemma setupGitRepository_touches_only_current_branch_witness :
  typed_url_is_word Sample.connecting_host = true
  ∧ current_branch
      (w_repo (snd (setupGitRepository Sample.connecting_host
                      (Sample.world_of Sample.on_trunk))))
    = Some js:"trunk"
  ∧ heads (w_repo (snd (setupGitRepository Sample.connecting_host
                          (Sample.world_of Sample.on_trunk)))) !! main_branch
    = Some js:"77aa2c3d4e5f60718293a4b5c6d7e8f90a1b2c3d"
  ∧ head_rev (w_repo (snd (setupGitRepository Sample.connecting_host
                             (Sample.world_of Sample.on_trunk))))
    = Some js:"5e1f00d5e1f00d5e1f00d5e1f00d5e1f00d5e1f0".
Proof.
  destruct (setupGitRepository_touches_only_current_branch Sample.connecting_host
              (Sample.world_of Sample.on_trunk)) as [_ H].
  destruct (H eq_refl) as (_ & Hb & Hh).
  split; [reflexivity|]. split; [exact Hb|]. split; [|vm_compute; reflexivity].
  rewrite (Hh main_branch); [vm_compute; reflexivity|].
  intros E. vm_compute in E. discriminate E.
Defined.

Lemma setupGitRepository_sets_up_remotes_witness :
  remotes Sample.fresh_clone !! origin = Some repoUrl
  ∧ upstream_configured Sample.connecting_host Sample.fresh_clone
  ∧ typed_url_is_word Sample.connecting_host = true
  ∧ remotes (w_repo (snd (setupGitRepository Sample.connecting_host
                            (Sample.world_of Sample.fresh_clone))))
    = {[ upstream := repoUrl; origin := js:"git@example.org:me/my-blog.git" ]}
  ∧ remotes (w_repo (snd (setupGitRepository Sample.connecting_host
                            (Sample.world_of Sample.fresh_clone)))) !! upstream
    = Some repoUrl.
Proof.
  assert (H1 : remotes (w_repo (Sample.world_of Sample.fresh_clone)) !! origin
               = Some repoUrl) by (vm_compute; reflexivity).
  assert (H2 : upstream_configured Sample.connecting_host
                 (w_repo (Sample.world_of Sample.fresh_clone)))
    by (left; vm_compute; eauto).
  assert (H3 : typed_url_is_word Sample.connecting_host = true)
    by (vm_compute; reflexivity).
  destruct (setupGitRepository_sets_up_remotes Sample.connecting_host
              (Sample.world_of Sample.fresh_clone) H1 H2 H3) as [Hu _].
  split; [exact H1|]. split; [exact H2|]. split; [exact H3|].
  split; [vm_compute; reflexivity|exact Hu].
Defined.

Lemma remote_failures_do_not_stop_setup_witness :
  (∀ c r, setup_local c = true → can_run Sample.offline_host c r = true)
  ∧ (∀ r, stages Sample.offline_host r = true)
  ∧ typed_url_is_word Sample.offline_host = true
  ∧ In (Log, CouldNotSetUpUpstream (CommandFailed (RemoteRemove origin)))
      (emitted (setupGitRepository Sample.offline_host)
         (Sample.world_of Sample.without_remote))
  ∧ In (Log, PushFailed (CommandFailed (PushSetUpstream origin main_branch)))
      (emitted (setupGitRepository Sample.offline_host)
         (Sample.world_of Sample.without_remote))
  ∧ merge_settings
      (w_repo (snd (setupGitRepository Sample.offline_host
                      (Sample.world_of Sample.without_remote))))
    = (Some js:"true", Some js:"false")
  ∧ head_rev
      (w_repo (snd (setupGitRepository Sample.offline_host
                      (Sample.world_of Sample.without_remote))))
    = Some js:"5e1f00d5e1f00d5e1f00d5e1f00d5e1f00d5e1f0"
  ∧ In (Log, GitConfigured)
      (emitted (setupGitRepository Sample.offline_host)
         (Sample.world_of Sample.without_remote)).
Proof.
  assert (H1 : ∀ c r, setup_local c = true → can_run Sample.offline_host c r = true)
    by (intros c r Hc; destruct c; try discriminate Hc; reflexivity).
  assert (H2 : ∀ r, stages Sample.offline_host r = true) by (intros; reflexivity).
  assert (H3 : typed_url_is_word Sample.offline_host = true)
    by (vm_compute; reflexivity).
  destruct (remote_failures_do_not_stop_setup Sample.offline_host
              (Sample.world_of Sample.without_remote) H1 H2 H3)
    as (Hms & [r0 Hrev] & Hdone).
  split; [exact H1|]. split; [exact H2|]. split; [exact H3|].
  split; [vm_compute; auto 10|]. split; [vm_compute; auto 20|].
  split; [exact Hms|]. split; [exact Hrev|exact Hdone].
Defined.

Lemma updatePackageJson_keeps_other_members_witness :
  scripts_ok Sample.manifest_object = true
  ∧ ∃ pkg',
      w_fs (snd (updatePackageJson Sample.codec Sample.plain_host Sample.project_dir
                   js:"my-blog" Sample.no_selector
                   (Sample.world_with_manifest Sample.fresh_clone)))
      = <[path_join Sample.project_dir js:"package.json"
            := File (JSON_stringify Sample.codec (JObj pkg'))]>
          (w_fs (Sample.world_with_manifest Sample.fresh_clone))
      ∧ props_get js:"name" pkg' = JStr js:"my-blog"
      ∧ props_get js:"start" (members (props_get js:"scripts" pkg'))
        = JStr js:"node index.js".
Proof.
  assert (H1 : w_fs (Sample.world_with_manifest Sample.fresh_clone)
                 !! path_join Sample.project_dir js:"package.json"
               = Some (File Sample.manifest_text)) by (vm_compute; reflexivity).
  assert (H2 : JSON_parse Sample.codec Sample.manifest_text
               = Some (JObj Sample.manifest_object)) by (vm_compute; reflexivity).
  assert (H3 : scripts_ok Sample.manifest_object = true) by (vm_compute; reflexivity).
  split; [exact H3|].
  destruct (updatePackageJson_keeps_other_members Sample.codec Sample.plain_host
              Sample.project_dir js:"my-blog" Sample.no_selector
              (Sample.world_with_manifest Sample.fresh_clone)
              Sample.manifest_text Sample.manifest_object H1 H2 H3)
    as (pkg' & Hfs & Hname & _ & _ & _ & Hstart & _).
  exists pkg'. split; [exact Hfs|]. split; [exact Hname|].
  rewrite Hstart. vm_compute. reflexivity.
Defined.

Lemma installedVersion_unknown_without_commit_witness :
  head_rev (w_repo Inputs.unborn_with_manifest) = None
  ∧ emitted (updatePackageJson Sample.codec Sample.plain_host Sample.project_dir
               js:"my-blog" Sample.no_selector) Inputs.unborn_with_manifest
    = [(Warn, CouldNotDetermineVersion); (Log, UpdatedPackageJson js:"unknown")].
Proof.
  assert (H1 : w_fs Inputs.unborn_with_manifest
                 !! path_join Sample.project_dir js:"package.json"
               = Some (File Sample.manifest_text)) by (vm_compute; reflexivity).
  assert (H2 : JSON_parse Sample.codec Sample.manifest_text
               = Some (JObj Sample.manifest_object)) by (vm_compute; reflexivity).
  assert (H3 : scripts_ok Sample.manifest_object = true) by (vm_compute; reflexivity).
  assert (H4 : targetType (determineTarget Sample.no_selector) = js:"latest")
    by (vm_compute; reflexivity).
  assert (H5 : head_rev (w_repo Inputs.unborn_with_manifest) = None)
    by (vm_compute; reflexivity).
  split; [exact H5|].
  destruct (installedVersion_unknown_without_commit Sample.codec Sample.plain_host
              Sample.project_dir js:"my-blog" Sample.no_selector
              Inputs.unborn_with_manifest Sample.manifest_text Sample.manifest_object
              H1 H2 H3 H4 H5) as (_ & _ & He & _).
  exact He.
Defined.

Lemma checkNodeVersion_exits_below_18_witness :
  checkNodeVersion js:"16.20.2" = Some 1%nat
  ∧ checkNodeVersion js:"v16.20.2" = None.
Proof.
  assert (H1 : js:"16" ≠ []) by (intros E; vm_compute in E; discriminate E).
  destruct (checkNodeVersion_exits_below_18 js:"16" js:"20.2" H1 eq_refl) as [Ha Hb].
  split; [exact Ha|].
  apply (Hb 118); [reflexivity|reflexivity|discriminate|discriminate].
Defined.

Lemma help_flag_wins_witness :
  complete [js:"not a name!"; js:"--tag"; js:"v9"] = true
  ∧ main Sample.codec Inputs.laptop Inputs.scripts
      [js:"not a name!"; js:"--tag"; js:"v9"; js:"-h"] Inputs.start
    = (Ended 0, noted Log HelpText Inputs.start).
Proof.
  assert (H1 : complete [js:"not a name!"; js:"--tag"; js:"v9"] = true)
    by (vm_compute; reflexivity).
  split; [exact H1|].
  exact (help_flag_wins Sample.codec Inputs.laptop Inputs.scripts
           [js:"not a name!"; js:"--tag"; js:"v9"] [] js:"-h" Inputs.start
           H1 eq_refl).
Defined.

Lemma clone_only_after_all_checks_witness :
  s_shell (snd (main Sample.codec Inputs.laptop Inputs.scripts [js:"my-blog"]
                  Inputs.start))
    ≠ s_shell Inputs.start
  ∧ ∃ name, projectName (parseArguments [js:"my-blog"]) = Str name
            ∧ validateProjectName name = true
            ∧ w_fs (s_world Inputs.start) !! resolve Inputs.laptop name = None.
Proof.
  assert (H : s_shell (snd (main Sample.codec Inputs.laptop Inputs.scripts
                              [js:"my-blog"] Inputs.start))
              ≠ s_shell Inputs.start)
    by (intros E; vm_compute in E; discriminate E).
  split; [exact H|].
  destruct (clone_only_after_all_checks Sample.codec Inputs.laptop Inputs.scripts
              [js:"my-blog"] Inputs.start H)
    as (name & _ & Hn & _ & _ & _ & Hv & _ & Hfree).
  exists name. split; [exact Hn|]. split; [exact Hv|exact Hfree].
Defined.


Lemma updatePackageLockJson_renames_root_witness :
  ∃ pkg',
    w_fs (s_world (snd (updatePackageLockJson Inputs.lock_codec Sample.project_dir
                          js:"my-blog" Inputs.with_lock)))
      !! path_join Sample.project_dir js:"package-lock.json"
    = Some (File (JSON_stringify Inputs.lock_codec (JObj pkg')))
    ∧ props_get js:"name" pkg' = JStr js:"my-blog".
Proof.
  assert (H1 : w_fs (s_world Inputs.with_lock)
                 !! path_join Sample.project_dir js:"package-lock.json"
               = Some (File Inputs.lock_text)) by (vm_compute; reflexivity).
  assert (H2 : JSON_parse Inputs.lock_codec Inputs.lock_text
               = Some (JObj Inputs.lock_object)) by (vm_compute; reflexivity).
  destruct (updatePackageLockJson_renames_root Inputs.lock_codec Sample.project_dir
              js:"my-blog" Inputs.with_lock Inputs.lock_text Inputs.lock_object
              Inputs.lock_packages Inputs.lock_root H1 H2 eq_refl eq_refl)
    as (pkg' & pk' & root' & Hrun & Hname & _).
  exists pkg'. split; [|exact Hname].
  rewrite Hrun. cbn [snd s_world noted with_world w_fs set_fs].
  apply lookup_insert_eq.
Defined.

Lemma malformed_manifest_stops_scaffolding_witness :
  JSON_parse Sample.codec js:"<<<<<<< HEAD" = None
  ∧ fst (createProjectFiles Sample.codec Inputs.laptop Inputs.scripts
           Sample.project_dir Sample.no_selector Inputs.with_broken_manifest)
    = Failed (Caught SyntaxError).
Proof.
  assert (H1 : w_fs (s_world Inputs.with_broken_manifest)
                 !! path_join Sample.project_dir js:".env" ≠ Some Directory)
    by (intros E; vm_compute in E; discriminate E).
  assert (H2 : w_fs (s_world Inputs.with_broken_manifest)
                 !! path_join Sample.project_dir js:"package.json"
               = Some (File js:"<<<<<<< HEAD")) by (vm_compute; reflexivity).
  assert (H3 : JSON_parse Sample.codec js:"<<<<<<< HEAD" = None)
    by (vm_compute; reflexivity).
  split; [exact H3|].
  by rewrite (malformed_manifest_stops_scaffolding Sample.codec Inputs.laptop
                Inputs.scripts Sample.project_dir Sample.no_selector
                Inputs.with_broken_manifest js:"<<<<<<< HEAD" H1 H2 H3).
Defined.

Lemma main_ends_with_status_1_on_failure_witness :
  main Sample.codec Inputs.broken_template Inputs.scripts [js:"my-blog"] Inputs.start
  = (Ended 1,
     noted Error (InstallationFailed (Caught SyntaxError))
       (snd (installProject Sample.codec Inputs.broken_template Inputs.scripts
               (parseArguments [js:"my-blog"])
               (determineTarget (parseArguments [js:"my-blog"]))
               Inputs.start))).
Proof.
  destruct (main_ends_with_status_1_on_failure Sample.codec Inputs.broken_template
              Inputs.scripts [js:"my-blog"] Inputs.start) as (_ & _ & Hfail).
  apply (Hfail js:"my-blog" (determineTarget (parseArguments [js:"my-blog"]))
           (s_world Inputs.start)).
  - vm_compute. reflexivity.
  - vm_compute. reflexivity.
  - vm_compute. reflexivity.
  - vm_compute. reflexivity.
  - vm_compute. reflexivity.
Defined.
